(** * HLS playlist parser of web-media-box: dispatcher, tag processors,
      segment assembly and the full / progressive facades.

    Sources embedded here:
    - [packages/hls-parser/src/lib/parse.ts] (classes [Parser],
      [FullPlaylistParser], [ProgressiveParser]);
    - [lib/tags/tagWithAttributesProcessors.ts] (the attribute-tag processors);
    - [lib/utils/warn.ts] (the warning texts).

    Conventions of the embedding.
    - A JS string is a [string]; the facades feed it one character at a time.
    - A JS object used as a dictionary ([Record<string, T>]) is the
      association list of its own properties, in the object's enumeration
      order; [undefined] is [None].  Where the key comes from the text of the
      playlist (a GROUP-ID, a DATA-ID, a key format, the name of a variable)
      a read [d[k]] and an assignment [d[k] = v] go through the prototype of
      the object as they do in JS, and the object comes with what its
      prototype has become: [Js.read] on the rendition groups, [Js.assign]
      on a [Js.Keyed], [Js.lookup] and [Js.store] on a [Js.Object].
      The registries of [tagInfoCallback] and the attributes of a tag are
      read on their own keys: a tag key begins with the letter E (section 4.1
      of the specification) and the attribute names read by the code are
      those of the format; none is a member of [Object.prototype].
    - The sequence counters and the bit rate are doubles ([float]), added
      and tested for truthiness as JS does.  Times and durations are exact
      rationals ([Q]); a number converted straight from attribute text with
      [Number(..)] may be [NaN] and has type [number].
    - [warnCallback] and [debugCallback] are sinks: every call is recorded,
      in order, in the list of [Emitted] items a step returns.
    - A JS exception is the [Threw] outcome.

    Not among the sources, and how they enter:
    - [stateMachine.ts]: a parameter ([StateMachine]) of the facades; the
      scanner of section 4.1 of the specification is one instance
      ([Scanner.createStateMachine]);
    - [utils/parse.ts] and the built-ins of the platform: the parameter
      [Platform];
    - [tags/emptyTagProcessors.ts], [tags/tagWithValueProcessors.ts],
      [consts/defaults.ts], [consts/tags.ts]: modelled from the
      specification, each definition saying so. *)

From Stdlib Require Import String Ascii List ZArith QArith Bool Lia Floats.
Import ListNotations.
Open Scope string_scope.

(** ** JavaScript values *)

Module Js.

(** [Record<string, V>]: the own enumerable properties of the object, in
    their order ([Object.entries]).  The prototype of the object is not part
    of it. *)
Definition Dict (V : Type) := list (string * V).

Fixpoint get {V} (k : string) (d : Dict V) : option V :=
  match d with
  | [] => None
  | (k', v) :: rest => if String.eqb k' k then Some v else get k rest
  end.

(** [k in d] for a key that [Object.prototype] has no member for. *)
Definition has {V} (k : string) (d : Dict V) : bool :=
  match get k d with Some _ => true | None => false end.

(** [d[k] = v] for a key other than [__proto__]: an existing key keeps its
    place, a new one goes last. *)
Fixpoint set {V} (k : string) (v : V) (d : Dict V) : Dict V :=
  match d with
  | [] => [(k, v)]
  | (k', v') :: rest =>
      if String.eqb k' k then (k', v) :: rest else (k', v') :: set k v rest
  end.

(** The members every plain object (an object literal such as [{}])
    inherits from [Object.prototype], in Node and in browsers. *)
Definition objectPrototype : list string :=
  ["constructor"; "__defineGetter__"; "__defineSetter__"; "hasOwnProperty";
   "__lookupGetter__"; "__lookupSetter__"; "isPrototypeOf";
   "propertyIsEnumerable"; "toString"; "valueOf"; "__proto__";
   "toLocaleString"].

Definition inherited (k : string) : bool :=
  List.existsb (String.eqb k) objectPrototype.

(** What the expression [d[k]] finds in a plain object: the value of an own
    property; or a member inherited from [Object.prototype], which is a
    function, or for [__proto__] the prototype itself, in both cases a
    truthy object that is neither a string nor an array; or nothing
    ([undefined]). *)
Inductive Read (V : Type) : Type :=
| Own (v : V)
| Inherited
| Missing.

Arguments Own {V} v.
Arguments Inherited {V}.
Arguments Missing {V}.

Definition read {V} (k : string) (d : Dict V) : Read V :=
  match get k d with
  | Some v => Own v
  | None => if inherited k then Inherited else Missing
  end.

(** A plain object that receives objects (records, arrays) by assignment:
    its own properties and, once an assignment to [__proto__] has been made,
    the object that assignment installed as its prototype. *)
Record Keyed (V : Type) : Type := {
  entries : Dict V;
  installed : option V
}.

Arguments entries {V} k.
Arguments installed {V} k.

(** [{}]. *)
Definition emptyKeyed {V} : Keyed V := {| entries := []; installed := None |}.

(** [d[k] = v] for a value [v] that is an object.  The key [__proto__] names
    the accessor of [Object.prototype]: its setter makes [v] the prototype of
    [d] and gives [d] no own property.  Any other key is an own property
    afterwards, also when it names an inherited member. *)
Definition assign {V} (k : string) (v : V) (d : Keyed V) : Keyed V :=
  if (String.eqb k "__proto__" && negb (has k d.(entries)))%bool
  then {| entries := d.(entries); installed := Some v |}
  else {| entries := set k v d.(entries); installed := d.(installed) |}.

(** A plain object whose prototype the code can remove: its own properties,
    and whether its prototype is still [Object.prototype] or has become
    [null] ([detached]). *)
Record Object (V : Type) : Type := {
  own : Dict V;
  detached : bool
}.

Arguments own {V} o.
Arguments detached {V} o.

(** [{}] with the given own properties. *)
Definition plain {V} (d : Dict V) : Object V :=
  {| own := d; detached := false |}.

(** [o[k]]: without prototype nothing is inherited, [o.__proto__]
    included. *)
Definition lookup {V} (k : string) (o : Object V) : Read V :=
  match get k o.(own) with
  | Some v => Own v
  | None =>
      if (negb o.(detached) && inherited k)%bool then Inherited else Missing
  end.

(** A value as the setter of [__proto__] tells it apart: a string or
    [undefined]; [null]; [Object.prototype] itself. *)
Inductive Kind : Type :=
| Primitive
| NullValue
| PrototypeValue.

(** [o[k] = v] creates or updates an own property, unless the key is
    [__proto__] and reaches the accessor of [Object.prototype]. *)
Definition writesOwn {V} (k : string) (o : Object V) : bool :=
  negb (String.eqb k "__proto__" && negb (has k o.(own)) && negb o.(detached)).

(** [o[k] = v].  The setter of [__proto__] ignores a primitive, removes the
    prototype for [null] and installs an object as the prototype, which for
    [Object.prototype] changes nothing. *)
Definition store {V} (kind : V -> Kind) (k : string) (v : V) (o : Object V)
    : Object V :=
  if writesOwn k o then {| own := set k v o.(own); detached := o.(detached) |}
  else
    match kind v with
    | NullValue => {| own := o.(own); detached := true |}
    | Primitive | PrototypeValue => o
    end.

(** [xs[xs.length - 1]], [None] for [undefined]. *)
Definition last {A} (xs : list A) : option A :=
  List.last (List.map Some xs) None.

(** Truthiness of [string | undefined]. *)
Definition truthy (o : option string) : bool :=
  match o with
  | Some EmptyString => false
  | Some _ => true
  | None => false
  end.

(** [s.split(sep)] for a one-character separator. *)
Fixpoint split (sep : ascii) (s : string) : list string :=
  match s with
  | EmptyString => [EmptyString]
  | String c rest =>
      if Ascii.eqb c sep then EmptyString :: split sep rest
      else match split sep rest with
           | [] => [String c EmptyString]
           | h :: t => String c h :: t
           end
  end.

Definition isSpace (c : ascii) : bool :=
  let n := nat_of_ascii c in
  (Nat.eqb n 32 || Nat.eqb n 9 || Nat.eqb n 10 || Nat.eqb n 11
   || Nat.eqb n 12 || Nat.eqb n 13 || Nat.eqb n 160)%bool.

Fixpoint trimStart (s : string) : string :=
  match s with
  | String c rest => if isSpace c then trimStart rest else s
  | EmptyString => EmptyString
  end.

Fixpoint trimEnd (s : string) : string :=
  match s with
  | EmptyString => EmptyString
  | String c rest =>
      match trimEnd rest with
      | EmptyString => if isSpace c then EmptyString else String c EmptyString
      | rest' => String c rest'
      end
  end.

(** [s.trim()]. *)
Definition trim (s : string) : string := trimEnd (trimStart s).

(** A JS number obtained by conversion: a finite value or [NaN]. *)
Inductive number : Type :=
| NaN
| Num (q : Q).

Definition ofZ (z : Z) : number := Num (inject_Z z).

Definition add (a b : number) : number :=
  match a, b with
  | Num x, Num y => Num (x + y)
  | _, _ => NaN
  end.

Definition sub (a b : number) : number :=
  match a, b with
  | Num x, Num y => Num (x - y)
  | _, _ => NaN
  end.

Definition mul (a b : number) : number :=
  match a, b with
  | Num x, Num y => Num (x * y)
  | _, _ => NaN
  end.

Definition isNaN (a : number) : bool :=
  match a with NaN => true | Num _ => false end.

(** Truthiness of a number: [0] and [NaN] are falsy. *)
Definition truthyNum (a : number) : bool :=
  match a with
  | NaN => false
  | Num q => negb (Qeq_bool q 0)
  end.

Definition MAX_SAFE_INTEGER : number := ofZ 9007199254740991.

(** Truthiness of an integer-valued [number | undefined]. *)
Definition truthyZ (o : option Z) : bool :=
  match o with
  | Some z => negb (Z.eqb z 0)
  | None => false
  end.

(** Truthiness of a rational-valued [number | undefined]. *)
Definition truthyQ (o : option Q) : bool :=
  match o with
  | Some q => negb (Qeq_bool q 0)
  | None => false
  end.

(** A number kept in double precision is a [float] (IEEE 754 binary64, the
    representation of every JS number); [+] on it rounds as JS does.
    [ofInteger z] is the double nearest to the integer [z] (ties to even):
    what [Number] and [parseInt] give for decimal digits. *)
Definition ofInteger (z : Z) : float :=
  SF2Prim (binary_normalize prec emax z 0 false).

(** Truthiness of a double: [0], [-0] and [NaN] are falsy. *)
Definition truthyDouble (x : float) : bool :=
  ((x <? 0)%float || (0 <? x)%float)%bool.

(** Truthiness of a double-valued [number | undefined]. *)
Definition truthyNumber (o : option float) : bool :=
  match o with
  | Some x => truthyDouble x
  | None => false
  end.

End Js.

(** ** Warning texts ([lib/utils/warn.ts]) *)

Module Warn.

Definition skipProcessing (tag reason : string) : string :=
  "Skip processing " ++ tag ++ ". Reason: " ++ reason ++ ".".

Definition missingTagValueWarn (tag : string) : string :=
  skipProcessing tag "No tag value".

Definition missingRequiredAttributeWarn (tag attribute : string) : string :=
  skipProcessing tag ("No required " ++ attribute ++ " attribute").

Definition missingRequiredVariableForAttributeValueSubstitutionWarn
    (tag attribute variableName : string) : string :=
  tag ++ ": Unable to substitute variable for " ++ variableName
      ++ " when processing the following attribute: " ++ attribute.

Definition missingRequiredVariableForUriSubstitutionWarn
    (uri variableName : string) : string :=
  "Unable to substitute variable for " ++ variableName
      ++ " when processing the following uri: " ++ uri.

Definition unsupportedTagWarn (tag : string) : string :=
  skipProcessing tag "Unsupported".

Definition unableToParseValueWarn (tag : string) : string :=
  skipProcessing tag "Unable to parse tag value".

Definition fallbackUsedWarn (tag fallback : string) : string :=
  tag ++ ": Fallback used " ++ fallback.

Definition failedToResolveUriAttribute
    (tag attribute uriValue baseUrl : string) : string :=
  tag ++ ": Failed to resolve " ++ attribute ++ ". Value: " ++ uriValue
      ++ ". Base URL: " ++ baseUrl.

Definition failedToResolveUri (uriValue baseUrl : string) : string :=
  "Failed to resolve " ++ uriValue ++ ". Base URL: " ++ baseUrl.

(** [Array.from(required).toString()] joins with commas. *)
Definition unsupportedEnumValue
    (tag actual : string) (required : list string) : string :=
  skipProcessing tag
    ("received unsupported tag value: " ++ actual ++ ". Possible values: "
       ++ String.concat "," required).

Definition ignoreTagWarn (tag : string) : string :=
  skipProcessing tag "Tag is included in the ignore list".

(** The difference is rendered by the caller's number printer. *)
Definition segmentDurationExceededTargetDuration
    (segmentUri difference : string) : string :=
  "Segment duration is more than target duration. Difference is "
    ++ difference ++ ". Uri is " ++ segmentUri.

End Warn.

(** ** Data model ([types/parsedPlaylist], [types/sharedState]) *)

Module ByteRange.

(** [{ start, end }], both ends inclusive. *)
Record t : Type := mk {
  start : Js.number;
  end_ : Js.number
}.

End ByteRange.

Module Encryption.

(** [Encryption] and [SessionKey], the result of [parseEncryptionTag]. *)
Record t : Type := mk {
  method : option string;
  uri : option string;
  resolvedUri : option string;
  iv : option string;
  keyFormat : string;
  keyFormatVersions : list Js.number
}.

End Encryption.

Module MediaInitializationSection.

(** The value of [sharedState.currentMap] (EXT-X-MAP). *)
Record t : Type := mk {
  uri : string;
  resolvedUri : string;
  byteRange : option ByteRange.t;
  encryption : option Encryption.t
}.

End MediaInitializationSection.

Module PartialSegment.

Record t : Type := mk {
  uri : string;
  resolvedUri : string;
  duration : Js.number;
  isGap : bool;
  independent : bool;
  byteRange : option ByteRange.t
}.

Definition set_byteRange (v : option ByteRange.t) (r : t) : t :=
  mk (r.(uri)) (r.(resolvedUri)) (r.(duration)) (r.(isGap))
    (r.(independent)) v.

End PartialSegment.

Module Segment.

(** The two counters and the bit rate are doubles; times are rationals
    (seconds; program date time in milliseconds). *)
Record t : Type := mk {
  uri : string;
  resolvedUri : string;
  duration : Q;
  title : string;
  byteRange : option ByteRange.t;
  bitrate : option float;
  isDiscontinuity : bool;
  isGap : bool;
  encryption : option Encryption.t;
  map : option MediaInitializationSection.t;
  parts : list PartialSegment.t;
  programDateTimeStart : option Q;
  programDateTimeEnd : option Q;
  mediaSequence : float;
  discontinuitySequence : float;
  startTime : Q;
  endTime : Q
}.

Definition set_uri (v : string) (r : t) : t :=
  mk v (r.(resolvedUri)) (r.(duration)) (r.(title)) (r.(byteRange))
    (r.(bitrate)) (r.(isDiscontinuity)) (r.(isGap)) (r.(encryption))
    (r.(map)) (r.(parts)) (r.(programDateTimeStart))
    (r.(programDateTimeEnd)) (r.(mediaSequence)) (r.(discontinuitySequence))
    (r.(startTime)) (r.(endTime)).

Definition set_resolvedUri (v : string) (r : t) : t :=
  mk (r.(uri)) v (r.(duration)) (r.(title)) (r.(byteRange)) (r.(bitrate))
    (r.(isDiscontinuity)) (r.(isGap)) (r.(encryption)) (r.(map)) (r.(parts))
    (r.(programDateTimeStart)) (r.(programDateTimeEnd)) (r.(mediaSequence))
    (r.(discontinuitySequence)) (r.(startTime)) (r.(endTime)).

Definition set_duration (v : Q) (r : t) : t :=
  mk (r.(uri)) (r.(resolvedUri)) v (r.(title)) (r.(byteRange)) (r.(bitrate))
    (r.(isDiscontinuity)) (r.(isGap)) (r.(encryption)) (r.(map)) (r.(parts))
    (r.(programDateTimeStart)) (r.(programDateTimeEnd)) (r.(mediaSequence))
    (r.(discontinuitySequence)) (r.(startTime)) (r.(endTime)).

Definition set_title (v : string) (r : t) : t :=
  mk (r.(uri)) (r.(resolvedUri)) (r.(duration)) v (r.(byteRange))
    (r.(bitrate)) (r.(isDiscontinuity)) (r.(isGap)) (r.(encryption))
    (r.(map)) (r.(parts)) (r.(programDateTimeStart))
    (r.(programDateTimeEnd)) (r.(mediaSequence)) (r.(discontinuitySequence))
    (r.(startTime)) (r.(endTime)).

Definition set_byteRange (v : option ByteRange.t) (r : t) : t :=
  mk (r.(uri)) (r.(resolvedUri)) (r.(duration)) (r.(title)) v (r.(bitrate))
    (r.(isDiscontinuity)) (r.(isGap)) (r.(encryption)) (r.(map)) (r.(parts))
    (r.(programDateTimeStart)) (r.(programDateTimeEnd)) (r.(mediaSequence))
    (r.(discontinuitySequence)) (r.(startTime)) (r.(endTime)).

Definition set_bitrate (v : option float) (r : t) : t :=
  mk (r.(uri)) (r.(resolvedUri)) (r.(duration)) (r.(title)) (r.(byteRange))
    v (r.(isDiscontinuity)) (r.(isGap)) (r.(encryption)) (r.(map))
    (r.(parts)) (r.(programDateTimeStart)) (r.(programDateTimeEnd))
    (r.(mediaSequence)) (r.(discontinuitySequence)) (r.(startTime))
    (r.(endTime)).

Definition set_isDiscontinuity (v : bool) (r : t) : t :=
  mk (r.(uri)) (r.(resolvedUri)) (r.(duration)) (r.(title)) (r.(byteRange))
    (r.(bitrate)) v (r.(isGap)) (r.(encryption)) (r.(map)) (r.(parts))
    (r.(programDateTimeStart)) (r.(programDateTimeEnd)) (r.(mediaSequence))
    (r.(discontinuitySequence)) (r.(startTime)) (r.(endTime)).

Definition set_isGap (v : bool) (r : t) : t :=
  mk (r.(uri)) (r.(resolvedUri)) (r.(duration)) (r.(title)) (r.(byteRange))
    (r.(bitrate)) (r.(isDiscontinuity)) v (r.(encryption)) (r.(map))
    (r.(parts)) (r.(programDateTimeStart)) (r.(programDateTimeEnd))
    (r.(mediaSequence)) (r.(discontinuitySequence)) (r.(startTime))
    (r.(endTime)).

Definition set_encryption (v : option Encryption.t) (r : t) : t :=
  mk (r.(uri)) (r.(resolvedUri)) (r.(duration)) (r.(title)) (r.(byteRange))
    (r.(bitrate)) (r.(isDiscontinuity)) (r.(isGap)) v (r.(map)) (r.(parts))
    (r.(programDateTimeStart)) (r.(programDateTimeEnd)) (r.(mediaSequence))
    (r.(discontinuitySequence)) (r.(startTime)) (r.(endTime)).

Definition set_map (v : option MediaInitializationSection.t) (r : t) : t :=
  mk (r.(uri)) (r.(resolvedUri)) (r.(duration)) (r.(title)) (r.(byteRange))
    (r.(bitrate)) (r.(isDiscontinuity)) (r.(isGap)) (r.(encryption)) v
    (r.(parts)) (r.(programDateTimeStart)) (r.(programDateTimeEnd))
    (r.(mediaSequence)) (r.(discontinuitySequence)) (r.(startTime))
    (r.(endTime)).

Definition set_parts (v : list PartialSegment.t) (r : t) : t :=
  mk (r.(uri)) (r.(resolvedUri)) (r.(duration)) (r.(title)) (r.(byteRange))
    (r.(bitrate)) (r.(isDiscontinuity)) (r.(isGap)) (r.(encryption))
    (r.(map)) v (r.(programDateTimeStart)) (r.(programDateTimeEnd))
    (r.(mediaSequence)) (r.(discontinuitySequence)) (r.(startTime))
    (r.(endTime)).

Definition set_programDateTimeStart (v : option Q) (r : t) : t :=
  mk (r.(uri)) (r.(resolvedUri)) (r.(duration)) (r.(title)) (r.(byteRange))
    (r.(bitrate)) (r.(isDiscontinuity)) (r.(isGap)) (r.(encryption))
    (r.(map)) (r.(parts)) v (r.(programDateTimeEnd)) (r.(mediaSequence))
    (r.(discontinuitySequence)) (r.(startTime)) (r.(endTime)).

Definition set_programDateTimeEnd (v : option Q) (r : t) : t :=
  mk (r.(uri)) (r.(resolvedUri)) (r.(duration)) (r.(title)) (r.(byteRange))
    (r.(bitrate)) (r.(isDiscontinuity)) (r.(isGap)) (r.(encryption))
    (r.(map)) (r.(parts)) (r.(programDateTimeStart)) v (r.(mediaSequence))
    (r.(discontinuitySequence)) (r.(startTime)) (r.(endTime)).

Definition set_mediaSequence (v : float) (r : t) : t :=
  mk (r.(uri)) (r.(resolvedUri)) (r.(duration)) (r.(title)) (r.(byteRange))
    (r.(bitrate)) (r.(isDiscontinuity)) (r.(isGap)) (r.(encryption))
    (r.(map)) (r.(parts)) (r.(programDateTimeStart))
    (r.(programDateTimeEnd)) v (r.(discontinuitySequence)) (r.(startTime))
    (r.(endTime)).

Definition set_discontinuitySequence (v : float) (r : t) : t :=
  mk (r.(uri)) (r.(resolvedUri)) (r.(duration)) (r.(title)) (r.(byteRange))
    (r.(bitrate)) (r.(isDiscontinuity)) (r.(isGap)) (r.(encryption))
    (r.(map)) (r.(parts)) (r.(programDateTimeStart))
    (r.(programDateTimeEnd)) (r.(mediaSequence)) v (r.(startTime))
    (r.(endTime)).

Definition set_startTime (v : Q) (r : t) : t :=
  mk (r.(uri)) (r.(resolvedUri)) (r.(duration)) (r.(title)) (r.(byteRange))
    (r.(bitrate)) (r.(isDiscontinuity)) (r.(isGap)) (r.(encryption))
    (r.(map)) (r.(parts)) (r.(programDateTimeStart))
    (r.(programDateTimeEnd)) (r.(mediaSequence)) (r.(discontinuitySequence))
    v (r.(endTime)).

Definition set_endTime (v : Q) (r : t) : t :=
  mk (r.(uri)) (r.(resolvedUri)) (r.(duration)) (r.(title)) (r.(byteRange))
    (r.(bitrate)) (r.(isDiscontinuity)) (r.(isGap)) (r.(encryption))
    (r.(map)) (r.(parts)) (r.(programDateTimeStart))
    (r.(programDateTimeEnd)) (r.(mediaSequence)) (r.(discontinuitySequence))
    (r.(startTime)) v.

End Segment.

Module Resolution.

Record t : Type := mk {
  width : Js.number;
  height : Js.number
}.

End Resolution.

Module BaseStreamInf.

(** The result of [parseCommonAttributes]; an [IFramePlaylist] has exactly these fields. *)
Record t : Type := mk {
  uri : string;
  resolvedUri : string;
  bandwidth : Js.number;
  averageBandwidth : option Js.number;
  score : option Js.number;
  codecs : list string;
  supplementalCodecs : list string;
  resolution : option Resolution.t;
  hdcpLevel : option string;
  allowedCpc : Js.Keyed (list string);
  videoRange : option string;
  stableVariantId : option string;
  video : option string;
  pathwayId : option string
}.

Definition set_uri (v : string) (r : t) : t :=
  mk v (r.(resolvedUri)) (r.(bandwidth)) (r.(averageBandwidth)) (r.(score))
    (r.(codecs)) (r.(supplementalCodecs)) (r.(resolution)) (r.(hdcpLevel))
    (r.(allowedCpc)) (r.(videoRange)) (r.(stableVariantId)) (r.(video))
    (r.(pathwayId)).

Definition set_resolvedUri (v : string) (r : t) : t :=
  mk (r.(uri)) v (r.(bandwidth)) (r.(averageBandwidth)) (r.(score))
    (r.(codecs)) (r.(supplementalCodecs)) (r.(resolution)) (r.(hdcpLevel))
    (r.(allowedCpc)) (r.(videoRange)) (r.(stableVariantId)) (r.(video))
    (r.(pathwayId)).

End BaseStreamInf.

Module VariantStream.

(** [{ ...parseCommonAttributes(..), frameRate, audio, subtitles, closedCaptions }]: the spread fields are kept together in [common]. *)
Record t : Type := mk {
  common : BaseStreamInf.t;
  frameRate : option Js.number;
  audio : option string;
  subtitles : option string;
  closedCaptions : option string
}.

Definition set_common (v : BaseStreamInf.t) (r : t) : t :=
  mk v (r.(frameRate)) (r.(audio)) (r.(subtitles)) (r.(closedCaptions)).

End VariantStream.

Module Rendition.

Record t : Type := mk {
  uri : option string;
  resolvedUri : option string;
  type : option string;
  groupId : option string;
  name : option string;
  language : option string;
  assocLanguage : option string;
  default : bool;
  autoSelect : bool;
  forced : bool;
  inStreamId : option string;
  characteristics : list string;
  channels : list string;
  stableRenditionId : option string
}.

End Rendition.

Module RenditionGroups.

Record t : Type := mk {
  audio : Js.Dict (list Rendition.t);
  video : Js.Dict (list Rendition.t);
  subtitles : Js.Dict (list Rendition.t);
  closedCaptions : Js.Dict (list Rendition.t)
}.

Definition set_audio (v : Js.Dict (list Rendition.t)) (r : t) : t :=
  mk v (r.(video)) (r.(subtitles)) (r.(closedCaptions)).

Definition set_video (v : Js.Dict (list Rendition.t)) (r : t) : t :=
  mk (r.(audio)) v (r.(subtitles)) (r.(closedCaptions)).

Definition set_subtitles (v : Js.Dict (list Rendition.t)) (r : t) : t :=
  mk (r.(audio)) (r.(video)) v (r.(closedCaptions)).

Definition set_closedCaptions (v : Js.Dict (list Rendition.t)) (r : t) : t :=
  mk (r.(audio)) (r.(video)) (r.(subtitles)) v.

End RenditionGroups.

Module DateRange.

Record t : Type := mk {
  id : option string;
  class : option string;
  startDate : Js.number;
  cues : list string;
  endDate : option string;
  duration : option Js.number;
  plannedDuration : option Js.number;
  scte35Cmd : option (list N);
  scte35Out : option (list N);
  scte35In : option (list N);
  endOnNext : bool;
  clientAttributes : Js.Dict string
}.

End DateRange.

Module PreloadHint.

Record t : Type := mk {
  uri : string;
  resolvedUri : string;
  byteRange : option ByteRange.t
}.

End PreloadHint.

Module PreloadHints.

Record t : Type := mk {
  part : option PreloadHint.t;
  map : option PreloadHint.t
}.

Definition set_part (v : option PreloadHint.t) (r : t) : t :=
  mk v (r.(map)).

Definition set_map (v : option PreloadHint.t) (r : t) : t :=
  mk (r.(part)) v.

End PreloadHints.

Module RenditionReport.

Record t : Type := mk {
  uri : string;
  resolvedUri : string;
  lastMsn : option Js.number;
  lastPart : option Js.number
}.

End RenditionReport.

Module SessionData.

Record t : Type := mk {
  uri : option string;
  resolvedUri : option string;
  dataId : option string;
  value : option string;
  format : option string;
  language : option string
}.

End SessionData.

Module ContentSteering.

Record t : Type := mk {
  serverUri : string;
  resolvedServerUri : string;
  pathwayId : option string
}.

End ContentSteering.

Module Skip.

Record t : Type := mk {
  skippedSegments : Js.number;
  recentlyRemovedDateRanges : list string
}.

End Skip.

Module Start.

Record t : Type := mk {
  timeOffset : Js.number;
  precise : bool
}.

End Start.

Module PartInf.

Record t : Type := mk {
  partTarget : Js.number
}.

End PartInf.

Module ServerControl.

Record t : Type := mk {
  canSkipUntil : option Js.number;
  canBlockReload : bool;
  canSkipDateRanges : bool;
  holdBack : option Js.number;
  partHoldBack : option Js.number
}.

End ServerControl.

Module Define.

(** A value of [define.import]: a string, [null], or, for a variable whose
    name is a member of [Object.prototype], that member (a function, and for
    [__proto__] the prototype itself), which is what the read of an absent
    entry of the base definitions finds. *)
Inductive Imported : Type :=
| Text (s : string)
| Null
| Member.

Definition kindOfImported (v : Imported) : Js.Kind :=
  match v with
  | Text _ => Js.Primitive
  | Null => Js.NullValue
  | Member => Js.PrototypeValue
  end.

(** A value of [define.name] is a string or [undefined]. *)
Definition kindOfName (v : option string) : Js.Kind := Js.Primitive.

(** A value of [define.queryParam] is a string or [null]. *)
Definition kindOfQueryParam (v : option string) : Js.Kind :=
  match v with
  | Some _ => Js.Primitive
  | None => Js.NullValue
  end.

(** [{ name, import, queryParam }], three plain objects; [None] is
    [undefined] in [name] and [null] in [queryParam]. *)
Record t : Type := mk {
  name : Js.Object (option string);
  import : Js.Object Imported;
  queryParam : Js.Object (option string)
}.

Definition set_name (v : Js.Object (option string)) (r : t) : t :=
  mk v (r.(import)) (r.(queryParam)).

Definition set_import (v : Js.Object Imported) (r : t) : t :=
  mk (r.(name)) v (r.(queryParam)).

Definition set_queryParam (v : Js.Object (option string)) (r : t) : t :=
  mk (r.(name)) (r.(import)) v.

End Define.
Module ParsedPlaylist.

(** The playlist under construction. *)
Record t : Type := mk {
  m3u : bool;
  version : option Z;
  independentSegments : bool;
  endList : bool;
  iFramesOnly : bool;
  playlistType : option string;
  targetDuration : option Z;
  mediaSequence : float;
  discontinuitySequence : float;
  start : option Start.t;
  partInf : option PartInf.t;
  serverControl : option ServerControl.t;
  skip : option Skip.t;
  preloadHints : PreloadHints.t;
  renditionReports : list RenditionReport.t;
  define : Define.t;
  sessionKey : option Encryption.t;
  sessionData : Js.Keyed SessionData.t;
  contentSteering : option ContentSteering.t;
  segments : list Segment.t;
  dateRanges : list DateRange.t;
  variantStreams : list VariantStream.t;
  iFramePlaylists : list BaseStreamInf.t;
  renditionGroups : RenditionGroups.t;
  custom : Js.Dict string
}.

Definition set_m3u (v : bool) (r : t) : t :=
  mk v (r.(version)) (r.(independentSegments)) (r.(endList))
    (r.(iFramesOnly)) (r.(playlistType)) (r.(targetDuration))
    (r.(mediaSequence)) (r.(discontinuitySequence)) (r.(start))
    (r.(partInf)) (r.(serverControl)) (r.(skip)) (r.(preloadHints))
    (r.(renditionReports)) (r.(define)) (r.(sessionKey)) (r.(sessionData))
    (r.(contentSteering)) (r.(segments)) (r.(dateRanges))
    (r.(variantStreams)) (r.(iFramePlaylists)) (r.(renditionGroups))
    (r.(custom)).

Definition set_version (v : option Z) (r : t) : t :=
  mk (r.(m3u)) v (r.(independentSegments)) (r.(endList)) (r.(iFramesOnly))
    (r.(playlistType)) (r.(targetDuration)) (r.(mediaSequence))
    (r.(discontinuitySequence)) (r.(start)) (r.(partInf))
    (r.(serverControl)) (r.(skip)) (r.(preloadHints)) (r.(renditionReports))
    (r.(define)) (r.(sessionKey)) (r.(sessionData)) (r.(contentSteering))
    (r.(segments)) (r.(dateRanges)) (r.(variantStreams))
    (r.(iFramePlaylists)) (r.(renditionGroups)) (r.(custom)).

Definition set_independentSegments (v : bool) (r : t) : t :=
  mk (r.(m3u)) (r.(version)) v (r.(endList)) (r.(iFramesOnly))
    (r.(playlistType)) (r.(targetDuration)) (r.(mediaSequence))
    (r.(discontinuitySequence)) (r.(start)) (r.(partInf))
    (r.(serverControl)) (r.(skip)) (r.(preloadHints)) (r.(renditionReports))
    (r.(define)) (r.(sessionKey)) (r.(sessionData)) (r.(contentSteering))
    (r.(segments)) (r.(dateRanges)) (r.(variantStreams))
    (r.(iFramePlaylists)) (r.(renditionGroups)) (r.(custom)).

Definition set_endList (v : bool) (r : t) : t :=
  mk (r.(m3u)) (r.(version)) (r.(independentSegments)) v (r.(iFramesOnly))
    (r.(playlistType)) (r.(targetDuration)) (r.(mediaSequence))
    (r.(discontinuitySequence)) (r.(start)) (r.(partInf))
    (r.(serverControl)) (r.(skip)) (r.(preloadHints)) (r.(renditionReports))
    (r.(define)) (r.(sessionKey)) (r.(sessionData)) (r.(contentSteering))
    (r.(segments)) (r.(dateRanges)) (r.(variantStreams))
    (r.(iFramePlaylists)) (r.(renditionGroups)) (r.(custom)).

Definition set_iFramesOnly (v : bool) (r : t) : t :=
  mk (r.(m3u)) (r.(version)) (r.(independentSegments)) (r.(endList)) v
    (r.(playlistType)) (r.(targetDuration)) (r.(mediaSequence))
    (r.(discontinuitySequence)) (r.(start)) (r.(partInf))
    (r.(serverControl)) (r.(skip)) (r.(preloadHints)) (r.(renditionReports))
    (r.(define)) (r.(sessionKey)) (r.(sessionData)) (r.(contentSteering))
    (r.(segments)) (r.(dateRanges)) (r.(variantStreams))
    (r.(iFramePlaylists)) (r.(renditionGroups)) (r.(custom)).

Definition set_playlistType (v : option string) (r : t) : t :=
  mk (r.(m3u)) (r.(version)) (r.(independentSegments)) (r.(endList))
    (r.(iFramesOnly)) v (r.(targetDuration)) (r.(mediaSequence))
    (r.(discontinuitySequence)) (r.(start)) (r.(partInf))
    (r.(serverControl)) (r.(skip)) (r.(preloadHints)) (r.(renditionReports))
    (r.(define)) (r.(sessionKey)) (r.(sessionData)) (r.(contentSteering))
    (r.(segments)) (r.(dateRanges)) (r.(variantStreams))
    (r.(iFramePlaylists)) (r.(renditionGroups)) (r.(custom)).

Definition set_targetDuration (v : option Z) (r : t) : t :=
  mk (r.(m3u)) (r.(version)) (r.(independentSegments)) (r.(endList))
    (r.(iFramesOnly)) (r.(playlistType)) v (r.(mediaSequence))
    (r.(discontinuitySequence)) (r.(start)) (r.(partInf))
    (r.(serverControl)) (r.(skip)) (r.(preloadHints)) (r.(renditionReports))
    (r.(define)) (r.(sessionKey)) (r.(sessionData)) (r.(contentSteering))
    (r.(segments)) (r.(dateRanges)) (r.(variantStreams))
    (r.(iFramePlaylists)) (r.(renditionGroups)) (r.(custom)).

Definition set_mediaSequence (v : float) (r : t) : t :=
  mk (r.(m3u)) (r.(version)) (r.(independentSegments)) (r.(endList))
    (r.(iFramesOnly)) (r.(playlistType)) (r.(targetDuration)) v
    (r.(discontinuitySequence)) (r.(start)) (r.(partInf))
    (r.(serverControl)) (r.(skip)) (r.(preloadHints)) (r.(renditionReports))
    (r.(define)) (r.(sessionKey)) (r.(sessionData)) (r.(contentSteering))
    (r.(segments)) (r.(dateRanges)) (r.(variantStreams))
    (r.(iFramePlaylists)) (r.(renditionGroups)) (r.(custom)).

Definition set_discontinuitySequence (v : float) (r : t) : t :=
  mk (r.(m3u)) (r.(version)) (r.(independentSegments)) (r.(endList))
    (r.(iFramesOnly)) (r.(playlistType)) (r.(targetDuration))
    (r.(mediaSequence)) v (r.(start)) (r.(partInf)) (r.(serverControl))
    (r.(skip)) (r.(preloadHints)) (r.(renditionReports)) (r.(define))
    (r.(sessionKey)) (r.(sessionData)) (r.(contentSteering)) (r.(segments))
    (r.(dateRanges)) (r.(variantStreams)) (r.(iFramePlaylists))
    (r.(renditionGroups)) (r.(custom)).

Definition set_start (v : option Start.t) (r : t) : t :=
  mk (r.(m3u)) (r.(version)) (r.(independentSegments)) (r.(endList))
    (r.(iFramesOnly)) (r.(playlistType)) (r.(targetDuration))
    (r.(mediaSequence)) (r.(discontinuitySequence)) v (r.(partInf))
    (r.(serverControl)) (r.(skip)) (r.(preloadHints)) (r.(renditionReports))
    (r.(define)) (r.(sessionKey)) (r.(sessionData)) (r.(contentSteering))
    (r.(segments)) (r.(dateRanges)) (r.(variantStreams))
    (r.(iFramePlaylists)) (r.(renditionGroups)) (r.(custom)).

Definition set_partInf (v : option PartInf.t) (r : t) : t :=
  mk (r.(m3u)) (r.(version)) (r.(independentSegments)) (r.(endList))
    (r.(iFramesOnly)) (r.(playlistType)) (r.(targetDuration))
    (r.(mediaSequence)) (r.(discontinuitySequence)) (r.(start)) v
    (r.(serverControl)) (r.(skip)) (r.(preloadHints)) (r.(renditionReports))
    (r.(define)) (r.(sessionKey)) (r.(sessionData)) (r.(contentSteering))
    (r.(segments)) (r.(dateRanges)) (r.(variantStreams))
    (r.(iFramePlaylists)) (r.(renditionGroups)) (r.(custom)).

Definition set_serverControl (v : option ServerControl.t) (r : t) : t :=
  mk (r.(m3u)) (r.(version)) (r.(independentSegments)) (r.(endList))
    (r.(iFramesOnly)) (r.(playlistType)) (r.(targetDuration))
    (r.(mediaSequence)) (r.(discontinuitySequence)) (r.(start))
    (r.(partInf)) v (r.(skip)) (r.(preloadHints)) (r.(renditionReports))
    (r.(define)) (r.(sessionKey)) (r.(sessionData)) (r.(contentSteering))
    (r.(segments)) (r.(dateRanges)) (r.(variantStreams))
    (r.(iFramePlaylists)) (r.(renditionGroups)) (r.(custom)).

Definition set_skip (v : option Skip.t) (r : t) : t :=
  mk (r.(m3u)) (r.(version)) (r.(independentSegments)) (r.(endList))
    (r.(iFramesOnly)) (r.(playlistType)) (r.(targetDuration))
    (r.(mediaSequence)) (r.(discontinuitySequence)) (r.(start))
    (r.(partInf)) (r.(serverControl)) v (r.(preloadHints))
    (r.(renditionReports)) (r.(define)) (r.(sessionKey)) (r.(sessionData))
    (r.(contentSteering)) (r.(segments)) (r.(dateRanges))
    (r.(variantStreams)) (r.(iFramePlaylists)) (r.(renditionGroups))
    (r.(custom)).

Definition set_preloadHints (v : PreloadHints.t) (r : t) : t :=
  mk (r.(m3u)) (r.(version)) (r.(independentSegments)) (r.(endList))
    (r.(iFramesOnly)) (r.(playlistType)) (r.(targetDuration))
    (r.(mediaSequence)) (r.(discontinuitySequence)) (r.(start))
    (r.(partInf)) (r.(serverControl)) (r.(skip)) v (r.(renditionReports))
    (r.(define)) (r.(sessionKey)) (r.(sessionData)) (r.(contentSteering))
    (r.(segments)) (r.(dateRanges)) (r.(variantStreams))
    (r.(iFramePlaylists)) (r.(renditionGroups)) (r.(custom)).

Definition set_renditionReports (v : list RenditionReport.t) (r : t) : t :=
  mk (r.(m3u)) (r.(version)) (r.(independentSegments)) (r.(endList))
    (r.(iFramesOnly)) (r.(playlistType)) (r.(targetDuration))
    (r.(mediaSequence)) (r.(discontinuitySequence)) (r.(start))
    (r.(partInf)) (r.(serverControl)) (r.(skip)) (r.(preloadHints)) v
    (r.(define)) (r.(sessionKey)) (r.(sessionData)) (r.(contentSteering))
    (r.(segments)) (r.(dateRanges)) (r.(variantStreams))
    (r.(iFramePlaylists)) (r.(renditionGroups)) (r.(custom)).

Definition set_define (v : Define.t) (r : t) : t :=
  mk (r.(m3u)) (r.(version)) (r.(independentSegments)) (r.(endList))
    (r.(iFramesOnly)) (r.(playlistType)) (r.(targetDuration))
    (r.(mediaSequence)) (r.(discontinuitySequence)) (r.(start))
    (r.(partInf)) (r.(serverControl)) (r.(skip)) (r.(preloadHints))
    (r.(renditionReports)) v (r.(sessionKey)) (r.(sessionData))
    (r.(contentSteering)) (r.(segments)) (r.(dateRanges))
    (r.(variantStreams)) (r.(iFramePlaylists)) (r.(renditionGroups))
    (r.(custom)).

Definition set_sessionKey (v : option Encryption.t) (r : t) : t :=
  mk (r.(m3u)) (r.(version)) (r.(independentSegments)) (r.(endList))
    (r.(iFramesOnly)) (r.(playlistType)) (r.(targetDuration))
    (r.(mediaSequence)) (r.(discontinuitySequence)) (r.(start))
    (r.(partInf)) (r.(serverControl)) (r.(skip)) (r.(preloadHints))
    (r.(renditionReports)) (r.(define)) v (r.(sessionData))
    (r.(contentSteering)) (r.(segments)) (r.(dateRanges))
    (r.(variantStreams)) (r.(iFramePlaylists)) (r.(renditionGroups))
    (r.(custom)).

Definition set_sessionData (v : Js.Keyed SessionData.t) (r : t) : t :=
  mk (r.(m3u)) (r.(version)) (r.(independentSegments)) (r.(endList))
    (r.(iFramesOnly)) (r.(playlistType)) (r.(targetDuration))
    (r.(mediaSequence)) (r.(discontinuitySequence)) (r.(start))
    (r.(partInf)) (r.(serverControl)) (r.(skip)) (r.(preloadHints))
    (r.(renditionReports)) (r.(define)) (r.(sessionKey)) v
    (r.(contentSteering)) (r.(segments)) (r.(dateRanges))
    (r.(variantStreams)) (r.(iFramePlaylists)) (r.(renditionGroups))
    (r.(custom)).

Definition set_contentSteering (v : option ContentSteering.t) (r : t) : t :=
  mk (r.(m3u)) (r.(version)) (r.(independentSegments)) (r.(endList))
    (r.(iFramesOnly)) (r.(playlistType)) (r.(targetDuration))
    (r.(mediaSequence)) (r.(discontinuitySequence)) (r.(start))
    (r.(partInf)) (r.(serverControl)) (r.(skip)) (r.(preloadHints))
    (r.(renditionReports)) (r.(define)) (r.(sessionKey)) (r.(sessionData)) v
    (r.(segments)) (r.(dateRanges)) (r.(variantStreams))
    (r.(iFramePlaylists)) (r.(renditionGroups)) (r.(custom)).

Definition set_segments (v : list Segment.t) (r : t) : t :=
  mk (r.(m3u)) (r.(version)) (r.(independentSegments)) (r.(endList))
    (r.(iFramesOnly)) (r.(playlistType)) (r.(targetDuration))
    (r.(mediaSequence)) (r.(discontinuitySequence)) (r.(start))
    (r.(partInf)) (r.(serverControl)) (r.(skip)) (r.(preloadHints))
    (r.(renditionReports)) (r.(define)) (r.(sessionKey)) (r.(sessionData))
    (r.(contentSteering)) v (r.(dateRanges)) (r.(variantStreams))
    (r.(iFramePlaylists)) (r.(renditionGroups)) (r.(custom)).

Definition set_dateRanges (v : list DateRange.t) (r : t) : t :=
  mk (r.(m3u)) (r.(version)) (r.(independentSegments)) (r.(endList))
    (r.(iFramesOnly)) (r.(playlistType)) (r.(targetDuration))
    (r.(mediaSequence)) (r.(discontinuitySequence)) (r.(start))
    (r.(partInf)) (r.(serverControl)) (r.(skip)) (r.(preloadHints))
    (r.(renditionReports)) (r.(define)) (r.(sessionKey)) (r.(sessionData))
    (r.(contentSteering)) (r.(segments)) v (r.(variantStreams))
    (r.(iFramePlaylists)) (r.(renditionGroups)) (r.(custom)).

Definition set_variantStreams (v : list VariantStream.t) (r : t) : t :=
  mk (r.(m3u)) (r.(version)) (r.(independentSegments)) (r.(endList))
    (r.(iFramesOnly)) (r.(playlistType)) (r.(targetDuration))
    (r.(mediaSequence)) (r.(discontinuitySequence)) (r.(start))
    (r.(partInf)) (r.(serverControl)) (r.(skip)) (r.(preloadHints))
    (r.(renditionReports)) (r.(define)) (r.(sessionKey)) (r.(sessionData))
    (r.(contentSteering)) (r.(segments)) (r.(dateRanges)) v
    (r.(iFramePlaylists)) (r.(renditionGroups)) (r.(custom)).

Definition set_iFramePlaylists (v : list BaseStreamInf.t) (r : t) : t :=
  mk (r.(m3u)) (r.(version)) (r.(independentSegments)) (r.(endList))
    (r.(iFramesOnly)) (r.(playlistType)) (r.(targetDuration))
    (r.(mediaSequence)) (r.(discontinuitySequence)) (r.(start))
    (r.(partInf)) (r.(serverControl)) (r.(skip)) (r.(preloadHints))
    (r.(renditionReports)) (r.(define)) (r.(sessionKey)) (r.(sessionData))
    (r.(contentSteering)) (r.(segments)) (r.(dateRanges))
    (r.(variantStreams)) v (r.(renditionGroups)) (r.(custom)).

Definition set_renditionGroups (v : RenditionGroups.t) (r : t) : t :=
  mk (r.(m3u)) (r.(version)) (r.(independentSegments)) (r.(endList))
    (r.(iFramesOnly)) (r.(playlistType)) (r.(targetDuration))
    (r.(mediaSequence)) (r.(discontinuitySequence)) (r.(start))
    (r.(partInf)) (r.(serverControl)) (r.(skip)) (r.(preloadHints))
    (r.(renditionReports)) (r.(define)) (r.(sessionKey)) (r.(sessionData))
    (r.(contentSteering)) (r.(segments)) (r.(dateRanges))
    (r.(variantStreams)) (r.(iFramePlaylists)) v (r.(custom)).

Definition set_custom (v : Js.Dict string) (r : t) : t :=
  mk (r.(m3u)) (r.(version)) (r.(independentSegments)) (r.(endList))
    (r.(iFramesOnly)) (r.(playlistType)) (r.(targetDuration))
    (r.(mediaSequence)) (r.(discontinuitySequence)) (r.(start))
    (r.(partInf)) (r.(serverControl)) (r.(skip)) (r.(preloadHints))
    (r.(renditionReports)) (r.(define)) (r.(sessionKey)) (r.(sessionData))
    (r.(contentSteering)) (r.(segments)) (r.(dateRanges))
    (r.(variantStreams)) (r.(iFramePlaylists)) (r.(renditionGroups)) v.

End ParsedPlaylist.

Module SharedState.

(** The transient working set of one parse. *)
Record t : Type := mk {
  currentSegment : Segment.t;
  currentVariant : VariantStream.t;
  currentEncryption : option Encryption.t;
  currentMap : option MediaInitializationSection.t;
  currentBitrate : option float;
  baseUrl : string;
  baseTime : Q;
  baseDefine : option Define.t;
  hasVariablesForSubstitution : bool;
  isMultivariantPlaylist : bool
}.

Definition set_currentSegment (v : Segment.t) (r : t) : t :=
  mk v (r.(currentVariant)) (r.(currentEncryption)) (r.(currentMap))
    (r.(currentBitrate)) (r.(baseUrl)) (r.(baseTime)) (r.(baseDefine))
    (r.(hasVariablesForSubstitution)) (r.(isMultivariantPlaylist)).

Definition set_currentVariant (v : VariantStream.t) (r : t) : t :=
  mk (r.(currentSegment)) v (r.(currentEncryption)) (r.(currentMap))
    (r.(currentBitrate)) (r.(baseUrl)) (r.(baseTime)) (r.(baseDefine))
    (r.(hasVariablesForSubstitution)) (r.(isMultivariantPlaylist)).

Definition set_currentEncryption (v : option Encryption.t) (r : t) : t :=
  mk (r.(currentSegment)) (r.(currentVariant)) v (r.(currentMap))
    (r.(currentBitrate)) (r.(baseUrl)) (r.(baseTime)) (r.(baseDefine))
    (r.(hasVariablesForSubstitution)) (r.(isMultivariantPlaylist)).

Definition set_currentMap (v : option MediaInitializationSection.t) (r : t) : t :=
  mk (r.(currentSegment)) (r.(currentVariant)) (r.(currentEncryption)) v
    (r.(currentBitrate)) (r.(baseUrl)) (r.(baseTime)) (r.(baseDefine))
    (r.(hasVariablesForSubstitution)) (r.(isMultivariantPlaylist)).

Definition set_currentBitrate (v : option float) (r : t) : t :=
  mk (r.(currentSegment)) (r.(currentVariant)) (r.(currentEncryption))
    (r.(currentMap)) v (r.(baseUrl)) (r.(baseTime)) (r.(baseDefine))
    (r.(hasVariablesForSubstitution)) (r.(isMultivariantPlaylist)).

Definition set_baseUrl (v : string) (r : t) : t :=
  mk (r.(currentSegment)) (r.(currentVariant)) (r.(currentEncryption))
    (r.(currentMap)) (r.(currentBitrate)) v (r.(baseTime)) (r.(baseDefine))
    (r.(hasVariablesForSubstitution)) (r.(isMultivariantPlaylist)).

Definition set_baseTime (v : Q) (r : t) : t :=
  mk (r.(currentSegment)) (r.(currentVariant)) (r.(currentEncryption))
    (r.(currentMap)) (r.(currentBitrate)) (r.(baseUrl)) v (r.(baseDefine))
    (r.(hasVariablesForSubstitution)) (r.(isMultivariantPlaylist)).

Definition set_baseDefine (v : option Define.t) (r : t) : t :=
  mk (r.(currentSegment)) (r.(currentVariant)) (r.(currentEncryption))
    (r.(currentMap)) (r.(currentBitrate)) (r.(baseUrl)) (r.(baseTime)) v
    (r.(hasVariablesForSubstitution)) (r.(isMultivariantPlaylist)).

Definition set_hasVariablesForSubstitution (v : bool) (r : t) : t :=
  mk (r.(currentSegment)) (r.(currentVariant)) (r.(currentEncryption))
    (r.(currentMap)) (r.(currentBitrate)) (r.(baseUrl)) (r.(baseTime))
    (r.(baseDefine)) v (r.(isMultivariantPlaylist)).

Definition set_isMultivariantPlaylist (v : bool) (r : t) : t :=
  mk (r.(currentSegment)) (r.(currentVariant)) (r.(currentEncryption))
    (r.(currentMap)) (r.(currentBitrate)) (r.(baseUrl)) (r.(baseTime))
    (r.(baseDefine)) (r.(hasVariablesForSubstitution)) v.

End SharedState.

(** ** Callbacks, outcomes and options *)

(** One call of [warnCallback] or of [debugCallback]. *)
Inductive Emitted : Type :=
| Warned (message : string)
| Debugged (tagKey : string) (tagValue : option string)
    (tagAttributes : Js.Dict string).

Inductive JsError : Type :=
| TypeError (message : string).

(** What a call does: it returns, having made the calls [out] to the
    callbacks, or it throws. *)
Inductive Outcome (A : Type) : Type :=
| Returned (a : A) (out : list Emitted)
| Threw (e : JsError).

Arguments Returned {A} a out.
Arguments Threw {A} e.

Definition andThen {A B} (x : Outcome A) (f : A -> Outcome B) : Outcome B :=
  match x with
  | Returned a out =>
      match f a with
      | Returned b out' => Returned b (out ++ out')
      | Threw e => Threw e
      end
  | Threw e => Threw e
  end.

Notation "x >>= f" := (andThen x f) (at level 50, left associativity).

(** [CustomTagMap] entries: the handler mutates [playlist.custom] and the
    shared state it is handed. *)
Definition CustomTagProcessor : Type :=
  string -> option string -> Js.Dict string -> Js.Dict string ->
  SharedState.t -> Js.Dict string * SharedState.t.

Definition TransformTagValue : Type := string -> option string -> option string.

Definition TransformTagAttributes : Type :=
  string -> Js.Dict string -> Js.Dict string.

Module ParserOptions.

(** [ParserOptions]; the two callbacks are the sinks of [Emitted]. *)
Record t : Type := mk {
  customTagMap : option (Js.Dict CustomTagProcessor);
  ignoreTags : option (list string);
  transformTagValue : option TransformTagValue;
  transformTagAttributes : option TransformTagAttributes
}.

Definition none : t := mk None None None None.

End ParserOptions.

Module ParseOptions.

Record t : Type := mk {
  baseUrl : string;
  baseDefine : option Define.t;
  baseTime : option Q
}.

End ParseOptions.

(** ** Helpers of the repository and of the platform that are not part of
    the embedded sources *)

(** [utils/parse.ts] ([resolveUri], [substituteVariables], [parseBoolean],
    [parseHex]) and the built-ins of the platform are taken as parameters:
    - [Number s] is [Number(s)] on a string;
    - [resolveUri uri baseUrl] is [None] for [null];
    - [substituteVariables s define] gives the substituted string and the
      variable names its third argument is called with, in call order;
    - [searchParam url q] is [new URL(url).searchParams.get(q)], [None] when
      the constructor throws or the parameter is absent;
    - [parseInteger], [parseFloat] and [parseDate] convert the value of a
      value tag, [None] when it cannot be parsed. *)
Record Platform : Type := {
  Number : string -> Js.number;
  parseBoolean : option string -> bool -> bool;
  parseHex : string -> list N;
  Date_parse : string -> Js.number;
  resolveUri : string -> string -> option string;
  substituteVariables : string -> Define.t -> string * list string;
  searchParam : string -> string -> option string;
  numberToString : Q -> string;
  parseInteger : string -> option Z;
  parseFloat : string -> option Q;
  parseDate : string -> option Q
}.

(** ** Defaults *)

(** Modelled from the spec: [consts/defaults.ts] is not among the sources.
    Section 3 gives the defaults: counters 0, flags false, sequences and
    mappings empty, optional fields unset. *)
Definition createDefaultSegment : Segment.t :=
  Segment.mk "" "" 0 "" None None false false None None [] None None 0 0 0 0.

(** Modelled from the spec: [consts/defaults.ts] is not among the sources;
    section 4.3.3 has the variant stream start from empty [uri] and
    [resolvedUri], the rest as for the segment. *)
Definition createDefaultVariantStream : VariantStream.t :=
  VariantStream.mk
    (BaseStreamInf.mk "" "" (Js.ofZ 0) None None [] [] None None Js.emptyKeyed
       None None None None)
    None None None None.

(** Modelled from the spec: [consts/defaults.ts] is not among the sources;
    section 3.1: [mediaSequence] and [discontinuitySequence] default to 0,
    the sequences and mappings are empty. *)
Definition createDefaultParsedPlaylist : ParsedPlaylist.t :=
  ParsedPlaylist.mk false None false false false None None 0 0 None None None
    None (PreloadHints.mk None None) []
    (Define.mk (Js.plain []) (Js.plain []) (Js.plain [])) None Js.emptyKeyed
    None [] [] [] [] (RenditionGroups.mk [] [] [] []) [].

(** Modelled from the spec: [consts/defaults.ts] is not among the sources;
    section 3.3: a default segment and variant under construction, nothing
    carried forward, both flags false. *)
Definition createDefaultSharedState : SharedState.t :=
  SharedState.mk createDefaultSegment createDefaultVariantStream None None
    None "" 0 None false false.

(** ** class Parser: fields and constructor *)

Module Parser.

(** The readonly fields set by the constructor from [ParserOptions] and the
    two mutable ones.  The three registries are the same for every instance
    and are the tables [emptyTagMap], [tagValueMap], [tagAttributesMap]
    below. *)
Record t : Type := mk {
  customTagMap : Js.Dict CustomTagProcessor;
  ignoreTags : list string;
  transformTagValue : TransformTagValue;
  transformTagAttributes : TransformTagAttributes;
  parsedPlaylist : ParsedPlaylist.t;
  sharedState : SharedState.t
}.

Definition set_parsedPlaylist (v : ParsedPlaylist.t) (r : t) : t :=
  mk (r.(customTagMap)) (r.(ignoreTags)) (r.(transformTagValue))
    (r.(transformTagAttributes)) v (r.(sharedState)).

Definition set_sharedState (v : SharedState.t) (r : t) : t :=
  mk (r.(customTagMap)) (r.(ignoreTags)) (r.(transformTagValue))
    (r.(transformTagAttributes)) (r.(parsedPlaylist)) v.

Definition constructor (options : ParserOptions.t) : t :=
  mk
    (match options.(ParserOptions.customTagMap) with
     | Some m => m
     | None => []
     end)
    (match options.(ParserOptions.ignoreTags) with
     | Some s => s
     | None => []
     end)
    (match options.(ParserOptions.transformTagValue) with
     | Some f => f
     | None => fun _ tagValue => tagValue
     end)
    (match options.(ParserOptions.transformTagAttributes) with
     | Some f => f
     | None => fun _ tagAttributes => tagAttributes
     end)
    createDefaultParsedPlaylist
    createDefaultSharedState.

End Parser.

(** ** Tag processors: common parts ([tags/base], and the abstract class
    [TagWithAttributesProcessor]) *)

(** A processor is handed the playlist and the shared state and mutates
    them: here it returns both. *)
Definition Processed : Type := Outcome (ParsedPlaylist.t * SharedState.t).

Definition StringMap : Type := Js.Dict string.

(** [Number(x)] where [x] may be [undefined]. *)
Definition NumberOf (pf : Platform) (x : option string) : Js.number :=
  match x with
  | Some s => Number pf s
  | None => Js.NaN
  end.

(** An attribute read as a string where the required-attribute check has
    established the key; [String(undefined)] otherwise. *)
Definition required (k : string) (tagAttributes : StringMap) : string :=
  match Js.get k tagAttributes with
  | Some s => s
  | None => "undefined"
  end.

(** [xs[i]] of an array of numbers in arithmetic: [undefined] acts as [NaN]. *)
Definition numberAt (xs : list Js.number) (i : nat) : Js.number :=
  nth i xs Js.NaN.

Module TagWithAttributesProcessor.

Record t : Type := mk {
  tag : string;
  requiredAttributes : list string;
  safeProcess : StringMap -> ParsedPlaylist.t -> SharedState.t -> Processed
}.

(** The [forEach] over the set of required attributes, in insertion order;
    the first component is [isRequiredAttributedMissed]. *)
Fixpoint checkRequiredAttributesFrom (tag : string) (required : list string)
    (tagAttributes : StringMap) (isRequiredAttributedMissed : bool)
    : bool * list Emitted :=
  match required with
  | [] => (isRequiredAttributedMissed, [])
  | requiredAttribute :: rest =>
      let hasRequiredAttribute := Js.has requiredAttribute tagAttributes in
      if negb hasRequiredAttribute then
        let (missed, out) :=
          checkRequiredAttributesFrom tag rest tagAttributes true in
        (missed,
         Warned (Warn.missingRequiredAttributeWarn tag requiredAttribute) :: out)
      else checkRequiredAttributesFrom tag rest tagAttributes
             isRequiredAttributedMissed
  end.

Definition checkRequiredAttributes (P : t) (tagAttributes : StringMap)
    : bool * list Emitted :=
  checkRequiredAttributesFrom P.(tag) P.(requiredAttributes) tagAttributes false.

(** The [for .. in] loop of [runVariableSubstitution]: every value is
    replaced, one warning per missing variable. *)
Fixpoint substituteAll (pf : Platform) (tag : string) (define : Define.t)
    (entries : StringMap) : StringMap * list Emitted :=
  match entries with
  | [] => ([], [])
  | (attributeKey, attributeValue) :: rest =>
      let (value, missing) := substituteVariables pf attributeValue define in
      let (rest', out) := substituteAll pf tag define rest in
      ((attributeKey, value) :: rest',
       (List.map
          (fun variableName =>
             Warned
               (Warn.missingRequiredVariableForAttributeValueSubstitutionWarn
                  tag attributeKey variableName))
          missing ++ out)%list)
  end.

Definition runVariableSubstitution (pf : Platform) (P : t)
    (tagAttributes : StringMap) (playlist : ParsedPlaylist.t)
    (sharedState : SharedState.t) : StringMap * list Emitted :=
  if negb sharedState.(SharedState.hasVariablesForSubstitution) then
    (tagAttributes, [])
  else
    substituteAll pf P.(tag) playlist.(ParsedPlaylist.define) tagAttributes.

Definition process (pf : Platform) (P : t) (tagAttributes : StringMap)
    (playlist : ParsedPlaylist.t) (sharedState : SharedState.t) : Processed :=
  let (missed, out) := checkRequiredAttributes P tagAttributes in
  if missed then Returned (playlist, sharedState) out
  else
    let (substituted, out') :=
      runVariableSubstitution pf P tagAttributes playlist sharedState in
    Returned tt (out ++ out') >>= fun _ =>
    P.(safeProcess) substituted playlist sharedState.

Definition resolveUriAttribute (pf : Platform) (tag uri baseUrl
    attributeKey : string) : string * list Emitted :=
  match resolveUri pf uri baseUrl with
  | Some resolved => (resolved, [])
  | None =>
      (uri,
       [Warned (Warn.failedToResolveUriAttribute tag attributeKey uri baseUrl)])
  end.

End TagWithAttributesProcessor.

(** ** The attribute-tag processors ([tags/tagWithAttributesProcessors.ts]) *)

Module ExtXStart.

Definition TIME_OFFSET := "TIME-OFFSET".
Definition PRECISE := "PRECISE".
(** Modelled from the spec: [EXT_X_START] of [consts/tags.ts], which is not among
    the sources; the name is that of section 6.1. *)
Definition tag := "EXT-X-START".

Definition safeProcess (pf : Platform) (tagAttributes : StringMap)
    (playlist : ParsedPlaylist.t) (sharedState : SharedState.t) : Processed :=
  Returned
    (ParsedPlaylist.set_start
       (Some
          (Start.mk (NumberOf pf (Js.get TIME_OFFSET tagAttributes))
             (parseBoolean pf (Js.get PRECISE tagAttributes) false)))
       playlist,
     sharedState) [].

Definition processor (pf : Platform) : TagWithAttributesProcessor.t :=
  TagWithAttributesProcessor.mk tag [TIME_OFFSET] (safeProcess pf).

End ExtXStart.

Module ExtXPartInf.

Definition PART_TARGET := "PART-TARGET".
(** Modelled from the spec: [EXT_X_PART_INF] of [consts/tags.ts], which is not among
    the sources; the name is that of section 6.1. *)
Definition tag := "EXT-X-PART-INF".

Definition safeProcess (pf : Platform) (tagAttributes : StringMap)
    (playlist : ParsedPlaylist.t) (sharedState : SharedState.t) : Processed :=
  Returned
    (ParsedPlaylist.set_partInf
       (Some (PartInf.mk (NumberOf pf (Js.get PART_TARGET tagAttributes))))
       playlist,
     sharedState) [].

Definition processor (pf : Platform) : TagWithAttributesProcessor.t :=
  TagWithAttributesProcessor.mk tag [PART_TARGET] (safeProcess pf).

End ExtXPartInf.

Module ExtXServerControl.

Definition HOLD_BACK := "HOLD-BACK".
Definition CAN_SKIP_UNTIL := "CAN-SKIP-UNTIL".
Definition PART_HOLD_BACK := "PART-HOLD-BACK".
Definition CAN_BLOCK_RELOAD := "CAN-BLOCK-RELOAD".
Definition CAN_SKIP_DATERANGES := "CAN-SKIP-DATERANGES".
(** Modelled from the spec: [EXT_X_SERVER_CONTROL] of [consts/tags.ts], which is not among
    the sources; the name is that of section 6.1. *)
Definition tag := "EXT-X-SERVER-CONTROL".

Definition safeProcess (pf : Platform) (tagAttributes : StringMap)
    (playlist : ParsedPlaylist.t) (sharedState : SharedState.t) : Processed :=
  let holdBack :=
    if Js.truthy (Js.get HOLD_BACK tagAttributes) then
      Some (NumberOf pf (Js.get HOLD_BACK tagAttributes))
    else
      match playlist.(ParsedPlaylist.targetDuration) with
      | Some targetDuration =>
          if Js.truthyZ (Some targetDuration)
          then Some (Js.ofZ (targetDuration * 3))
          else None
      | None => None
      end in
  let partHoldBack :=
    if Js.truthy (Js.get PART_HOLD_BACK tagAttributes) then
      Some (NumberOf pf (Js.get PART_HOLD_BACK tagAttributes))
    else
      match playlist.(ParsedPlaylist.partInf) with
      | Some partInf =>
          if Js.truthyNum partInf.(PartInf.partTarget)
          then Some (Js.mul partInf.(PartInf.partTarget) (Js.ofZ 3))
          else None
      | None => None
      end in
  Returned
    (ParsedPlaylist.set_serverControl
       (Some
          (ServerControl.mk
             (if Js.truthy (Js.get CAN_SKIP_UNTIL tagAttributes)
              then Some (NumberOf pf (Js.get CAN_SKIP_UNTIL tagAttributes))
              else None)
             (parseBoolean pf (Js.get CAN_BLOCK_RELOAD tagAttributes) false)
             (parseBoolean pf (Js.get CAN_SKIP_DATERANGES tagAttributes) false)
             holdBack partHoldBack))
       playlist,
     sharedState) [].

Definition processor (pf : Platform) : TagWithAttributesProcessor.t :=
  TagWithAttributesProcessor.mk tag [] (safeProcess pf).

End ExtXServerControl.

Module EncryptionTagProcessor.

Definition METHOD := "METHOD".
Definition URI := "URI".
Definition IV := "IV".
Definition KEYFORMAT := "KEYFORMAT".
Definition KEYFORMATVERSIONS := "KEYFORMATVERSIONS".
Definition requiredAttributes := [METHOD].

Definition parseEncryptionTag (pf : Platform) (tag : string)
    (tagAttributes : StringMap) (sharedState : SharedState.t)
    : Encryption.t * list Emitted :=
  let uri := Js.get URI tagAttributes in
  let (resolvedUri, out) :=
    match uri with
    | Some u =>
        if Js.truthy uri then
          let (r, out) :=
            TagWithAttributesProcessor.resolveUriAttribute pf tag u
              sharedState.(SharedState.baseUrl) URI in
          (Some r, out)
        else (None, [])
    | None => (None, [])
    end in
  (Encryption.mk (Js.get METHOD tagAttributes) uri resolvedUri
     (Js.get IV tagAttributes)
     (match Js.get KEYFORMAT tagAttributes with
      | Some k => if Js.truthy (Some k) then k else "identity"
      | None => "identity"
      end)
     (match Js.get KEYFORMATVERSIONS tagAttributes with
      | Some v =>
          if Js.truthy (Some v)
          then List.map (Number pf) (Js.split "/" v)
          else [Js.ofZ 1]
      | None => [Js.ofZ 1]
      end),
   out).

End EncryptionTagProcessor.

Module ExtXKey.

(** Modelled from the spec: [EXT_X_KEY] of [consts/tags.ts], which is not among
    the sources; the name is that of section 6.1. *)
Definition tag := "EXT-X-KEY".

Definition isNot (expected : string) (x : option string) : bool :=
  match x with
  | Some s => negb (String.eqb s expected)
  | None => true
  end.

Definition safeProcess (pf : Platform) (tagAttributes : StringMap)
    (playlist : ParsedPlaylist.t) (sharedState : SharedState.t) : Processed :=
  let (encryption, out) :=
    EncryptionTagProcessor.parseEncryptionTag pf tag tagAttributes sharedState in
  if (isNot "NONE" encryption.(Encryption.method)
      && negb (Js.truthy encryption.(Encryption.uri)))%bool
  then
    Returned (playlist, sharedState)
      (out ++
       [Warned
          (Warn.missingRequiredAttributeWarn tag EncryptionTagProcessor.URI)])
  else
    Returned
      (playlist, SharedState.set_currentEncryption (Some encryption) sharedState)
      out.

Definition processor (pf : Platform) : TagWithAttributesProcessor.t :=
  TagWithAttributesProcessor.mk tag EncryptionTagProcessor.requiredAttributes
    (safeProcess pf).

End ExtXKey.

Module ExtXMap.

Definition URI := "URI".
Definition BYTERANGE := "BYTERANGE".
(** Modelled from the spec: [EXT_X_MAP] of [consts/tags.ts], which is not among
    the sources; the name is that of section 6.1. *)
Definition tag := "EXT-X-MAP".

Definition safeProcess (pf : Platform) (tagAttributes : StringMap)
    (playlist : ParsedPlaylist.t) (sharedState : SharedState.t) : Processed :=
  let byteRange :=
    match Js.get BYTERANGE tagAttributes with
    | Some value =>
        if Js.truthy (Some value) then
          let numbers := List.map (Number pf) (Js.split "@" value) in
          let length := numberAt numbers 0 in
          let offset := numberAt numbers 1 in
          Some
            (ByteRange.mk offset (Js.sub (Js.add offset length) (Js.ofZ 1)))
        else None
    | None => None
    end in
  let uri := required URI tagAttributes in
  let (resolvedUri, out) :=
    TagWithAttributesProcessor.resolveUriAttribute pf tag uri
      sharedState.(SharedState.baseUrl) URI in
  Returned
    (playlist,
     SharedState.set_currentMap
       (Some
          (MediaInitializationSection.mk uri resolvedUri byteRange
             sharedState.(SharedState.currentEncryption)))
       sharedState)
    out.

Definition processor (pf : Platform) : TagWithAttributesProcessor.t :=
  TagWithAttributesProcessor.mk tag [URI] (safeProcess pf).

End ExtXMap.

Module ExtXPart.

Definition URI := "URI".
Definition DURATION := "DURATION".
Definition INDEPENDENT := "INDEPENDENT".
Definition BYTERANGE := "BYTERANGE".
Definition GAP := "GAP".
(** Modelled from the spec: [EXT_X_PART] of [consts/tags.ts], which is not among
    the sources; the name is that of section 6.1. *)
Definition tag := "EXT-X-PART".

Definition byteRangeWithoutOffsetWarn : string :=
  "Unable to parse " ++ tag
    ++ ": A BYTERANGE attribute without offset requires a previous partial segment with a byterange".

Definition pushPart (part : PartialSegment.t) (sharedState : SharedState.t)
    : SharedState.t :=
  let currentSegment := sharedState.(SharedState.currentSegment) in
  SharedState.set_currentSegment
    (Segment.set_parts (currentSegment.(Segment.parts) ++ [part])
       currentSegment)
    sharedState.

Definition safeProcess (pf : Platform) (tagAttributes : StringMap)
    (playlist : ParsedPlaylist.t) (sharedState : SharedState.t) : Processed :=
  let uri := required URI tagAttributes in
  let (resolvedUri, out) :=
    TagWithAttributesProcessor.resolveUriAttribute pf tag uri
      sharedState.(SharedState.baseUrl) URI in
  let part :=
    PartialSegment.mk uri resolvedUri
      (NumberOf pf (Js.get DURATION tagAttributes))
      (parseBoolean pf (Js.get GAP tagAttributes) false)
      (parseBoolean pf (Js.get INDEPENDENT tagAttributes) false)
      None in
  match Js.get BYTERANGE tagAttributes with
  | Some value =>
      if Js.truthy (Some value) then
        let values := Js.split "@" value in
        let length := NumberOf pf (nth_error values 0) in
        let offset := NumberOf pf (nth_error values 1) in
        if Js.isNaN offset then
          let previousPartialSegment :=
            Js.last sharedState.(SharedState.currentSegment).(Segment.parts) in
          match previousPartialSegment with
          | Some previous =>
              match previous.(PartialSegment.byteRange) with
              | Some previousRange =>
                  let offset :=
                    Js.add previousRange.(ByteRange.end_) (Js.ofZ 1) in
                  Returned
                    (playlist,
                     pushPart
                       (PartialSegment.set_byteRange
                          (Some
                             (ByteRange.mk offset
                                (Js.sub (Js.add offset length) (Js.ofZ 1))))
                          part)
                       sharedState)
                    out
              | None =>
                  Returned (playlist, sharedState)
                    (out ++ [Warned byteRangeWithoutOffsetWarn])
              end
          | None =>
              Returned (playlist, sharedState)
                (out ++ [Warned byteRangeWithoutOffsetWarn])
          end
        else
          Returned
            (playlist,
             pushPart
               (PartialSegment.set_byteRange
                  (Some
                     (ByteRange.mk offset
                        (Js.sub (Js.add offset length) (Js.ofZ 1))))
                  part)
               sharedState)
            out
      else Returned (playlist, pushPart part sharedState) out
  | None => Returned (playlist, pushPart part sharedState) out
  end.

Definition processor (pf : Platform) : TagWithAttributesProcessor.t :=
  TagWithAttributesProcessor.mk tag [URI; DURATION] (safeProcess pf).

End ExtXPart.

Module ExtXSkip.

Definition SKIPPED_SEGMENTS := "SKIPPED-SEGMENTS".
Definition RECENTLY_REMOVED_DATERANGES := "RECENTLY-REMOVED-DATERANGES".
(** Modelled from the spec: [EXT_X_SKIP] of [consts/tags.ts], which is not among
    the sources; the name is that of section 6.1. *)
Definition tag := "EXT-X-SKIP".

Definition tab : ascii := "009"%char.

(** The condition of the conditional is the constant
    [RECENTLY_REMOVED_DATERANGES], a non-empty string, not the attribute:
    [.split] is always called on the attribute read, and a read of an absent
    attribute is [undefined]. *)
Definition safeProcess (pf : Platform) (tagAttributes : StringMap)
    (playlist : ParsedPlaylist.t) (sharedState : SharedState.t) : Processed :=
  let skippedSegments := NumberOf pf (Js.get SKIPPED_SEGMENTS tagAttributes) in
  if Js.truthy (Some RECENTLY_REMOVED_DATERANGES) then
    match Js.get RECENTLY_REMOVED_DATERANGES tagAttributes with
    | Some value =>
        Returned
          (ParsedPlaylist.set_skip
             (Some (Skip.mk skippedSegments (Js.split tab value))) playlist,
           sharedState) []
    | None =>
        Threw
          (TypeError "Cannot read properties of undefined (reading 'split')")
    end
  else
    Returned
      (ParsedPlaylist.set_skip (Some (Skip.mk skippedSegments [])) playlist,
       sharedState) [].

Definition processor (pf : Platform) : TagWithAttributesProcessor.t :=
  TagWithAttributesProcessor.mk tag [SKIPPED_SEGMENTS] (safeProcess pf).

End ExtXSkip.

Module ExtXMedia.

Definition TYPE := "TYPE".
Definition URI := "URI".
Definition GROUP_ID := "GROUP-ID".
Definition LANGUAGE := "LANGUAGE".
Definition ASSOC_LANGUAGE := "ASSOC-LANGUAGE".
Definition NAME := "NAME".
Definition DEFAULT := "DEFAULT".
Definition AUTOSELECT := "AUTOSELECT".
Definition FORCED := "FORCED".
Definition INSTREAM_ID := "INSTREAM-ID".
Definition CHARACTERISTICS := "CHARACTERISTICS".
Definition CHANNELS := "CHANNELS".
Definition STABLE_RENDITION_ID := "STABLE-RENDITION-ID".
(** Modelled from the spec: [EXT_X_MEDIA] of [consts/tags.ts], which is not among
    the sources; the name is that of section 6.1. *)
Definition tag := "EXT-X-MEDIA".

(** [keyof RenditionGroups]. *)
Inductive GroupKey : Type := audio | video | subtitles | closedCaptions.

Definition typeToKeyMap : Js.Dict GroupKey :=
  [("AUDIO", audio); ("VIDEO", video); ("SUBTITLES", subtitles);
   ("CLOSED-CAPTIONS", closedCaptions)].

Definition group (k : GroupKey) (g : RenditionGroups.t)
    : Js.Dict (list Rendition.t) :=
  match k with
  | audio => g.(RenditionGroups.audio)
  | video => g.(RenditionGroups.video)
  | subtitles => g.(RenditionGroups.subtitles)
  | closedCaptions => g.(RenditionGroups.closedCaptions)
  end.

Definition set_group (k : GroupKey) (v : Js.Dict (list Rendition.t))
    (g : RenditionGroups.t) : RenditionGroups.t :=
  match k with
  | audio => RenditionGroups.set_audio v g
  | video => RenditionGroups.set_video v g
  | subtitles => RenditionGroups.set_subtitles v g
  | closedCaptions => RenditionGroups.set_closedCaptions v g
  end.

(** A value used as a property key. *)
Definition asKey (x : option string) : string :=
  match x with
  | Some s => s
  | None => "undefined"
  end.

Definition splitIfTruthy (sep : ascii) (x : option string) : list string :=
  match x with
  | Some s => if Js.truthy (Some s) then Js.split sep s else []
  | None => []
  end.

(** A [TYPE] outside [typeToKeyMap] makes
    [playlist.renditionGroups[renditionTypeKey]] undefined, and the read of
    its [groupId] property throws; that includes a TYPE that names a member
    of [Object.prototype], for which [renditionTypeKey] is a function or an
    object and no key of [renditionGroups].  The groups of a type are a plain
    object: a GROUP-ID that names a member of [Object.prototype] finds that
    member as [matchingGroup], which is truthy and has no [push]. *)
Definition safeProcess (pf : Platform) (tagAttributes : StringMap)
    (playlist : ParsedPlaylist.t) (sharedState : SharedState.t) : Processed :=
  let uri := Js.get URI tagAttributes in
  let (resolvedUri, out) :=
    match uri with
    | Some u =>
        if Js.truthy uri then
          let (r, out) :=
            TagWithAttributesProcessor.resolveUriAttribute pf tag u
              sharedState.(SharedState.baseUrl) URI in
          (Some r, out)
        else (None, [])
    | None => (None, [])
    end in
  let rendition :=
    Rendition.mk uri resolvedUri (Js.get TYPE tagAttributes)
      (Js.get GROUP_ID tagAttributes) (Js.get NAME tagAttributes)
      (Js.get LANGUAGE tagAttributes) (Js.get ASSOC_LANGUAGE tagAttributes)
      (parseBoolean pf (Js.get DEFAULT tagAttributes) false)
      (parseBoolean pf (Js.get AUTOSELECT tagAttributes) false)
      (parseBoolean pf (Js.get FORCED tagAttributes) false)
      (Js.get INSTREAM_ID tagAttributes)
      (splitIfTruthy "," (Js.get CHARACTERISTICS tagAttributes))
      (splitIfTruthy "/" (Js.get CHANNELS tagAttributes))
      (Js.get STABLE_RENDITION_ID tagAttributes) in
  let groupId := asKey rendition.(Rendition.groupId) in
  match Js.get (asKey rendition.(Rendition.type)) typeToKeyMap with
  | None =>
      Threw
        (TypeError
           ("Cannot read properties of undefined (reading '" ++ groupId ++ "')"))
  | Some renditionTypeKey =>
      let groups := playlist.(ParsedPlaylist.renditionGroups) in
      let store renditions :=
        Returned
          (ParsedPlaylist.set_renditionGroups
             (set_group renditionTypeKey
                (Js.set groupId renditions (group renditionTypeKey groups))
                groups)
             playlist,
           sharedState)
          out in
      match Js.read groupId (group renditionTypeKey groups) with
      | Js.Own matchingGroup => store (matchingGroup ++ [rendition])%list
      | Js.Inherited =>
          Threw (TypeError "matchingGroup.push is not a function")
      | Js.Missing => store [rendition]
      end
  end.

Definition processor (pf : Platform) : TagWithAttributesProcessor.t :=
  TagWithAttributesProcessor.mk tag [TYPE; GROUP_ID; NAME] (safeProcess pf).

End ExtXMedia.

Module BaseStreamInfProcessor.

Definition BANDWIDTH := "BANDWIDTH".
Definition AVERAGE_BANDWIDTH := "AVERAGE-BANDWIDTH".
Definition SCORE := "SCORE".
Definition CODECS := "CODECS".
Definition SUPPLEMENTAL_CODECS := "SUPPLEMENTAL-CODECS".
Definition RESOLUTION := "RESOLUTION".
Definition HDCP_LEVEL := "HDCP-LEVEL".
Definition ALLOWED_CPC := "ALLOWED-CPC".
Definition VIDEO_RANGE := "VIDEO-RANGE".
Definition STABLE_VARIANT_ID := "STABLE-VARIANT-ID".
Definition VIDEO := "VIDEO".
Definition PATHWAY_ID := "PATHWAY-ID".

Definition parseResolution (pf : Platform) (value : option string)
    : option Resolution.t :=
  let parsedResolution :=
    List.map (Number pf) (ExtXMedia.splitIfTruthy "x" value) in
  match parsedResolution with
  | [width; height] => Some (Resolution.mk width height)
  | _ => None
  end.

Definition parseAllowedCpc (value : option string) : Js.Keyed (list string) :=
  let parsedAllowedCpc := ExtXMedia.splitIfTruthy "," value in
  List.fold_left
    (fun cpcRecord entry =>
       let parsedEntry := Js.split ":" entry in
       let keyFormat := nth_error parsedEntry 0 in
       match keyFormat with
       | Some k =>
           if Js.truthy keyFormat
           then
             Js.assign k
               (ExtXMedia.splitIfTruthy "/" (nth_error parsedEntry 1))
               cpcRecord
           else cpcRecord
       | None => cpcRecord
       end)
    parsedAllowedCpc Js.emptyKeyed.

Definition numberIfTruthy (pf : Platform) (x : option string)
    : option Js.number :=
  if Js.truthy x then Some (NumberOf pf x) else None.

Definition parseCommonAttributes (pf : Platform) (tagAttributes : StringMap)
    : BaseStreamInf.t :=
  BaseStreamInf.mk "" "" (NumberOf pf (Js.get BANDWIDTH tagAttributes))
    (numberIfTruthy pf (Js.get AVERAGE_BANDWIDTH tagAttributes))
    (numberIfTruthy pf (Js.get SCORE tagAttributes))
    (List.map Js.trim (ExtXMedia.splitIfTruthy "," (Js.get CODECS tagAttributes)))
    (List.map Js.trim
       (ExtXMedia.splitIfTruthy "," (Js.get SUPPLEMENTAL_CODECS tagAttributes)))
    (parseResolution pf (Js.get RESOLUTION tagAttributes))
    (Js.get HDCP_LEVEL tagAttributes)
    (parseAllowedCpc (Js.get ALLOWED_CPC tagAttributes))
    (Js.get VIDEO_RANGE tagAttributes)
    (Js.get STABLE_VARIANT_ID tagAttributes)
    (Js.get VIDEO tagAttributes)
    (Js.get PATHWAY_ID tagAttributes).

End BaseStreamInfProcessor.

Module ExtXStreamInf.

Definition FRAME_RATE := "FRAME-RATE".
Definition AUDIO := "AUDIO".
Definition SUBTITLES := "SUBTITLES".
Definition CLOSED_CAPTIONS := "CLOSED-CAPTIONS".
(** Modelled from the spec: [EXT_X_STREAM_INF] of [consts/tags.ts], which is not among
    the sources; the name is that of section 6.1. *)
Definition tag := "EXT-X-STREAM-INF".

(** [Object.assign(sharedState.currentVariant, variantStream)] overwrites
    every field of the current variant, [uri] and [resolvedUri] included. *)
Definition safeProcess (pf : Platform) (tagAttributes : StringMap)
    (playlist : ParsedPlaylist.t) (sharedState : SharedState.t) : Processed :=
  let variantStream :=
    VariantStream.mk
      (BaseStreamInfProcessor.parseCommonAttributes pf tagAttributes)
      (BaseStreamInfProcessor.numberIfTruthy pf
         (Js.get FRAME_RATE tagAttributes))
      (Js.get AUDIO tagAttributes)
      (Js.get SUBTITLES tagAttributes)
      (Js.get CLOSED_CAPTIONS tagAttributes) in
  Returned
    (playlist,
     SharedState.set_isMultivariantPlaylist true
       (SharedState.set_currentVariant variantStream sharedState))
    [].

Definition processor (pf : Platform) : TagWithAttributesProcessor.t :=
  TagWithAttributesProcessor.mk tag [BaseStreamInfProcessor.BANDWIDTH]
    (safeProcess pf).

End ExtXStreamInf.

Module ExtXIFrameStreamInf.

Definition URI := "URI".
(** Modelled from the spec: [EXT_X_I_FRAME_STREAM_INF] of [consts/tags.ts], which is not among
    the sources; the name is that of section 6.1. *)
Definition tag := "EXT-X-I-FRAME-STREAM-INF".

Definition safeProcess (pf : Platform) (tagAttributes : StringMap)
    (playlist : ParsedPlaylist.t) (sharedState : SharedState.t) : Processed :=
  let uri := required URI tagAttributes in
  let (resolvedUri, out) :=
    TagWithAttributesProcessor.resolveUriAttribute pf tag uri
      sharedState.(SharedState.baseUrl) URI in
  let iFrameStreamInf :=
    BaseStreamInf.set_resolvedUri resolvedUri
      (BaseStreamInf.set_uri uri
         (BaseStreamInfProcessor.parseCommonAttributes pf tagAttributes)) in
  Returned
    (ParsedPlaylist.set_iFramePlaylists
       (playlist.(ParsedPlaylist.iFramePlaylists) ++ [iFrameStreamInf])
       playlist,
     sharedState)
    out.

Definition processor (pf : Platform) : TagWithAttributesProcessor.t :=
  TagWithAttributesProcessor.mk tag [BaseStreamInfProcessor.BANDWIDTH; URI]
    (safeProcess pf).

End ExtXIFrameStreamInf.

Module ExtXDateRange.

Definition ID := "ID".
Definition CLASS := "CLASS".
Definition START_DATE := "START-DATE".
Definition CUE := "CUE".
Definition END_DATE := "END-DATE".
Definition DURATION := "DURATION".
Definition PLANNED_DURATION := "PLANNED-DURATION".
Definition CLIENT_ATTRIBUTES := "X-".
Definition SCTE35_CMD := "SCTE35-CMD".
Definition SCTE35_OUT := "SCTE35-OUT".
Definition SCTE35_IN := "SCTE35-IN".
Definition END_ON_NEXT := "END-ON-NEXT".
(** Modelled from the spec: [EXT_X_DATERANGE] of [consts/tags.ts], which is not among
    the sources; the name is that of section 6.1. *)
Definition tag := "EXT-X-DATERANGE".

Definition hexIfTruthy (pf : Platform) (x : option string) : option (list N) :=
  match x with
  | Some s => if Js.truthy (Some s) then Some (parseHex pf s) else None
  | None => None
  end.

(** [Object.keys(..).filter(..).reduce(..)]: the client attributes are copied
    in key order. *)
Definition clientAttributesOf (tagAttributes : StringMap) : Js.Dict string :=
  List.fold_left
    (fun clientAttributes tagKey =>
       Js.set tagKey (required tagKey tagAttributes) clientAttributes)
    (List.filter (fun tagKey => String.prefix CLIENT_ATTRIBUTES tagKey)
       (List.map fst tagAttributes))
    [].

Definition safeProcess (pf : Platform) (tagAttributes : StringMap)
    (playlist : ParsedPlaylist.t) (sharedState : SharedState.t) : Processed :=
  let dateRange :=
    DateRange.mk (Js.get ID tagAttributes) (Js.get CLASS tagAttributes)
      (Date_parse pf (required START_DATE tagAttributes))
      (ExtXMedia.splitIfTruthy "," (Js.get CUE tagAttributes))
      (Js.get END_DATE tagAttributes)
      (BaseStreamInfProcessor.numberIfTruthy pf (Js.get DURATION tagAttributes))
      (BaseStreamInfProcessor.numberIfTruthy pf
         (Js.get PLANNED_DURATION tagAttributes))
      (hexIfTruthy pf (Js.get SCTE35_CMD tagAttributes))
      (hexIfTruthy pf (Js.get SCTE35_OUT tagAttributes))
      (hexIfTruthy pf (Js.get SCTE35_IN tagAttributes))
      (parseBoolean pf (Js.get END_ON_NEXT tagAttributes) false)
      (clientAttributesOf tagAttributes) in
  Returned
    (ParsedPlaylist.set_dateRanges
       (playlist.(ParsedPlaylist.dateRanges) ++ [dateRange]) playlist,
     sharedState)
    [].

Definition processor (pf : Platform) : TagWithAttributesProcessor.t :=
  TagWithAttributesProcessor.mk tag [ID; START_DATE] (safeProcess pf).

End ExtXDateRange.

Module ExtXPreloadHint.

Definition TYPE := "TYPE".
Definition URI := "URI".
Definition BYTERANGE_START := "BYTERANGE-START".
Definition BYTERANGE_LENGTH := "BYTERANGE-LENGTH".
(** Modelled from the spec: [EXT_X_PRELOAD_HINT] of [consts/tags.ts], which is not among
    the sources; the name is that of section 6.1. *)
Definition tag := "EXT-X-PRELOAD-HINT".

Definition safeProcess (pf : Platform) (tagAttributes : StringMap)
    (playlist : ParsedPlaylist.t) (sharedState : SharedState.t) : Processed :=
  let type := Js.get TYPE tagAttributes in
  let uri := required URI tagAttributes in
  let (resolvedUri, out) :=
    TagWithAttributesProcessor.resolveUriAttribute pf tag uri
      sharedState.(SharedState.baseUrl) URI in
  let pStart := Js.get BYTERANGE_START tagAttributes in
  let pLength := Js.get BYTERANGE_LENGTH tagAttributes in
  let byteRange :=
    if (Js.truthy pStart && Js.truthy pLength)%bool then
      let start := NumberOf pf pStart in
      let end_ := Js.sub (Js.add start (NumberOf pf pLength)) (Js.ofZ 1) in
      Some (ByteRange.mk start end_)
    else if (Js.truthy pStart && negb (Js.truthy pLength))%bool then
      Some (ByteRange.mk (NumberOf pf pStart) Js.MAX_SAFE_INTEGER)
    else if (negb (Js.truthy pStart) && Js.truthy pLength)%bool then
      Some
        (ByteRange.mk (Js.ofZ 0) (Js.sub (NumberOf pf pLength) (Js.ofZ 1)))
    else None in
  let preloadHint := PreloadHint.mk uri resolvedUri byteRange in
  let hints := playlist.(ParsedPlaylist.preloadHints) in
  let hints :=
    if negb (ExtXKey.isNot "PART" type)
    then PreloadHints.set_part (Some preloadHint) hints
    else hints in
  let hints :=
    if negb (ExtXKey.isNot "MAP" type)
    then PreloadHints.set_map (Some preloadHint) hints
    else hints in
  Returned (ParsedPlaylist.set_preloadHints hints playlist, sharedState) out.

Definition processor (pf : Platform) : TagWithAttributesProcessor.t :=
  TagWithAttributesProcessor.mk tag [TYPE; URI] (safeProcess pf).

End ExtXPreloadHint.

Module ExtXRenditionReport.

Definition URI := "URI".
Definition LAST_MSN := "LAST-MSN".
Definition LAST_PART := "LAST-PART".
(** Modelled from the spec: [EXT_X_RENDITION_REPORT] of [consts/tags.ts], which is not among
    the sources; the name is that of section 6.1. *)
Definition tag := "EXT-X-RENDITION-REPORT".

Definition safeProcess (pf : Platform) (tagAttributes : StringMap)
    (playlist : ParsedPlaylist.t) (sharedState : SharedState.t) : Processed :=
  let uri := required URI tagAttributes in
  let (resolvedUri, out) :=
    TagWithAttributesProcessor.resolveUriAttribute pf tag uri
      sharedState.(SharedState.baseUrl) URI in
  let renditionReport :=
    RenditionReport.mk uri resolvedUri
      (BaseStreamInfProcessor.numberIfTruthy pf (Js.get LAST_MSN tagAttributes))
      (BaseStreamInfProcessor.numberIfTruthy pf
         (Js.get LAST_PART tagAttributes)) in
  Returned
    (ParsedPlaylist.set_renditionReports
       (playlist.(ParsedPlaylist.renditionReports) ++ [renditionReport])
       playlist,
     sharedState)
    out.

Definition processor (pf : Platform) : TagWithAttributesProcessor.t :=
  TagWithAttributesProcessor.mk tag [URI] (safeProcess pf).

End ExtXRenditionReport.

Module ExtXSessionData.

Definition DATA_ID := "DATA-ID".
Definition VALUE := "VALUE".
Definition URI := "URI".
Definition FORMAT := "FORMAT".
Definition LANGUAGE := "LANGUAGE".
(** Modelled from the spec: [EXT_X_SESSION_DATA] of [consts/tags.ts], which is not among
    the sources; the name is that of section 6.1. *)
Definition tag := "EXT-X-SESSION-DATA".

Definition safeProcess (pf : Platform) (tagAttributes : StringMap)
    (playlist : ParsedPlaylist.t) (sharedState : SharedState.t) : Processed :=
  let uri := Js.get URI tagAttributes in
  let (resolvedUri, out) :=
    match uri with
    | Some u =>
        if Js.truthy uri then
          let (r, out) :=
            TagWithAttributesProcessor.resolveUriAttribute pf tag u
              sharedState.(SharedState.baseUrl) URI in
          (Some r, out)
        else (None, [])
    | None => (None, [])
    end in
  let sessionData :=
    SessionData.mk uri resolvedUri (Js.get DATA_ID tagAttributes)
      (Js.get VALUE tagAttributes) (Js.get FORMAT tagAttributes)
      (Js.get LANGUAGE tagAttributes) in
  Returned
    (ParsedPlaylist.set_sessionData
       (Js.assign (ExtXMedia.asKey sessionData.(SessionData.dataId))
          sessionData playlist.(ParsedPlaylist.sessionData))
       playlist,
     sharedState)
    out.

Definition processor (pf : Platform) : TagWithAttributesProcessor.t :=
  TagWithAttributesProcessor.mk tag [DATA_ID] (safeProcess pf).

End ExtXSessionData.

Module ExtXSessionKey.

(** Modelled from the spec: [EXT_X_SESSION_KEY] of [consts/tags.ts], which is not among
    the sources; the name is that of section 6.1. *)
Definition tag := "EXT-X-SESSION-KEY".

Definition safeProcess (pf : Platform) (tagAttributes : StringMap)
    (playlist : ParsedPlaylist.t) (sharedState : SharedState.t) : Processed :=
  let (sessionKey, out) :=
    EncryptionTagProcessor.parseEncryptionTag pf tag tagAttributes sharedState in
  Returned (ParsedPlaylist.set_sessionKey (Some sessionKey) playlist, sharedState)
    out.

Definition processor (pf : Platform) : TagWithAttributesProcessor.t :=
  TagWithAttributesProcessor.mk tag EncryptionTagProcessor.requiredAttributes
    (safeProcess pf).

End ExtXSessionKey.

Module ExtXContentSteering.

Definition SERVER_URI := "SERVER-URI".
Definition PATHWAY_ID := "PATHWAY-ID".
(** Modelled from the spec: [EXT_X_CONTENT_STEERING] of [consts/tags.ts], which is not among
    the sources; the name is that of section 6.1. *)
Definition tag := "EXT-X-CONTENT-STEERING".

Definition safeProcess (pf : Platform) (tagAttributes : StringMap)
    (playlist : ParsedPlaylist.t) (sharedState : SharedState.t) : Processed :=
  let serverUri := required SERVER_URI tagAttributes in
  let (resolvedServerUri, out) :=
    TagWithAttributesProcessor.resolveUriAttribute pf tag serverUri
      sharedState.(SharedState.baseUrl) SERVER_URI in
  Returned
    (ParsedPlaylist.set_contentSteering
       (Some
          (ContentSteering.mk serverUri resolvedServerUri
             (Js.get PATHWAY_ID tagAttributes)))
       playlist,
     sharedState)
    out.

Definition processor (pf : Platform) : TagWithAttributesProcessor.t :=
  TagWithAttributesProcessor.mk tag [SERVER_URI] (safeProcess pf).

End ExtXContentSteering.

Module ExtXDefine.

Definition NAME := "NAME".
Definition VALUE := "VALUE".
Definition IMPORT := "IMPORT".
Definition QUERYPARAM := "QUERYPARAM".
(** Modelled from the spec: [EXT_X_DEFINE] of [consts/tags.ts], which is not among
    the sources; the name is that of section 6.1. *)
Definition tag := "EXT-X-DEFINE".

(** [d[k]] when it is truthy, for a dictionary of strings: a non-empty
    string of the dictionary, or a member inherited from
    [Object.prototype]. *)
Definition truthyEntry (k : string) (d : Js.Object (option string))
    : option Define.Imported :=
  match Js.lookup k d with
  | Js.Own (Some v) => if Js.truthy (Some v) then Some (Define.Text v) else None
  | Js.Own None => None
  | Js.Inherited => Some Define.Member
  | Js.Missing => None
  end.

(** [d[k]] when it is truthy, for [baseDefine.import]. *)
Definition truthyImport (k : string) (d : Js.Object Define.Imported)
    : option Define.Imported :=
  match Js.lookup k d with
  | Js.Own (Define.Text v) =>
      if Js.truthy (Some v) then Some (Define.Text v) else None
  | Js.Own Define.Null => None
  | Js.Own Define.Member => Some Define.Member
  | Js.Inherited => Some Define.Member
  | Js.Missing => None
  end.

Definition getValueForImportDefine (importName : string)
    (sharedState : SharedState.t) : Define.Imported :=
  match sharedState.(SharedState.baseDefine) with
  | None => Define.Null
  | Some baseDefine =>
      match truthyEntry importName baseDefine.(Define.name) with
      | Some v => v
      | None =>
          match truthyImport importName baseDefine.(Define.import) with
          | Some v => v
          | None =>
              match truthyEntry importName baseDefine.(Define.queryParam) with
              | Some v => v
              | None => Define.Null
              end
          end
      end
  end.

Definition getValueForQueryParamDefine (pf : Platform) (queryParam : string)
    (sharedState : SharedState.t) : option string :=
  if negb (Js.truthy (Some sharedState.(SharedState.baseUrl))) then None
  else searchParam pf sharedState.(SharedState.baseUrl) queryParam.

Definition onDefine (f : Define.t -> Define.t) (playlist : ParsedPlaylist.t)
    : ParsedPlaylist.t :=
  ParsedPlaylist.set_define (f playlist.(ParsedPlaylist.define)) playlist.

(** [playlist.define.import[k] !== null]. *)
Definition importNotNull (k : string) (d : Js.Object Define.Imported) : bool :=
  match Js.lookup k d with
  | Js.Own Define.Null => false
  | _ => true
  end.

(** [playlist.define.queryParam[k] !== null]. *)
Definition queryParamNotNull (k : string) (d : Js.Object (option string))
    : bool :=
  match Js.lookup k d with
  | Js.Own None => false
  | _ => true
  end.

Definition processName (tagAttributes : StringMap)
    (st : ParsedPlaylist.t * SharedState.t) : ParsedPlaylist.t * SharedState.t :=
  let (playlist, sharedState) := st in
  match Js.get NAME tagAttributes with
  | Some name =>
      if Js.truthy (Some name) then
        (onDefine
           (fun d =>
              Define.set_name
                (Js.store Define.kindOfName name (Js.get VALUE tagAttributes)
                   d.(Define.name))
                d)
           playlist,
         SharedState.set_hasVariablesForSubstitution true sharedState)
      else st
  | None => st
  end.

Definition processImport (tagAttributes : StringMap)
    (st : ParsedPlaylist.t * SharedState.t) : ParsedPlaylist.t * SharedState.t :=
  let (playlist, sharedState) := st in
  match Js.get IMPORT tagAttributes with
  | Some importName =>
      if Js.truthy (Some importName) then
        let value := getValueForImportDefine importName sharedState in
        let playlist :=
          onDefine
            (fun d =>
               Define.set_import
                 (Js.store Define.kindOfImported importName value
                    d.(Define.import))
                 d)
            playlist in
        (playlist,
         if importNotNull importName
              playlist.(ParsedPlaylist.define).(Define.import)
         then SharedState.set_hasVariablesForSubstitution true sharedState
         else sharedState)
      else st
  | None => st
  end.

Definition processQueryParam (pf : Platform) (tagAttributes : StringMap)
    (st : ParsedPlaylist.t * SharedState.t) : ParsedPlaylist.t * SharedState.t :=
  let (playlist, sharedState) := st in
  match Js.get QUERYPARAM tagAttributes with
  | Some queryParam =>
      if Js.truthy (Some queryParam) then
        let value := getValueForQueryParamDefine pf queryParam sharedState in
        let playlist :=
          onDefine
            (fun d =>
               Define.set_queryParam
                 (Js.store Define.kindOfQueryParam queryParam value
                    d.(Define.queryParam))
                 d)
            playlist in
        (playlist,
         if queryParamNotNull queryParam
              playlist.(ParsedPlaylist.define).(Define.queryParam)
         then SharedState.set_hasVariablesForSubstitution true sharedState
         else sharedState)
      else st
  | None => st
  end.

Definition safeProcess (pf : Platform) (tagAttributes : StringMap)
    (playlist : ParsedPlaylist.t) (sharedState : SharedState.t) : Processed :=
  Returned
    (processQueryParam pf tagAttributes
       (processImport tagAttributes
          (processName tagAttributes (playlist, sharedState))))
    [].

Definition processor (pf : Platform) : TagWithAttributesProcessor.t :=
  TagWithAttributesProcessor.mk tag [] (safeProcess pf).

End ExtXDefine.

(** ** The empty-tag and value-tag processors *)

Definition EmptyTagProcessor : Type :=
  ParsedPlaylist.t -> SharedState.t -> Processed.

Definition TagWithValueProcessor : Type :=
  string -> ParsedPlaylist.t -> SharedState.t -> Processed.

Definition onCurrentSegment (f : Segment.t -> Segment.t)
    (sharedState : SharedState.t) : SharedState.t :=
  SharedState.set_currentSegment (f sharedState.(SharedState.currentSegment))
    sharedState.

Module EmptyTags.

(** Modelled from the spec: the constants of [consts/tags.ts] for the empty
    tags, named in section 6.1. *)
Definition EXTM3U := "EXTM3U".

(** Modelled from the spec: a constant of [consts/tags.ts], named in
    section 6.1. *)
Definition EXT_X_INDEPENDENT_SEGMENTS := "EXT-X-INDEPENDENT-SEGMENTS".

(** Modelled from the spec: a constant of [consts/tags.ts], named in
    section 6.1. *)
Definition EXT_X_ENDLIST := "EXT-X-ENDLIST".

(** Modelled from the spec: a constant of [consts/tags.ts], named in
    section 6.1. *)
Definition EXT_X_I_FRAMES_ONLY := "EXT-X-I-FRAMES-ONLY".

(** Modelled from the spec: a constant of [consts/tags.ts], named in
    section 6.1. *)
Definition EXT_X_DISCONTINUITY := "EXT-X-DISCONTINUITY".

(** Modelled from the spec: a constant of [consts/tags.ts], named in
    section 6.1. *)
Definition EXT_X_GAP := "EXT-X-GAP".

(** Modelled from the spec: [tags/emptyTagProcessors.ts] is not among the
    sources.  Section 3.1: [m3u] records that the leading [#EXTM3U] was
    seen. *)
Definition ExtM3u : EmptyTagProcessor :=
  fun playlist sharedState =>
    Returned (ParsedPlaylist.set_m3u true playlist, sharedState) [].

(** Modelled from the spec: section 3.1, the flag [independentSegments]. *)
Definition ExtXIndependentSegments : EmptyTagProcessor :=
  fun playlist sharedState =>
    Returned (ParsedPlaylist.set_independentSegments true playlist, sharedState)
      [].

(** Modelled from the spec: section 3.1, the flag [endList]. *)
Definition ExtXEndList : EmptyTagProcessor :=
  fun playlist sharedState =>
    Returned (ParsedPlaylist.set_endList true playlist, sharedState) [].

(** Modelled from the spec: section 3.1, the flag [iFramesOnly]. *)
Definition ExtXIframesOnly : EmptyTagProcessor :=
  fun playlist sharedState =>
    Returned (ParsedPlaylist.set_iFramesOnly true playlist, sharedState) [].

(** Modelled from the spec: section 4.3.3, EXT-X-DISCONTINUITY sets
    [currentSegment.isDiscontinuity]. *)
Definition ExtXDiscontinuity : EmptyTagProcessor :=
  fun playlist sharedState =>
    Returned
      (playlist, onCurrentSegment (Segment.set_isDiscontinuity true) sharedState)
      [].

(** Modelled from the spec: section 4.3.3, EXT-X-GAP sets
    [currentSegment.isGap]. *)
Definition ExtXGap : EmptyTagProcessor :=
  fun playlist sharedState =>
    Returned (playlist, onCurrentSegment (Segment.set_isGap true) sharedState)
      [].

End EmptyTags.

Module ValueTags.

(** Modelled from the spec: a constant of [consts/tags.ts], named in
    section 6.1. *)
Definition EXT_X_VERSION := "EXT-X-VERSION".
(** Modelled from the spec: a constant of [consts/tags.ts], named in
    section 6.1. *)
Definition EXT_X_TARGETDURATION := "EXT-X-TARGETDURATION".
(** Modelled from the spec: a constant of [consts/tags.ts], named in
    section 6.1. *)
Definition EXT_X_MEDIA_SEQUENCE := "EXT-X-MEDIA-SEQUENCE".
(** Modelled from the spec: a constant of [consts/tags.ts], named in
    section 6.1. *)
Definition EXT_X_DISCONTINUITY_SEQUENCE := "EXT-X-DISCONTINUITY-SEQUENCE".
(** Modelled from the spec: a constant of [consts/tags.ts], named in
    section 6.1. *)
Definition EXT_X_PLAYLIST_TYPE := "EXT-X-PLAYLIST-TYPE".
(** Modelled from the spec: a constant of [consts/tags.ts], named in
    section 6.1. *)
Definition EXTINF := "EXTINF".
(** Modelled from the spec: a constant of [consts/tags.ts], named in
    section 6.1. *)
Definition EXT_X_BYTERANGE := "EXT-X-BYTERANGE".
(** Modelled from the spec: a constant of [consts/tags.ts], named in
    section 6.1. *)
Definition EXT_X_BITRATE := "EXT-X-BITRATE".
(** Modelled from the spec: a constant of [consts/tags.ts], named in
    section 6.1. *)
Definition EXT_X_PROGRAM_DATE_TIME := "EXT-X-PROGRAM-DATE-TIME".

(** Modelled from the spec: [tags/tagWithValueProcessors.ts] is not among the
    sources.  Section 4.3.3: parse integer, assign to playlist field; an
    unparsable value is skipped with the unparsable-value warning of
    section 7. *)
Definition integerTag (pf : Platform) (tag : string)
    (assign : Z -> ParsedPlaylist.t * SharedState.t ->
              ParsedPlaylist.t * SharedState.t)
    : TagWithValueProcessor :=
  fun tagValue playlist sharedState =>
    match parseInteger pf tagValue with
    | Some value => Returned (assign value (playlist, sharedState)) []
    | None =>
        Returned (playlist, sharedState)
          [Warned (Warn.unableToParseValueWarn tag)]
    end.

(** Modelled from the spec: section 4.3.3, the integer goes to
    [playlist.version]. *)
Definition ExtXVersion (pf : Platform) : TagWithValueProcessor :=
  integerTag pf EXT_X_VERSION
    (fun value st => (ParsedPlaylist.set_version (Some value) (fst st), snd st)).

(** Modelled from the spec: section 4.3.3, the integer goes to
    [playlist.targetDuration]. *)
Definition ExtXTargetDuration (pf : Platform) : TagWithValueProcessor :=
  integerTag pf EXT_X_TARGETDURATION
    (fun value st =>
       (ParsedPlaylist.set_targetDuration (Some value) (fst st), snd st)).

(** Modelled from the spec: section 4.3.3, the integer goes to
    [playlist.mediaSequence]. *)
Definition ExtXMediaSequence (pf : Platform) : TagWithValueProcessor :=
  integerTag pf EXT_X_MEDIA_SEQUENCE
    (fun value st =>
       (ParsedPlaylist.set_mediaSequence (Js.ofInteger value) (fst st), snd st)).

(** Modelled from the spec: section 4.3.3, the integer goes to
    [playlist.discontinuitySequence]. *)
Definition ExtXDiscontinuitySequence (pf : Platform) : TagWithValueProcessor :=
  integerTag pf EXT_X_DISCONTINUITY_SEQUENCE
    (fun value st =>
       (ParsedPlaylist.set_discontinuitySequence (Js.ofInteger value) (fst st),
        snd st)).

(** Modelled from the spec, section 4.3.3: EXT-X-BITRATE (integer kbps) sets
    [sharedState.currentBitrate]. *)
Definition ExtXBitrate (pf : Platform) : TagWithValueProcessor :=
  integerTag pf EXT_X_BITRATE
    (fun value st =>
       (fst st,
        SharedState.set_currentBitrate (Some (Js.ofInteger value)) (snd st))).

(** Modelled from the spec, section 4.3.3: enum VOD or EVENT; an unknown
    value gives the unsupported-enum warning. *)
Definition ExtXPlaylistType : TagWithValueProcessor :=
  fun tagValue playlist sharedState =>
    if (String.eqb tagValue "VOD" || String.eqb tagValue "EVENT")%bool then
      Returned
        (ParsedPlaylist.set_playlistType (Some tagValue) playlist, sharedState)
        []
    else
      Returned (playlist, sharedState)
        [Warned
           (Warn.unsupportedEnumValue EXT_X_PLAYLIST_TYPE tagValue
              ["VOD"; "EVENT"])].

(** The text before the first comma and the text after it. *)
Fixpoint cutAtComma (s : string) : string * string :=
  match s with
  | EmptyString => (EmptyString, EmptyString)
  | String c rest =>
      if Ascii.eqb c ","%char then (EmptyString, rest)
      else let (a, b) := cutAtComma rest in (String c a, b)
  end.

(** Modelled from the spec, section 4.3.3: the value is [duration[,title]];
    the duration is the first comma-delimited token parsed as a float, the
    title is the remainder. *)
Definition ExtInf (pf : Platform) : TagWithValueProcessor :=
  fun tagValue playlist sharedState =>
    let (first, remainder) := cutAtComma tagValue in
    match parseFloat pf first with
    | Some duration =>
        Returned
          (playlist,
           onCurrentSegment
             (fun s => Segment.set_title remainder (Segment.set_duration duration s))
             sharedState)
          []
    | None =>
        Returned (playlist, sharedState)
          [Warned (Warn.unableToParseValueWarn EXTINF)]
    end.

(** Modelled from the spec, section 4.3.3: parse ISO-8601 to milliseconds and
    set [currentSegment.programDateTimeStart]. *)
Definition ExtXProgramDateTime (pf : Platform) : TagWithValueProcessor :=
  fun tagValue playlist sharedState =>
    match parseDate pf tagValue with
    | Some milliseconds =>
        Returned
          (playlist,
           onCurrentSegment (Segment.set_programDateTimeStart (Some milliseconds))
             sharedState)
          []
    | None =>
        Returned (playlist, sharedState)
          [Warned (Warn.unableToParseValueWarn EXT_X_PROGRAM_DATE_TIME)]
    end.

(** Modelled from the spec, section 4.3.3: the value is [length[@offset]];
    [byteRange = { start: offset, end: offset + length - 1 }]; a missing
    offset is [previousSegment.byteRange.end + 1].  The spec does not say
    what happens when there is no such previous byte range: the tag is then
    skipped with a warning, as EXT-X-PART does for partial segments. *)
Definition ExtXByteRange (pf : Platform) : TagWithValueProcessor :=
  fun tagValue playlist sharedState =>
    let values := Js.split "@" tagValue in
    let length := NumberOf pf (nth_error values 0) in
    let assign offset :=
      Returned
        (playlist,
         onCurrentSegment
           (Segment.set_byteRange
              (Some
                 (ByteRange.mk offset
                    (Js.sub (Js.add offset length) (Js.ofZ 1)))))
           sharedState)
        [] in
    match nth_error values 1 with
    | Some offset => assign (Number pf offset)
    | None =>
        let previousSegment := Js.last playlist.(ParsedPlaylist.segments) in
        match previousSegment with
        | Some previous =>
            match previous.(Segment.byteRange) with
            | Some range => assign (Js.add range.(ByteRange.end_) (Js.ofZ 1))
            | None =>
                Returned (playlist, sharedState)
                  [Warned (Warn.unableToParseValueWarn EXT_X_BYTERANGE)]
            end
        | None =>
            Returned (playlist, sharedState)
              [Warned (Warn.unableToParseValueWarn EXT_X_BYTERANGE)]
        end
    end.

End ValueTags.

(** ** class Parser ([lib/parse.ts]) *)

(** The three tables are built by the constructor, in this order. *)
Definition emptyTagMap : Js.Dict EmptyTagProcessor :=
  [(EmptyTags.EXTM3U, EmptyTags.ExtM3u);
   (EmptyTags.EXT_X_INDEPENDENT_SEGMENTS, EmptyTags.ExtXIndependentSegments);
   (EmptyTags.EXT_X_ENDLIST, EmptyTags.ExtXEndList);
   (EmptyTags.EXT_X_I_FRAMES_ONLY, EmptyTags.ExtXIframesOnly);
   (EmptyTags.EXT_X_DISCONTINUITY, EmptyTags.ExtXDiscontinuity);
   (EmptyTags.EXT_X_GAP, EmptyTags.ExtXGap)].

Definition tagValueMap (pf : Platform) : Js.Dict TagWithValueProcessor :=
  [(ValueTags.EXT_X_VERSION, ValueTags.ExtXVersion pf);
   (ValueTags.EXT_X_TARGETDURATION, ValueTags.ExtXTargetDuration pf);
   (ValueTags.EXT_X_MEDIA_SEQUENCE, ValueTags.ExtXMediaSequence pf);
   (ValueTags.EXT_X_DISCONTINUITY_SEQUENCE,
    ValueTags.ExtXDiscontinuitySequence pf);
   (ValueTags.EXT_X_PLAYLIST_TYPE, ValueTags.ExtXPlaylistType);
   (ValueTags.EXTINF, ValueTags.ExtInf pf);
   (ValueTags.EXT_X_BYTERANGE, ValueTags.ExtXByteRange pf);
   (ValueTags.EXT_X_BITRATE, ValueTags.ExtXBitrate pf);
   (ValueTags.EXT_X_PROGRAM_DATE_TIME, ValueTags.ExtXProgramDateTime pf)].

Definition tagAttributesMap (pf : Platform)
    : Js.Dict TagWithAttributesProcessor.t :=
  [(ExtXStart.tag, ExtXStart.processor pf);
   (ExtXPartInf.tag, ExtXPartInf.processor pf);
   (ExtXServerControl.tag, ExtXServerControl.processor pf);
   (ExtXKey.tag, ExtXKey.processor pf);
   (ExtXMap.tag, ExtXMap.processor pf);
   (ExtXPart.tag, ExtXPart.processor pf);
   (ExtXMedia.tag, ExtXMedia.processor pf);
   (ExtXStreamInf.tag, ExtXStreamInf.processor pf);
   (ExtXSkip.tag, ExtXSkip.processor pf);
   (ExtXIFrameStreamInf.tag, ExtXIFrameStreamInf.processor pf);
   (ExtXDateRange.tag, ExtXDateRange.processor pf);
   (ExtXPreloadHint.tag, ExtXPreloadHint.processor pf);
   (ExtXRenditionReport.tag, ExtXRenditionReport.processor pf);
   (ExtXSessionData.tag, ExtXSessionData.processor pf);
   (ExtXSessionKey.tag, ExtXSessionKey.processor pf);
   (ExtXContentSteering.tag, ExtXContentSteering.processor pf);
   (ExtXDefine.tag, ExtXDefine.processor pf)].

(** The processor has mutated [this.parsedPlaylist] and [this.sharedState]. *)
Definition commit (this : Parser.t) (r : Processed) : Outcome Parser.t :=
  match r with
  | Returned (playlist, sharedState) out =>
      Returned
        (Parser.set_sharedState sharedState
           (Parser.set_parsedPlaylist playlist this))
        out
  | Threw e => Threw e
  end.

Definition warnCallback (message : string) (this : Parser.t)
    : Outcome Parser.t :=
  Returned this [Warned message].

(** The registries are consulted on their own keys: see the conventions on
    tag keys at the head of the file. *)
Definition tagInfoCallback (pf : Platform) (tagKey : string)
    (tagValue : option string) (tagAttributes : StringMap) (this : Parser.t)
    : Outcome Parser.t :=
  Returned this [Debugged tagKey tagValue tagAttributes] >>= fun this =>
  if List.existsb (String.eqb tagKey) this.(Parser.ignoreTags) then
    warnCallback (Warn.ignoreTagWarn tagKey) this
  else
    match Js.get tagKey emptyTagMap with
    | Some emptyTagProcessor =>
        commit this
          (emptyTagProcessor this.(Parser.parsedPlaylist)
             this.(Parser.sharedState))
    | None =>
    match Js.get tagKey (tagValueMap pf) with
    | Some tagWithValueProcessor =>
        let tagValue := this.(Parser.transformTagValue) tagKey tagValue in
        match tagValue with
        | None => warnCallback (Warn.missingTagValueWarn tagKey) this
        | Some tagValue =>
            commit this
              (tagWithValueProcessor tagValue this.(Parser.parsedPlaylist)
                 this.(Parser.sharedState))
        end
    | None =>
    match Js.get tagKey (tagAttributesMap pf) with
    | Some tagWithAttributesProcessor =>
        let tagAttributes :=
          this.(Parser.transformTagAttributes) tagKey tagAttributes in
        commit this
          (TagWithAttributesProcessor.process pf tagWithAttributesProcessor
             tagAttributes this.(Parser.parsedPlaylist)
             this.(Parser.sharedState))
    | None =>
    match Js.get tagKey this.(Parser.customTagMap) with
    | Some customTagProcessor =>
        let (custom, sharedState) :=
          customTagProcessor tagKey tagValue tagAttributes
            this.(Parser.parsedPlaylist).(ParsedPlaylist.custom)
            this.(Parser.sharedState) in
        Returned
          (Parser.set_sharedState sharedState
             (Parser.set_parsedPlaylist
                (ParsedPlaylist.set_custom custom this.(Parser.parsedPlaylist))
                this))
          []
    | None => warnCallback (Warn.unsupportedTagWarn tagKey) this
    end end end end.

Definition handleCurrentVariant (uri resolvedUri : string) (this : Parser.t)
    : Outcome Parser.t :=
  let sharedState := this.(Parser.sharedState) in
  let currentVariant := sharedState.(SharedState.currentVariant) in
  let currentVariant :=
    VariantStream.set_common
      (BaseStreamInf.set_uri uri currentVariant.(VariantStream.common))
      currentVariant in
  let currentVariant :=
    VariantStream.set_common
      (BaseStreamInf.set_resolvedUri resolvedUri
         currentVariant.(VariantStream.common))
      currentVariant in
  let playlist := this.(Parser.parsedPlaylist) in
  let playlist :=
    ParsedPlaylist.set_variantStreams
      (playlist.(ParsedPlaylist.variantStreams) ++ [currentVariant]) playlist in
  let sharedState :=
    SharedState.set_currentVariant createDefaultVariantStream sharedState in
  Returned
    (Parser.set_sharedState sharedState (Parser.set_parsedPlaylist playlist this))
    [].

(** [a > b] on a rational and an integer. *)
Definition exceeds (a : Q) (b : Z) : bool := negb (Qle_bool a (inject_Z b)).

Definition handleCurrentSegment (pf : Platform) (uri resolvedUri : string)
    (this : Parser.t) : Outcome Parser.t :=
  let playlist := this.(Parser.parsedPlaylist) in
  let sharedState := this.(Parser.sharedState) in
  let s := sharedState.(SharedState.currentSegment) in
  let out :=
    match playlist.(ParsedPlaylist.targetDuration) with
    | Some targetDuration =>
        if exceeds s.(Segment.duration) targetDuration then
          [Warned
             (Warn.segmentDurationExceededTargetDuration uri
                (numberToString pf
                   (s.(Segment.duration) - inject_Z targetDuration)))]
        else []
    | None => []
    end in
  let previousSegment := Js.last playlist.(ParsedPlaylist.segments) in
  let s := Segment.set_encryption sharedState.(SharedState.currentEncryption) s in
  let s := Segment.set_map sharedState.(SharedState.currentMap) s in
  let s := Segment.set_uri uri s in
  let s := Segment.set_resolvedUri resolvedUri s in
  let s := Segment.set_startTime sharedState.(SharedState.baseTime) s in
  let s :=
    match previousSegment with
    | Some previous =>
        let s :=
          Segment.set_mediaSequence (previous.(Segment.mediaSequence) + 1)%float s in
        let s := Segment.set_startTime previous.(Segment.endTime) s in
        if s.(Segment.isDiscontinuity) then
          Segment.set_discontinuitySequence
            (previous.(Segment.discontinuitySequence) + 1)%float s
        else
          Segment.set_discontinuitySequence
            previous.(Segment.discontinuitySequence) s
    | None => s
    end in
  let s :=
    Segment.set_endTime (s.(Segment.startTime) + s.(Segment.duration)) s in
  let s :=
    if (Js.truthyNumber sharedState.(SharedState.currentBitrate)
        && match s.(Segment.byteRange) with Some _ => false | None => true end)%bool
    then Segment.set_bitrate sharedState.(SharedState.currentBitrate) s
    else s in
  let s :=
    match previousSegment with
    | Some previous =>
        if (negb (Js.truthyQ s.(Segment.programDateTimeStart))
            && Js.truthyQ previous.(Segment.programDateTimeStart))%bool
        then
          match previous.(Segment.programDateTimeStart) with
          | Some start =>
              Segment.set_programDateTimeStart
                (Some (start + previous.(Segment.duration) * inject_Z 1000)) s
          | None => s
          end
        else s
    | None => s
    end in
  let s :=
    match s.(Segment.programDateTimeStart) with
    | Some start =>
        if Js.truthyQ (Some start) then
          Segment.set_programDateTimeEnd
            (Some (start + s.(Segment.duration) * inject_Z 1000)) s
        else s
    | None => s
    end in
  let playlist :=
    ParsedPlaylist.set_segments (playlist.(ParsedPlaylist.segments) ++ [s])
      playlist in
  let sharedState :=
    SharedState.set_currentSegment createDefaultSegment sharedState in
  Returned
    (Parser.set_sharedState sharedState (Parser.set_parsedPlaylist playlist this))
    out.

Definition uriInfoCallback (pf : Platform) (uri : string) (this : Parser.t)
    : Outcome Parser.t :=
  let sharedState := this.(Parser.sharedState) in
  let (substituted, out) :=
    if sharedState.(SharedState.hasVariablesForSubstitution) then
      let (result, missing) :=
        substituteVariables pf uri
          this.(Parser.parsedPlaylist).(ParsedPlaylist.define) in
      (result,
       List.map
         (fun variableName =>
            Warned
              (Warn.missingRequiredVariableForUriSubstitutionWarn uri
                 variableName))
         missing)
    else (uri, []) in
  let uri := substituted in
  let (resolvedUri, out') :=
    match resolveUri pf uri sharedState.(SharedState.baseUrl) with
    | Some resolved => (resolved, [])
    | None =>
        (uri,
         [Warned
            (Warn.failedToResolveUri uri sharedState.(SharedState.baseUrl))])
    end in
  Returned this (out ++ out') >>= fun this =>
  if sharedState.(SharedState.isMultivariantPlaylist)
  then handleCurrentVariant uri resolvedUri this
  else handleCurrentSegment pf uri resolvedUri this.

Definition clean (this : Parser.t) : ParsedPlaylist.t * Parser.t :=
  let parsedPlaylist := this.(Parser.parsedPlaylist) in
  (parsedPlaylist,
   Parser.set_sharedState createDefaultSharedState
     (Parser.set_parsedPlaylist createDefaultParsedPlaylist this)).

(** [options.baseTime || 0]. *)
Definition orZero (x : option Q) : Q :=
  match x with
  | Some q => if Js.truthyQ (Some q) then q else 0
  | None => 0
  end.

Definition gatherParseOptions (options : ParseOptions.t) (this : Parser.t)
    : Parser.t :=
  let sharedState := this.(Parser.sharedState) in
  let sharedState :=
    SharedState.set_baseDefine options.(ParseOptions.baseDefine) sharedState in
  let sharedState :=
    SharedState.set_baseUrl options.(ParseOptions.baseUrl) sharedState in
  let sharedState :=
    SharedState.set_baseTime (orZero options.(ParseOptions.baseTime)) sharedState in
  Parser.set_sharedState sharedState this.

(** ** The state machine, as the facades see it *)

(** What the state machine tells the parser: a call of [tagInfoCallback] or
    of [uriInfoCallback]. *)
Inductive ScanEvent : Type :=
| TagInfo (tagKey : string) (tagValue : option string)
    (tagAttributes : StringMap)
| UriInfo (uri : string).

(** [createStateMachine(tagInfoCallback, uriInfoCallback)] gives a function
    of one character that keeps its own state and calls the two callbacks:
    [initial] is the state right after creation, [transition q c] the state
    after the call on [c] and the callback calls it made, in order. *)
Record StateMachine : Type := {
  state : Type;
  initial : state;
  transition : state -> ascii -> state * list ScanEvent
}.

Definition newline : ascii := "010"%char.

Definition deliver (pf : Platform) (e : ScanEvent) (this : Parser.t)
    : Outcome Parser.t :=
  match e with
  | TagInfo tagKey tagValue tagAttributes =>
      tagInfoCallback pf tagKey tagValue tagAttributes this
  | UriInfo uri => uriInfoCallback pf uri this
  end.

Fixpoint deliverAll (pf : Platform) (events : list ScanEvent) (this : Parser.t)
    : Outcome Parser.t :=
  match events with
  | [] => Returned this []
  | e :: rest => deliver pf e this >>= deliverAll pf rest
  end.

Section Facades.

Variable pf : Platform.
Variable sm : StateMachine.

(** One call [stateMachine(c)]. *)
Definition call (c : ascii) (st : state sm * Parser.t)
    : Outcome (state sm * Parser.t) :=
  let (q, this) := st in
  let (q', events) := transition sm q c in
  deliverAll pf events this >>= fun this' => Returned (q', this') [].

(** The loop [for (i = 0; i < length; i++) stateMachine(playlist[i])]. *)
Fixpoint feed (chars : string) (st : state sm * Parser.t)
    : Outcome (state sm * Parser.t) :=
  match chars with
  | EmptyString => Returned st []
  | String c rest => call c st >>= feed rest
  end.

Definition transitionToNewLine (st : state sm * Parser.t)
    : Outcome (state sm * Parser.t) :=
  call newline st.

(** *** class FullPlaylistParser *)

Definition parseFullPlaylistString (playlist : string)
    (options : ParseOptions.t) (this : Parser.t)
    : Outcome (ParsedPlaylist.t * Parser.t) :=
  let this := gatherParseOptions options this in
  let stateMachine := initial sm in
  feed playlist (stateMachine, this) >>= fun st =>
  transitionToNewLine st >>= fun st =>
  Returned (clean (snd st)) [].

(** [String.fromCharCode] of each byte, then the same loop. *)
Definition parseFullPlaylistBuffer (playlist : list ascii)
    (options : ParseOptions.t) (this : Parser.t)
    : Outcome (ParsedPlaylist.t * Parser.t) :=
  parseFullPlaylistString (string_of_list_ascii playlist) options this.

(** *** class ProgressiveParser *)

Record ProgressiveParser : Type := {
  base : Parser.t;
  stateMachine : option (state sm)
}.

Definition createProgressive (options : ParserOptions.t) : ProgressiveParser :=
  {| base := Parser.constructor options; stateMachine := None |}.

Definition pushString (chunk : string) (options : ParseOptions.t)
    (this : ProgressiveParser) : Outcome ProgressiveParser :=
  let parser := gatherParseOptions options (base this) in
  let machine :=
    match stateMachine this with
    | None => initial sm
    | Some q => q
    end in
  feed chunk (machine, parser) >>= fun st =>
  Returned {| base := snd st; stateMachine := Some (fst st) |} [].

Definition pushBuffer (chunk : list ascii) (options : ParseOptions.t)
    (this : ProgressiveParser) : Outcome ProgressiveParser :=
  pushString (string_of_list_ascii chunk) options this.

Definition done (this : ProgressiveParser)
    : Outcome (ParsedPlaylist.t * ProgressiveParser) :=
  (match stateMachine this with
   | Some q =>
       transitionToNewLine (q, base this) >>= fun st => Returned (snd st) []
   | None => Returned (base this) []
   end) >>= fun parser =>
  let (playlist, parser) := clean parser in
  Returned (playlist, {| base := parser; stateMachine := None |}) [].

(** [pushString] of every chunk with the same options. *)
Fixpoint pushAll (chunks : list string) (options : ParseOptions.t)
    (this : ProgressiveParser) : Outcome ProgressiveParser :=
  match chunks with
  | [] => Returned this []
  | chunk :: rest => pushString chunk options this >>= pushAll rest options
  end.

Definition parseProgressively (chunks : list string)
    (options : ParseOptions.t) (this : ProgressiveParser)
    : Outcome (ParsedPlaylist.t * ProgressiveParser) :=
  pushAll chunks options this >>= done.

End Facades.

(** ** The character scanner of the specification *)

Module Scanner.

Definition quote : ascii := "034"%char.

Definition snoc (s : string) (c : ascii) : string := s ++ String c EmptyString.

(** Modelled from the spec: section 4.2, [unquote(v)] strips a single
    surrounding pair of double quotes if present. *)
Definition unquote (v : string) : string :=
  match v with
  | String c rest =>
      match String.length rest with
      | S n =>
          if (Ascii.eqb c quote
              && String.eqb (String.substring n 1 rest)
                   (String quote EmptyString))%bool
          then String.substring 0 n rest
          else v
      | O => v
      end
  | EmptyString => v
  end.

(** Modelled from the spec: section 4.2, the attribute lexer.  It walks the
    body with a quoted flag and two buffers, starting in key mode; a double
    quote toggles the flag; an unquoted [=] in key mode switches to value
    mode; an unquoted [,] in value mode commits the pair; the end of the
    input commits the final pair. *)
Fixpoint lexAttributes (body : string) (quoted inValue : bool)
    (keyBuf valBuf : string) (attributes : StringMap) : StringMap :=
  match body with
  | EmptyString => Js.set keyBuf (unquote valBuf) attributes
  | String c rest =>
      if Ascii.eqb c quote then
        if inValue
        then lexAttributes rest (negb quoted) inValue keyBuf (snoc valBuf c)
               attributes
        else lexAttributes rest (negb quoted) inValue (snoc keyBuf c) valBuf
               attributes
      else if (negb quoted && negb inValue && Ascii.eqb c "=")%bool then
        lexAttributes rest quoted true keyBuf valBuf attributes
      else if (negb quoted && inValue && Ascii.eqb c ",")%bool then
        lexAttributes rest quoted false EmptyString EmptyString
          (Js.set keyBuf (unquote valBuf) attributes)
      else if inValue
      then lexAttributes rest quoted inValue keyBuf (snoc valBuf c) attributes
      else lexAttributes rest quoted inValue (snoc keyBuf c) valBuf attributes
  end.

(** Modelled from the spec: section 4.1, state S3: the body is an attribute
    list when an [=] appears before the first unquoted comma and before the
    end of the line. *)
Fixpoint isAttributeList (body : string) (quoted : bool) : bool :=
  match body with
  | EmptyString => false
  | String c rest =>
      if Ascii.eqb c quote then isAttributeList rest (negb quoted)
      else if quoted then isAttributeList rest quoted
      else if Ascii.eqb c "=" then true
      else if Ascii.eqb c "," then false
      else isAttributeList rest quoted
  end.

(** Modelled from the spec: section 4.1, the states S0 to S4; a comment is
    absorbed in a state of its own. *)
Inductive State : Type :=
| LineStart
| TagStartMaybe
| Comment
| TagNameOrBody (name : string)
| TagBody (name body : string)
| UriAccumulate (line : string).

(** Modelled from the spec: section 4.1, the event emitted on the newline
    that ends a tag line with a body. *)
Definition tagRecognized (name body : string) : ScanEvent :=
  if isAttributeList body false
  then TagInfo name None (lexAttributes body false false "" "" [])
  else TagInfo name (Some body) [].

(** Modelled from the spec: section 4.1, one character per call and at most
    one event per call. *)
Definition transition (q : State) (c : ascii) : State * list ScanEvent :=
  match q with
  | LineStart =>
      if Ascii.eqb c "#" then (TagStartMaybe, [])
      else if Js.isSpace c then (LineStart, [])
      else (UriAccumulate (String c EmptyString), [])
  | TagStartMaybe =>
      if Ascii.eqb c newline then (LineStart, [])
      else if Ascii.eqb c "E" then (TagNameOrBody (String c EmptyString), [])
      else (Comment, [])
  | Comment => if Ascii.eqb c newline then (LineStart, []) else (Comment, [])
  | TagNameOrBody name =>
      if Ascii.eqb c ":" then (TagBody name EmptyString, [])
      else if Ascii.eqb c newline then (LineStart, [TagInfo name None []])
      else (TagNameOrBody (snoc name c), [])
  | TagBody name body =>
      if Ascii.eqb c newline then (LineStart, [tagRecognized name body])
      else (TagBody name (snoc body c), [])
  | UriAccumulate line =>
      if Ascii.eqb c newline then (LineStart, [UriInfo (Js.trim line)])
      else (UriAccumulate (snoc line c), [])
  end.

(** Modelled from the spec: [stateMachine.ts] is not among the sources; this
    is the scanner of section 4.1 with the lexer of section 4.2. *)
Definition createStateMachine : StateMachine :=
  Build_StateMachine State LineStart transition.

End Scanner.

(** ** A platform and inputs for the examples *)

Module Sample.

Definition digit (c : ascii) : option Z :=
  let n := Z.of_nat (nat_of_ascii c) in
  if (48 <=? n)%Z && (n <=? 57)%Z then Some (n - 48)%Z else None.

(** Decimal digits only. *)
Fixpoint digits (s : string) (acc : Z) : option Z :=
  match s with
  | EmptyString => Some acc
  | String c rest =>
      match digit c with
      | Some d => digits rest (acc * 10 + d)
      | None => None
      end
  end.

Definition integer (s : string) : option Z :=
  match s with
  | EmptyString => None
  | _ => digits s 0
  end.

(** [123] or [123.45]. *)
Definition decimal (s : string) : option Q :=
  match Js.split "." s with
  | [whole] => option_map inject_Z (integer whole)
  | [whole; fraction] =>
      match integer whole, integer fraction with
      | Some w, Some f =>
          Some
            (inject_Z w
             + Qmake f (Pos.pow 10 (Pos.of_nat (String.length fraction))))%Q
      | _, _ => None
      end
  | _ => None
  end.

Definition number (s : string) : Js.number :=
  match decimal s with
  | Some q => Js.Num q
  | None => Js.NaN
  end.

Definition yesNo (x : option string) (fallback : bool) : bool :=
  match x with
  | Some "YES" => true
  | Some "NO" => false
  | _ => fallback
  end.

(** A relative reference is appended to a non-empty base. *)
Definition resolve (uri baseUrl : string) : option string :=
  match baseUrl with
  | EmptyString => None
  | _ => Some (baseUrl ++ uri)
  end.

Definition platform : Platform :=
  {| Number := number;
     parseBoolean := yesNo;
     parseHex := fun _ => [];
     Date_parse := fun _ => Js.NaN;
     resolveUri := resolve;
     substituteVariables := fun s _ => (s, []);
     searchParam := fun _ _ => None;
     numberToString := fun _ => "?";
     parseInteger := integer;
     parseFloat := decimal;
     parseDate := fun s => option_map inject_Z (integer s) |}.

Definition options : ParseOptions.t :=
  ParseOptions.mk "https://example.com/" None None.

Definition LF : string := String newline EmptyString.

(** Scenario 1 of section 8.2. *)
Definition minimalVod : string :=
  "#EXTM3U" ++ LF ++ "#EXT-X-TARGETDURATION:6" ++ LF ++ "#EXTINF:5.0," ++ LF
    ++ "a.ts" ++ LF ++ "#EXTINF:5.0," ++ LF ++ "b.ts" ++ LF ++ "#EXT-X-ENDLIST".

Definition fullParse (text : string) (parserOptions : ParserOptions.t)
    : Outcome (ParsedPlaylist.t * Parser.t) :=
  parseFullPlaylistString platform Scanner.createStateMachine text options
    (Parser.constructor parserOptions).

End Sample.

(** * Properties *)

(** ** What the built-in processors leave alone *)

(** The parts of the playlist and of the shared state that only the URI
    callback and [gatherParseOptions] write: the two output sequences, the
    custom mapping and the parse options.  The multivariant flag is only
    ever raised. *)
Definition Untouched (playlist : ParsedPlaylist.t) (sharedState : SharedState.t)
    (r : Processed) : Prop :=
  match r with
  | Returned (playlist', sharedState') _ =>
      playlist'.(ParsedPlaylist.segments) = playlist.(ParsedPlaylist.segments)
      /\ playlist'.(ParsedPlaylist.variantStreams)
         = playlist.(ParsedPlaylist.variantStreams)
      /\ playlist'.(ParsedPlaylist.custom) = playlist.(ParsedPlaylist.custom)
      /\ sharedState'.(SharedState.baseUrl) = sharedState.(SharedState.baseUrl)
      /\ sharedState'.(SharedState.baseTime) = sharedState.(SharedState.baseTime)
      /\ sharedState'.(SharedState.baseDefine)
         = sharedState.(SharedState.baseDefine)
      /\ (sharedState.(SharedState.isMultivariantPlaylist) = true ->
          sharedState'.(SharedState.isMultivariantPlaylist) = true)
  | Threw _ => True
  end.

(** Case analysis on the innermost scrutinee first. *)
Ltac split_cases :=
  repeat match goal with
         | |- context [match ?x with _ => _ end] =>
             lazymatch x with
             | context [match _ with _ => _ end] => fail
             | _ => destruct x eqn:?; cbv beta iota zeta
             end
         end.

Ltac untouched :=
  intros; unfold Untouched; split_cases;
  repeat split; try reflexivity; try (intro; assumption); auto.

Lemma untouched_unchanged playlist sharedState out :
  Untouched playlist sharedState (Returned (playlist, sharedState) out).
Proof. untouched. Qed.

Lemma ExtXStart_untouched pf a pl ss :
  Untouched pl ss (ExtXStart.safeProcess pf a pl ss).
Proof. unfold ExtXStart.safeProcess. untouched. Qed.

Lemma ExtXPartInf_untouched pf a pl ss :
  Untouched pl ss (ExtXPartInf.safeProcess pf a pl ss).
Proof. unfold ExtXPartInf.safeProcess. untouched. Qed.

Lemma ExtXServerControl_untouched pf a pl ss :
  Untouched pl ss (ExtXServerControl.safeProcess pf a pl ss).
Proof. unfold ExtXServerControl.safeProcess. untouched. Qed.

Lemma ExtXKey_untouched pf a pl ss :
  Untouched pl ss (ExtXKey.safeProcess pf a pl ss).
Proof. unfold ExtXKey.safeProcess. untouched. Qed.

Lemma ExtXMap_untouched pf a pl ss :
  Untouched pl ss (ExtXMap.safeProcess pf a pl ss).
Proof. unfold ExtXMap.safeProcess. untouched. Qed.

Lemma ExtXPart_untouched pf a pl ss :
  Untouched pl ss (ExtXPart.safeProcess pf a pl ss).
Proof. unfold ExtXPart.safeProcess. untouched. Qed.

Lemma ExtXSkip_untouched pf a pl ss :
  Untouched pl ss (ExtXSkip.safeProcess pf a pl ss).
Proof. unfold ExtXSkip.safeProcess. untouched. Qed.

Lemma ExtXMedia_untouched pf a pl ss :
  Untouched pl ss (ExtXMedia.safeProcess pf a pl ss).
Proof.
  unfold ExtXMedia.safeProcess. untouched;
    unfold ExtXMedia.set_group; split_cases; reflexivity.
Qed.

Lemma ExtXStreamInf_untouched pf a pl ss :
  Untouched pl ss (ExtXStreamInf.safeProcess pf a pl ss).
Proof. unfold ExtXStreamInf.safeProcess. untouched. Qed.

Lemma ExtXIFrameStreamInf_untouched pf a pl ss :
  Untouched pl ss (ExtXIFrameStreamInf.safeProcess pf a pl ss).
Proof. unfold ExtXIFrameStreamInf.safeProcess. untouched. Qed.

Lemma ExtXDateRange_untouched pf a pl ss :
  Untouched pl ss (ExtXDateRange.safeProcess pf a pl ss).
Proof. unfold ExtXDateRange.safeProcess. untouched. Qed.

Lemma ExtXPreloadHint_untouched pf a pl ss :
  Untouched pl ss (ExtXPreloadHint.safeProcess pf a pl ss).
Proof. unfold ExtXPreloadHint.safeProcess. untouched. Qed.

Lemma ExtXRenditionReport_untouched pf a pl ss :
  Untouched pl ss (ExtXRenditionReport.safeProcess pf a pl ss).
Proof. unfold ExtXRenditionReport.safeProcess. untouched. Qed.

Lemma ExtXSessionData_untouched pf a pl ss :
  Untouched pl ss (ExtXSessionData.safeProcess pf a pl ss).
Proof. unfold ExtXSessionData.safeProcess. untouched. Qed.

Lemma ExtXSessionKey_untouched pf a pl ss :
  Untouched pl ss (ExtXSessionKey.safeProcess pf a pl ss).
Proof. unfold ExtXSessionKey.safeProcess. untouched. Qed.

Lemma ExtXContentSteering_untouched pf a pl ss :
  Untouched pl ss (ExtXContentSteering.safeProcess pf a pl ss).
Proof. unfold ExtXContentSteering.safeProcess. untouched. Qed.

Lemma ExtXDefine_untouched pf a pl ss :
  Untouched pl ss (ExtXDefine.safeProcess pf a pl ss).
Proof.
  unfold ExtXDefine.safeProcess, ExtXDefine.processQueryParam,
    ExtXDefine.processImport, ExtXDefine.processName.
  untouched.
Qed.

Lemma integerTag_untouched pf tag assign :
  (forall value pl ss,
      Untouched pl ss (Returned (assign value (pl, ss)) [])) ->
  forall value pl ss,
    Untouched pl ss (ValueTags.integerTag pf tag assign value pl ss).
Proof.
  intros H value pl ss. unfold ValueTags.integerTag.
  destruct (parseInteger pf value); [apply H | apply untouched_unchanged].
Qed.

Lemma emptyTagMap_untouched k processor :
  Js.get k emptyTagMap = Some processor ->
  forall pl ss, Untouched pl ss (processor pl ss).
Proof.
  unfold emptyTagMap. cbn [Js.get]. intros H pl ss.
  repeat match type of H with
         | (if ?c then _ else _) = _ => destruct c
         end;
    inversion H; subst; clear H;
    unfold EmptyTags.ExtM3u, EmptyTags.ExtXIndependentSegments,
      EmptyTags.ExtXEndList, EmptyTags.ExtXIframesOnly,
      EmptyTags.ExtXDiscontinuity, EmptyTags.ExtXGap;
    untouched.
Qed.

Lemma tagValueMap_untouched pf k processor :
  Js.get k (tagValueMap pf) = Some processor ->
  forall value pl ss, Untouched pl ss (processor value pl ss).
Proof.
  unfold tagValueMap. cbn [Js.get]. intros H value pl ss.
  repeat match type of H with
         | (if ?c then _ else _) = _ => destruct c
         end;
    inversion H; subst; clear H;
    unfold ValueTags.ExtXVersion, ValueTags.ExtXTargetDuration,
      ValueTags.ExtXMediaSequence, ValueTags.ExtXDiscontinuitySequence,
      ValueTags.ExtXBitrate;
    try (apply integerTag_untouched; untouched);
    unfold ValueTags.ExtXPlaylistType, ValueTags.ExtInf,
      ValueTags.ExtXProgramDateTime, ValueTags.ExtXByteRange;
    untouched.
Qed.

Lemma process_untouched pf P attributes pl ss :
  (forall a, Untouched pl ss (P.(TagWithAttributesProcessor.safeProcess) a pl ss)) ->
  Untouched pl ss (TagWithAttributesProcessor.process pf P attributes pl ss).
Proof.
  intros H. unfold TagWithAttributesProcessor.process.
  destruct (TagWithAttributesProcessor.checkRequiredAttributes P attributes)
    as [missed out].
  destruct missed; [apply untouched_unchanged |].
  destruct (TagWithAttributesProcessor.runVariableSubstitution pf P attributes
              pl ss) as [substituted out'].
  specialize (H substituted). unfold andThen.
  destruct (TagWithAttributesProcessor.safeProcess P substituted pl ss)
    as [[pl' ss'] out'' | e]; [exact H | exact I].
Qed.

Lemma tagAttributesMap_untouched pf k P :
  Js.get k (tagAttributesMap pf) = Some P ->
  forall a pl ss,
    Untouched pl ss (P.(TagWithAttributesProcessor.safeProcess) a pl ss).
Proof.
  unfold tagAttributesMap. cbn [Js.get]. intros H a pl ss.
  repeat match type of H with
         | (if ?c then _ else _) = _ => destruct c
         end;
    inversion H; subst; clear H;
    first
      [ apply ExtXStart_untouched | apply ExtXPartInf_untouched
      | apply ExtXServerControl_untouched | apply ExtXKey_untouched
      | apply ExtXMap_untouched | apply ExtXPart_untouched
      | apply ExtXMedia_untouched | apply ExtXStreamInf_untouched
      | apply ExtXSkip_untouched | apply ExtXIFrameStreamInf_untouched
      | apply ExtXDateRange_untouched | apply ExtXPreloadHint_untouched
      | apply ExtXRenditionReport_untouched | apply ExtXSessionData_untouched
      | apply ExtXSessionKey_untouched | apply ExtXContentSteering_untouched
      | apply ExtXDefine_untouched ].
Qed.

(** ** One callback call, seen from the parser *)

Definition sameOptions (s s' : SharedState.t) : Prop :=
  s'.(SharedState.baseUrl) = s.(SharedState.baseUrl)
  /\ s'.(SharedState.baseTime) = s.(SharedState.baseTime)
  /\ s'.(SharedState.baseDefine) = s.(SharedState.baseDefine).

Definition raised (s s' : SharedState.t) : Prop :=
  s.(SharedState.isMultivariantPlaylist) = true ->
  s'.(SharedState.isMultivariantPlaylist) = true.

(** Every handler of the custom tag map relates the shared state it is
    handed to the one it leaves by [R]. *)
Definition handlersKeep (R : SharedState.t -> SharedState.t -> Prop)
    (handlers : Js.Dict CustomTagProcessor) : Prop :=
  forall k handler,
    Js.get k handlers = Some handler ->
    forall tagKey tagValue tagAttributes custom sharedState,
      R sharedState
        (snd (handler tagKey tagValue tagAttributes custom sharedState)).

(** The fields the constructor sets once. *)
Definition sameConfig (this this' : Parser.t) : Prop :=
  this'.(Parser.customTagMap) = this.(Parser.customTagMap)
  /\ this'.(Parser.ignoreTags) = this.(Parser.ignoreTags)
  /\ this'.(Parser.transformTagValue) = this.(Parser.transformTagValue)
  /\ this'.(Parser.transformTagAttributes) = this.(Parser.transformTagAttributes).

Lemma sameConfig_refl this : sameConfig this this.
Proof. repeat split. Qed.

Lemma sameConfig_trans a b c : sameConfig a b -> sameConfig b c -> sameConfig a c.
Proof.
  unfold sameConfig. intros (H1 & H2 & H3 & H4) (G1 & G2 & G3 & G4).
  repeat split; congruence.
Qed.

Lemma andThen_returned {A B} (x : Outcome A) (f : A -> Outcome B) b out :
  x >>= f = Returned b out ->
  exists a o o', x = Returned a o /\ f a = Returned b o' /\ out = (o ++ o')%list.
Proof.
  unfold andThen. destruct x as [a o | e]; [| discriminate].
  destruct (f a) as [b' o' | e] eqn:E; [| discriminate].
  intros H. inversion H; subst. exists a, o, o'. auto.
Qed.

Lemma andThen_threw_left {A B} (f : A -> Outcome B) e : Threw e >>= f = Threw e.
Proof. reflexivity. Qed.

Lemma andThen_assoc {A B C} (x : Outcome A) (f : A -> Outcome B)
    (g : B -> Outcome C) :
  (x >>= f) >>= g = x >>= (fun a => f a >>= g).
Proof.
  unfold andThen. destruct x as [a o | e]; [| reflexivity].
  destruct (f a) as [b o' | e]; [| reflexivity].
  destruct (g b) as [c o'' | e]; [| reflexivity].
  now rewrite app_assoc.
Qed.

Lemma andThen_unit_right {A} (x : Outcome A) :
  x >>= (fun a => Returned a []) = x.
Proof.
  unfold andThen. destruct x as [a o | e]; [| reflexivity].
  now rewrite app_nil_r.
Qed.

Lemma andThen_unit_left {A B} (a : A) (f : A -> Outcome B) :
  Returned a [] >>= f = f a.
Proof. unfold andThen. destruct (f a); reflexivity. Qed.

Lemma commit_untouched this r this' out :
  Untouched this.(Parser.parsedPlaylist) this.(Parser.sharedState) r ->
  commit this r = Returned this' out ->
  sameConfig this this'
  /\ this'.(Parser.parsedPlaylist).(ParsedPlaylist.segments)
     = this.(Parser.parsedPlaylist).(ParsedPlaylist.segments)
  /\ this'.(Parser.parsedPlaylist).(ParsedPlaylist.variantStreams)
     = this.(Parser.parsedPlaylist).(ParsedPlaylist.variantStreams)
  /\ sameOptions this.(Parser.sharedState) this'.(Parser.sharedState)
  /\ raised this.(Parser.sharedState) this'.(Parser.sharedState).
Proof.
  unfold commit, Untouched.
  destruct r as [[pl ss] o | e]; [| discriminate].
  intros (H1 & H2 & H3 & H4 & H5 & H6 & H7) H. inversion H; subst.
  unfold sameOptions, raised. repeat split; assumption.
Qed.

(** A tag never touches the two output sequences nor the constructor's
    fields; it keeps the parse options and the multivariant flag as long as
    the custom handlers do. *)
Definition tagFrame (this this' : Parser.t) : Prop :=
  sameConfig this this'
  /\ this'.(Parser.parsedPlaylist).(ParsedPlaylist.segments)
     = this.(Parser.parsedPlaylist).(ParsedPlaylist.segments)
  /\ this'.(Parser.parsedPlaylist).(ParsedPlaylist.variantStreams)
     = this.(Parser.parsedPlaylist).(ParsedPlaylist.variantStreams)
  /\ (handlersKeep sameOptions this.(Parser.customTagMap) ->
      sameOptions this.(Parser.sharedState) this'.(Parser.sharedState))
  /\ (handlersKeep raised this.(Parser.customTagMap) ->
      raised this.(Parser.sharedState) this'.(Parser.sharedState)).

Lemma tagFrame_refl this : tagFrame this this.
Proof.
  unfold tagFrame, sameOptions, raised.
  split; [apply sameConfig_refl | repeat split; auto].
Qed.

Lemma tagFrame_commit this r this' out :
  Untouched this.(Parser.parsedPlaylist) this.(Parser.sharedState) r ->
  commit this r = Returned this' out ->
  tagFrame this this'.
Proof.
  intros U C. destruct (commit_untouched _ _ _ _ U C) as (A & B & D & F & G).
  unfold tagFrame. auto 6.
Qed.

Lemma tagInfoCallback_frame pf tagKey tagValue tagAttributes this this' out :
  tagInfoCallback pf tagKey tagValue tagAttributes this = Returned this' out ->
  tagFrame this this'.
Proof.
  unfold tagInfoCallback. intros H.
  apply andThen_returned in H.
  destruct H as (this0 & o & o' & E & H & _). inversion E; subst this0 o; clear E.
  destruct (existsb (String.eqb tagKey) (Parser.ignoreTags this)).
  { inversion H; subst. apply tagFrame_refl. }
  destruct (Js.get tagKey emptyTagMap) as [processor |] eqn:Empty.
  { eapply tagFrame_commit; [| exact H]. eapply emptyTagMap_untouched; eauto. }
  destruct (Js.get tagKey (tagValueMap pf)) as [processor |] eqn:Value.
  { destruct (Parser.transformTagValue this tagKey tagValue) as [value |].
    - eapply tagFrame_commit; [| exact H].
      eapply tagValueMap_untouched; eauto.
    - inversion H; subst. apply tagFrame_refl. }
  destruct (Js.get tagKey (tagAttributesMap pf)) as [P |] eqn:Attributes.
  { eapply tagFrame_commit; [| exact H]. apply process_untouched.
    intros a. eapply tagAttributesMap_untouched; eauto. }
  destruct (Js.get tagKey (Parser.customTagMap this)) as [handler |] eqn:Custom.
  { destruct (handler tagKey tagValue tagAttributes
                (ParsedPlaylist.custom (Parser.parsedPlaylist this))
                (Parser.sharedState this)) as [custom sharedState] eqn:Call.
    inversion H; subst.
    assert (K : forall R, handlersKeep R (Parser.customTagMap this) ->
                          R (Parser.sharedState this) sharedState).
    { intros R K.
      specialize (K _ _ Custom tagKey tagValue tagAttributes
                    (ParsedPlaylist.custom (Parser.parsedPlaylist this))
                    (Parser.sharedState this)).
      rewrite Call in K. exact K. }
    unfold tagFrame.
    split; [repeat split |].
    split; [reflexivity |]. split; [reflexivity |].
    split; intros G; exact (K _ G). }
  inversion H; subst. apply tagFrame_refl.
Qed.

(** ** The URI callback *)

Lemma last_app {A} (l : list A) x : Js.last (l ++ [x]) = Some x.
Proof.
  unfold Js.last. rewrite map_app. cbn [map]. apply last_last.
Qed.

Lemma last_nth {A} (l : list A) :
  Js.last l = match l with
              | [] => None
              | _ :: _ => nth_error l (length l - 1)%nat
              end.
Proof.
  unfold Js.last. induction l as [| a l IH]; [reflexivity |].
  destruct l as [| b l]; [reflexivity |].
  change (last (map Some (a :: b :: l)) None) with (last (map Some (b :: l)) None).
  rewrite IH. cbn [length].
  replace (S (S (length l)) - 1)%nat with (S (length l)) by lia.
  cbn [nth_error]. replace (S (length l) - 1)%nat with (length l) by lia.
  reflexivity.
Qed.

(** The blocks of [handleCurrentSegment], one function per block, for the
    proofs; [handleCurrentSegment_blocks] shows that they compose to the
    function itself. *)
Definition assignFromState (sharedState : SharedState.t)
    (uri resolvedUri : string) (s : Segment.t) : Segment.t :=
  Segment.set_startTime sharedState.(SharedState.baseTime)
    (Segment.set_resolvedUri resolvedUri
       (Segment.set_uri uri
          (Segment.set_map sharedState.(SharedState.currentMap)
             (Segment.set_encryption sharedState.(SharedState.currentEncryption)
                s)))).

Definition linkToPrevious (previousSegment : option Segment.t) (s : Segment.t)
    : Segment.t :=
  match previousSegment with
  | Some previous =>
      let s :=
        Segment.set_mediaSequence (previous.(Segment.mediaSequence) + 1)%float s in
      let s := Segment.set_startTime previous.(Segment.endTime) s in
      if s.(Segment.isDiscontinuity) then
        Segment.set_discontinuitySequence
          (previous.(Segment.discontinuitySequence) + 1)%float s
      else
        Segment.set_discontinuitySequence
          previous.(Segment.discontinuitySequence) s
  | None => s
  end.

Definition closeTime (s : Segment.t) : Segment.t :=
  Segment.set_endTime (s.(Segment.startTime) + s.(Segment.duration)) s.

Definition applyBitrate (sharedState : SharedState.t) (s : Segment.t)
    : Segment.t :=
  if (Js.truthyNumber sharedState.(SharedState.currentBitrate)
      && match s.(Segment.byteRange) with Some _ => false | None => true end)%bool
  then Segment.set_bitrate sharedState.(SharedState.currentBitrate) s
  else s.

Definition extrapolateProgramDateTime (previousSegment : option Segment.t)
    (s : Segment.t) : Segment.t :=
  match previousSegment with
  | Some previous =>
      if (negb (Js.truthyQ s.(Segment.programDateTimeStart))
          && Js.truthyQ previous.(Segment.programDateTimeStart))%bool
      then
        match previous.(Segment.programDateTimeStart) with
        | Some start =>
            Segment.set_programDateTimeStart
              (Some (start + previous.(Segment.duration) * inject_Z 1000)) s
        | None => s
        end
      else s
  | None => s
  end.

Definition closeProgramDateTime (s : Segment.t) : Segment.t :=
  match s.(Segment.programDateTimeStart) with
  | Some start =>
      if Js.truthyQ (Some start) then
        Segment.set_programDateTimeEnd
          (Some (start + s.(Segment.duration) * inject_Z 1000)) s
      else s
  | None => s
  end.

Definition finalize (uri resolvedUri : string) (this : Parser.t) : Segment.t :=
  let previousSegment :=
    Js.last this.(Parser.parsedPlaylist).(ParsedPlaylist.segments) in
  closeProgramDateTime
    (extrapolateProgramDateTime previousSegment
       (applyBitrate this.(Parser.sharedState)
          (closeTime
             (linkToPrevious previousSegment
                (assignFromState this.(Parser.sharedState) uri resolvedUri
                   this.(Parser.sharedState).(SharedState.currentSegment)))))).

Definition durationWarning (pf : Platform) (uri : string) (this : Parser.t)
    : list Emitted :=
  match this.(Parser.parsedPlaylist).(ParsedPlaylist.targetDuration) with
  | Some targetDuration =>
      let duration :=
        this.(Parser.sharedState).(SharedState.currentSegment).(Segment.duration) in
      if exceeds duration targetDuration then
        [Warned
           (Warn.segmentDurationExceededTargetDuration uri
              (numberToString pf (duration - inject_Z targetDuration)))]
      else []
  | None => []
  end.

Lemma handleCurrentSegment_blocks pf uri resolvedUri this :
  handleCurrentSegment pf uri resolvedUri this
  = Returned
      (Parser.set_sharedState
         (SharedState.set_currentSegment createDefaultSegment
            this.(Parser.sharedState))
         (Parser.set_parsedPlaylist
            (ParsedPlaylist.set_segments
               (this.(Parser.parsedPlaylist).(ParsedPlaylist.segments)
                ++ [finalize uri resolvedUri this])
               this.(Parser.parsedPlaylist))
            this))
      (durationWarning pf uri this).
Proof. reflexivity. Qed.

(** The fields of a segment that the two program-date-time blocks do not
    write. *)
Definition sameCore (s s' : Segment.t) : Prop :=
  s'.(Segment.uri) = s.(Segment.uri)
  /\ s'.(Segment.resolvedUri) = s.(Segment.resolvedUri)
  /\ s'.(Segment.duration) = s.(Segment.duration)
  /\ s'.(Segment.isDiscontinuity) = s.(Segment.isDiscontinuity)
  /\ s'.(Segment.byteRange) = s.(Segment.byteRange)
  /\ s'.(Segment.bitrate) = s.(Segment.bitrate)
  /\ s'.(Segment.mediaSequence) = s.(Segment.mediaSequence)
  /\ s'.(Segment.discontinuitySequence) = s.(Segment.discontinuitySequence)
  /\ s'.(Segment.startTime) = s.(Segment.startTime)
  /\ s'.(Segment.endTime) = s.(Segment.endTime).

Lemma sameCore_refl s : sameCore s s.
Proof. repeat split. Qed.

Lemma extrapolateProgramDateTime_core previousSegment s :
  sameCore s (extrapolateProgramDateTime previousSegment s).
Proof.
  unfold extrapolateProgramDateTime.
  destruct previousSegment as [previous |]; [| apply sameCore_refl].
  destruct (_ && _)%bool; [| apply sameCore_refl].
  destruct (Segment.programDateTimeStart previous); repeat split.
Qed.

Lemma closeProgramDateTime_core s : sameCore s (closeProgramDateTime s).
Proof.
  unfold closeProgramDateTime.
  destruct (Segment.programDateTimeStart s) as [start |]; [| apply sameCore_refl].
  destruct (Js.truthyQ (Some start)); repeat split.
Qed.

(** What [handleCurrentSegment] appends, field by field. *)
Record Finalized (uri resolvedUri : string) (this : Parser.t) (s : Segment.t)
    : Prop := {
  fin_uri : s.(Segment.uri) = uri;
  fin_resolvedUri : s.(Segment.resolvedUri) = resolvedUri;
  fin_duration :
    s.(Segment.duration)
    = this.(Parser.sharedState).(SharedState.currentSegment).(Segment.duration);
  fin_isDiscontinuity :
    s.(Segment.isDiscontinuity)
    = this.(Parser.sharedState).(SharedState.currentSegment).(Segment.isDiscontinuity);
  fin_byteRange :
    s.(Segment.byteRange)
    = this.(Parser.sharedState).(SharedState.currentSegment).(Segment.byteRange);
  fin_endTime :
    s.(Segment.endTime) = (s.(Segment.startTime) + s.(Segment.duration))%Q;
  fin_bitrate :
    s.(Segment.bitrate)
    = if (Js.truthyNumber this.(Parser.sharedState).(SharedState.currentBitrate)
          && match s.(Segment.byteRange) with
             | Some _ => false
             | None => true
             end)%bool
      then this.(Parser.sharedState).(SharedState.currentBitrate)
      else this.(Parser.sharedState).(SharedState.currentSegment).(Segment.bitrate);
  fin_first :
    Js.last this.(Parser.parsedPlaylist).(ParsedPlaylist.segments) = None ->
    s.(Segment.startTime) = this.(Parser.sharedState).(SharedState.baseTime)
    /\ s.(Segment.mediaSequence)
       = this.(Parser.sharedState).(SharedState.currentSegment).(Segment.mediaSequence)
    /\ s.(Segment.discontinuitySequence)
       = this.(Parser.sharedState).(SharedState.currentSegment).(Segment.discontinuitySequence);
  fin_next :
    forall previous,
      Js.last this.(Parser.parsedPlaylist).(ParsedPlaylist.segments)
      = Some previous ->
      s.(Segment.mediaSequence) = (previous.(Segment.mediaSequence) + 1)%float
      /\ s.(Segment.startTime) = previous.(Segment.endTime)
      /\ s.(Segment.discontinuitySequence)
         = if s.(Segment.isDiscontinuity)
           then (previous.(Segment.discontinuitySequence) + 1)%float
           else previous.(Segment.discontinuitySequence)
}.

Lemma blocks_Finalized uri resolvedUri this :
  Finalized uri resolvedUri this
    (applyBitrate this.(Parser.sharedState)
       (closeTime
          (linkToPrevious
             (Js.last this.(Parser.parsedPlaylist).(ParsedPlaylist.segments))
             (assignFromState this.(Parser.sharedState) uri resolvedUri
                this.(Parser.sharedState).(SharedState.currentSegment))))).
Proof.
  destruct this as [handlers ignored onValue onAttributes playlist sharedState].
  destruct sharedState
    as [current variant key init rate baseUrl baseTime baseDefine vars multi].
  destruct current
    as [u r d title range bitrate disc gap enc map parts pdtStart pdtEnd
          sequence discSequence startTime endTime].
  cbn [Parser.sharedState Parser.parsedPlaylist SharedState.currentSegment].
  unfold applyBitrate, closeTime, linkToPrevious, assignFromState,
    Js.truthyNumber.
  destruct (Js.last (ParsedPlaylist.segments playlist)) as [previous |] eqn:Last;
    destruct disc; destruct range as [range |];
    destruct rate as [rate |]; try destruct (Js.truthyDouble rate) eqn:Rate;
    constructor; cbn; rewrite ?Rate, ?Last; cbn;
    try reflexivity;
    try (intros E; discriminate E);
    try (intros previous' E; inversion E; subst previous');
    repeat split.
Qed.

Lemma finalize_Finalized uri resolvedUri this :
  Finalized uri resolvedUri this (finalize uri resolvedUri this).
Proof.
  unfold finalize. cbv zeta.
  pose proof (blocks_Finalized uri resolvedUri this) as Core.
  set (s := applyBitrate _ _) in *.
  destruct (closeProgramDateTime_core
              (extrapolateProgramDateTime
                 (Js.last (ParsedPlaylist.segments (Parser.parsedPlaylist this)))
                 s))
    as (A1 & A2 & A3 & A4 & A5 & A6 & A7 & A8 & A9 & A10).
  destruct (extrapolateProgramDateTime_core
              (Js.last (ParsedPlaylist.segments (Parser.parsedPlaylist this))) s)
    as (B1 & B2 & B3 & B4 & B5 & B6 & B7 & B8 & B9 & B10).
  destruct Core as [C1 C2 C3 C4 C5 C6 C7 C8 C9].
  constructor.
  - congruence.
  - congruence.
  - congruence.
  - congruence.
  - congruence.
  - rewrite A10, B10, A9, B9, A3, B3. exact C6.
  - rewrite A6, B6, A5, B5. exact C7.
  - intros E. destruct (C8 E) as (X & Y & Z). repeat split; congruence.
  - intros previous E. destruct (C9 previous E) as (X & Y & Z).
    rewrite A7, B7, A9, B9, A8, B8, A4, B4. auto.
Qed.

(** The URI after the substitution step of [uriInfoCallback], and the
    warnings of that step. *)
Definition substitutedUri (pf : Platform) (uri : string) (this : Parser.t)
    : string :=
  if this.(Parser.sharedState).(SharedState.hasVariablesForSubstitution)
  then
    fst (substituteVariables pf uri
           this.(Parser.parsedPlaylist).(ParsedPlaylist.define))
  else uri.

Definition substitutionWarnings (pf : Platform) (uri : string)
    (this : Parser.t) : list Emitted :=
  if this.(Parser.sharedState).(SharedState.hasVariablesForSubstitution)
  then
    List.map
      (fun variableName =>
         Warned
           (Warn.missingRequiredVariableForUriSubstitutionWarn uri variableName))
      (snd (substituteVariables pf uri
              this.(Parser.parsedPlaylist).(ParsedPlaylist.define)))
  else [].

Definition resolvedOrRaw (pf : Platform) (uri baseUrl : string) : string :=
  match resolveUri pf uri baseUrl with
  | Some resolved => resolved
  | None => uri
  end.

Definition resolutionWarning (pf : Platform) (uri baseUrl : string)
    : list Emitted :=
  match resolveUri pf uri baseUrl with
  | Some _ => []
  | None => [Warned (Warn.failedToResolveUri uri baseUrl)]
  end.

Definition withSegment (s : Segment.t) (this : Parser.t) : Parser.t :=
  Parser.set_sharedState
    (SharedState.set_currentSegment createDefaultSegment
       this.(Parser.sharedState))
    (Parser.set_parsedPlaylist
       (ParsedPlaylist.set_segments
          (this.(Parser.parsedPlaylist).(ParsedPlaylist.segments) ++ [s])
          this.(Parser.parsedPlaylist))
       this).

Definition finalizeVariant (uri resolvedUri : string) (this : Parser.t)
    : VariantStream.t :=
  let v := this.(Parser.sharedState).(SharedState.currentVariant) in
  VariantStream.set_common
    (BaseStreamInf.set_resolvedUri resolvedUri
       (BaseStreamInf.set_uri uri v.(VariantStream.common)))
    v.

Definition withVariant (v : VariantStream.t) (this : Parser.t) : Parser.t :=
  Parser.set_sharedState
    (SharedState.set_currentVariant createDefaultVariantStream
       this.(Parser.sharedState))
    (Parser.set_parsedPlaylist
       (ParsedPlaylist.set_variantStreams
          (this.(Parser.parsedPlaylist).(ParsedPlaylist.variantStreams) ++ [v])
          this.(Parser.parsedPlaylist))
       this).

Lemma handleCurrentVariant_blocks uri resolvedUri this :
  handleCurrentVariant uri resolvedUri this
  = Returned (withVariant (finalizeVariant uri resolvedUri this) this) [].
Proof. reflexivity. Qed.

(** [uriInfoCallback] always returns; its result, step by step. *)
Lemma uriInfoCallback_blocks pf uri this :
  let uri' := substitutedUri pf uri this in
  let baseUrl := this.(Parser.sharedState).(SharedState.baseUrl) in
  let resolvedUri := resolvedOrRaw pf uri' baseUrl in
  uriInfoCallback pf uri this
  = if this.(Parser.sharedState).(SharedState.isMultivariantPlaylist)
    then
      Returned (withVariant (finalizeVariant uri' resolvedUri this) this)
        (substitutionWarnings pf uri this ++ resolutionWarning pf uri' baseUrl)
    else
      Returned (withSegment (finalize uri' resolvedUri this) this)
        (substitutionWarnings pf uri this ++ resolutionWarning pf uri' baseUrl
           ++ durationWarning pf uri' this).
Proof.
  cbv zeta.
  unfold uriInfoCallback, substitutedUri, substitutionWarnings, resolvedOrRaw,
    resolutionWarning.
  destruct (SharedState.hasVariablesForSubstitution (Parser.sharedState this)).
  - destruct (substituteVariables pf uri
                (ParsedPlaylist.define (Parser.parsedPlaylist this)))
      as [result missing].
    cbn [fst snd].
    destruct (resolveUri pf result (SharedState.baseUrl (Parser.sharedState this)));
      destruct (SharedState.isMultivariantPlaylist (Parser.sharedState this));
      unfold andThen;
      rewrite ?handleCurrentVariant_blocks, ?handleCurrentSegment_blocks;
      rewrite ?app_nil_r, <- ?app_assoc; reflexivity.
  - destruct (resolveUri pf uri (SharedState.baseUrl (Parser.sharedState this)));
      destruct (SharedState.isMultivariantPlaylist (Parser.sharedState this));
      unfold andThen;
      rewrite ?handleCurrentVariant_blocks, ?handleCurrentSegment_blocks;
      rewrite ?app_nil_r, <- ?app_assoc; reflexivity.
Qed.

(** ** The claims *)

(** *** Resolution of a URI line *)

(** A warning made by [failedToResolveUri]: no other warning text of
    [warn.ts] starts with these words. *)
Definition isFailedToResolveUri (e : Emitted) : bool :=
  match e with
  | Warned message => String.prefix "Failed to resolve " message
  | Debugged _ _ _ => false
  end.

(** [uri] and [resolvedUri] of the segment or variant stream that was
    appended last. *)
Definition lastUris (this : Parser.t) : option (string * string) :=
  if this.(Parser.sharedState).(SharedState.isMultivariantPlaylist) then
    option_map
      (fun v =>
         (v.(VariantStream.common).(BaseStreamInf.uri),
          v.(VariantStream.common).(BaseStreamInf.resolvedUri)))
      (Js.last this.(Parser.parsedPlaylist).(ParsedPlaylist.variantStreams))
  else
    option_map (fun s => (s.(Segment.uri), s.(Segment.resolvedUri)))
      (Js.last this.(Parser.parsedPlaylist).(ParsedPlaylist.segments)).

Lemma substitutionWarnings_not_failed pf uri this :
  filter isFailedToResolveUri (substitutionWarnings pf uri this) = [].
Proof.
  unfold substitutionWarnings.
  destruct (SharedState.hasVariablesForSubstitution (Parser.sharedState this));
    [| reflexivity].
  induction (snd (substituteVariables pf uri
                    (ParsedPlaylist.define (Parser.parsedPlaylist this))))
    as [| variableName rest IH]; [reflexivity |].
  cbn [map filter]. rewrite IH. reflexivity.
Qed.

Lemma durationWarning_not_failed pf uri this :
  filter isFailedToResolveUri (durationWarning pf uri this) = [].
Proof.
  unfold durationWarning.
  destruct (ParsedPlaylist.targetDuration (Parser.parsedPlaylist this));
    [| reflexivity].
  cbv zeta. destruct (exceeds _ _); reflexivity.
Qed.

Lemma failedToResolveUri_is_failed uri baseUrl :
  isFailedToResolveUri (Warned (Warn.failedToResolveUri uri baseUrl)) = true.
Proof.
  unfold isFailedToResolveUri, Warn.failedToResolveUri. cbn [append String.prefix].
  repeat (destruct (ascii_dec _ _) as [_ | N]; [| exfalso; apply N; reflexivity]).
  destruct (uri ++ _); reflexivity.
Qed.

Lemma multivariant_withVariant v this :
  SharedState.isMultivariantPlaylist (Parser.sharedState (withVariant v this))
  = SharedState.isMultivariantPlaylist (Parser.sharedState this).
Proof. reflexivity. Qed.

Lemma multivariant_withSegment s this :
  SharedState.isMultivariantPlaylist (Parser.sharedState (withSegment s this))
  = SharedState.isMultivariantPlaylist (Parser.sharedState this).
Proof. reflexivity. Qed.

(** C7. For every uri-recognized event the callback returns; when resolving
    the post-substitution URI against [sharedState.baseUrl] gives null,
    exactly one failed-to-resolve warning is emitted and the appended segment
    or variant stream has the URI itself as [resolvedUri]; when it succeeds,
    no such warning is emitted and [resolvedUri] is the resolved value.  In
    both cases the [uri] field holds the post-substitution URI. *)
Theorem uriInfoCallback_resolution pf uri this :
  let uri' := substitutedUri pf uri this in
  let baseUrl := this.(Parser.sharedState).(SharedState.baseUrl) in
  exists this' out,
    uriInfoCallback pf uri this = Returned this' out
    /\ (resolveUri pf uri' baseUrl = None ->
        filter isFailedToResolveUri out
        = [Warned (Warn.failedToResolveUri uri' baseUrl)]
        /\ lastUris this' = Some (uri', uri'))
    /\ (forall resolved,
           resolveUri pf uri' baseUrl = Some resolved ->
           filter isFailedToResolveUri out = []
           /\ lastUris this' = Some (uri', resolved)).
Proof.
  cbv zeta. rewrite uriInfoCallback_blocks. cbv zeta.
  set (uri' := substitutedUri pf uri this).
  set (baseUrl := SharedState.baseUrl (Parser.sharedState this)).
  assert (Warnings :
            filter isFailedToResolveUri (resolutionWarning pf uri' baseUrl)
            = match resolveUri pf uri' baseUrl with
              | Some _ => []
              | None => [Warned (Warn.failedToResolveUri uri' baseUrl)]
              end).
  { unfold resolutionWarning. destruct (resolveUri pf uri' baseUrl);
      [reflexivity |].
    cbn [filter]. rewrite failedToResolveUri_is_failed. reflexivity. }
  destruct (SharedState.isMultivariantPlaylist (Parser.sharedState this)) eqn:Multi;
    eexists; eexists; (split; [reflexivity |]);
    rewrite ?filter_app, substitutionWarnings_not_failed, Warnings,
      ?durationWarning_not_failed, ?app_nil_r;
    unfold lastUris;
    rewrite ?multivariant_withVariant, ?multivariant_withSegment, Multi;
    unfold resolvedOrRaw, withVariant, withSegment;
    cbn [Parser.parsedPlaylist Parser.set_sharedState Parser.set_parsedPlaylist
         ParsedPlaylist.variantStreams ParsedPlaylist.set_variantStreams
         ParsedPlaylist.segments ParsedPlaylist.set_segments];
    rewrite last_app; cbn [option_map];
    try (rewrite (fin_uri _ _ _ _ (finalize_Finalized _ _ _)),
           (fin_resolvedUri _ _ _ _ (finalize_Finalized _ _ _)));
    (split; [intros E | intros resolved E]); rewrite E; split; reflexivity.
Qed.

Lemma uriInfoCallback_resolution_witness :
  (exists this' out,
      uriInfoCallback Sample.platform "a.ts"
        (Parser.constructor ParserOptions.none)
      = Returned this' out
      /\ filter isFailedToResolveUri out
         = [Warned (Warn.failedToResolveUri "a.ts" "")]
      /\ lastUris this' = Some ("a.ts", "a.ts"))
  /\ (exists this' out,
         uriInfoCallback Sample.platform "a.ts"
           (gatherParseOptions Sample.options
              (Parser.constructor ParserOptions.none))
         = Returned this' out
         /\ filter isFailedToResolveUri out = []
         /\ lastUris this' = Some ("a.ts", "https://example.com/a.ts")).
Proof.
  split.
  - destruct (uriInfoCallback_resolution Sample.platform "a.ts"
                (Parser.constructor ParserOptions.none))
      as (this' & out & E & Fails & _).
    exists this', out. split; [exact E |]. apply Fails. reflexivity.
  - destruct (uriInfoCallback_resolution Sample.platform "a.ts"
                (gatherParseOptions Sample.options
                   (Parser.constructor ParserOptions.none)))
      as (this' & out & E & _ & Resolves).
    exists this', out. split; [exact E |].
    apply (Resolves "https://example.com/a.ts"). reflexivity.
Defined.

(** *** Increments in double precision *)

(** The sequence counters are doubles and [handleCurrentSegment] adds 1 to
    them with the [+] of JS.  The sum is the integer successor as long as it
    stays within [Number.MAX_SAFE_INTEGER]; at [2^53] the sum rounds back to
    the number itself. *)

Lemma iter_pos_iter {A} (f : A -> A) n : forall x, iter_pos f n x = Pos.iter f x n.
Proof.
  induction n as [n IH | n IH |]; intros x; cbn [iter_pos Pos.iter].
  - rewrite !IH, !Pos.iter_swap. reflexivity.
  - rewrite !IH. reflexivity.
  - reflexivity.
Qed.

Lemma digits_size p : digits2_pos p = Pos.size p.
Proof. induction p; cbn; congruence. Qed.

(* shifting left by a natural number of bits *)
(** [p] followed by [k] binary zeros. *)
Fixpoint shl (p : positive) (k : nat) : positive :=
  match k with O => p | S k => xO (shl p k) end.

Lemma iter_xO_shl p k : Pos.iter xO p k = shl p (Pos.to_nat k).
Proof.
  induction k using Pos.peano_ind.
  - reflexivity.
  - rewrite Pos.iter_succ, Pos2Nat.inj_succ, IHk. reflexivity.
Qed.

Lemma digits_shl p k :
  Zpos (digits2_pos (shl p k)) = (Zpos (digits2_pos p) + Z.of_nat k)%Z.
Proof.
  induction k as [| k IH]; cbn [shl digits2_pos]; [lia |].
  rewrite Pos2Z.inj_succ, IH. lia.
Qed.

Lemma shr_shl q k :
  Pos.iter shr_1 {| shr_m := Zpos (shl q (Pos.to_nat k)); shr_r := false; shr_s := false |} k
  = {| shr_m := Zpos q; shr_r := false; shr_s := false |}.
Proof.
  induction k using Pos.peano_ind.
  - reflexivity.
  - rewrite Pos2Nat.inj_succ. cbn [shl].
    rewrite <- Pos.add_1_r, Pos.iter_add. cbn [Pos.iter shr_1 orb]. exact IHk.
Qed.

Lemma shl_add p a b : shl (shl p a) b = shl p (a + b).
Proof. induction b; cbn; rewrite ?Nat.add_0_r, <- ?plus_n_Sm; cbn; congruence. Qed.

Lemma digits_bound p : (Zpos p < 2 ^ 53)%Z -> (Zpos (digits2_pos p) <= 53)%Z.
Proof.
  intros H. rewrite digits_size.
  destruct (Z.le_gt_cases (Zpos (Pos.size p)) 53) as [L | G]; [exact L | exfalso].
  pose proof (Pos.size_le p) as S.
  assert (E : (2 ^ 54 <= Zpos (2 ^ Pos.size p))%Z).
  { rewrite Pos2Z.inj_pow. apply Z.pow_le_mono_r; lia. }
  change (Zpos (2 ^ Pos.size p) <= Zpos p~0)%Z in S. lia.
Qed.


Lemma fexp_normal d : (-1021 <= d)%Z -> fexp prec emax d = (d - 53)%Z.
Proof. unfold fexp, SpecFloat.emin, prec, emax. lia. Qed.

(* rounding a mantissa of 53 digits followed by k zeros is exact *)
Lemma binary_round_aux_shl s q k e :
  Zpos (digits2_pos q) = 53%Z ->
  (-1074 <= e)%Z -> (e + Z.of_nat k <= 971)%Z ->
  binary_round_aux prec emax s (Zpos (shl q k)) e loc_Exact
  = S754_finite s q (e + Z.of_nat k).
Proof.
  intros D Low High. unfold binary_round_aux, shr_fexp.
  cbn [Zdigits2 shr_record_of_loc]. rewrite digits_shl, D.
  rewrite fexp_normal by lia.
  replace (53 + Z.of_nat k + e - 53 - e)%Z with (Z.of_nat k) by lia.
  assert (Shifted :
            shr {| shr_m := Zpos (shl q k); shr_r := false; shr_s := false |}
              e (Z.of_nat k)
            = ({| shr_m := Zpos q; shr_r := false; shr_s := false |},
               (e + Z.of_nat k)%Z)).
  { destruct k as [| k].
    - cbn [Z.of_nat shr shl]. f_equal. lia.
    - unfold shr. cbn [Z.of_nat]. rewrite iter_pos_iter.
      rewrite <- (shr_shl q (Pos.of_succ_nat k)), SuccNat2Pos.id_succ.
      reflexivity. }
  rewrite Shifted. cbn [shr_m loc_of_shr_record round_nearest_even Zdigits2].
  rewrite D, fexp_normal by lia.
  replace (53 + (e + Z.of_nat k) - 53 - (e + Z.of_nat k))%Z with 0%Z by lia.
  cbn [shr shr_m].
  replace (e + Z.of_nat k <=? emax - prec)%Z with true
    by (symmetry; apply Z.leb_le; unfold emax, prec; lia).
  reflexivity.
Qed.

(* the double of the integer p, given as p * 2^j at exponent -j *)
Lemma binary_round_shl s p j :
  (Zpos (digits2_pos p) <= 53)%Z -> (j <= 52)%nat ->
  binary_round prec emax s (shl p j) (- Z.of_nat j)
  = S754_finite s (shl p (Z.to_nat (53 - Zpos (digits2_pos p))))
      (Zpos (digits2_pos p) - 53).
Proof.
  intros D J. unfold binary_round.
  set (d := Zpos (digits2_pos p)) in *.
  assert (Dpos : (1 <= d)%Z) by (unfold d; lia).
  assert (Full : Zpos (digits2_pos (shl p (Z.to_nat (53 - d)))) = 53%Z).
  { rewrite digits_shl. fold d. lia. }
  rewrite digits_shl. fold d.
  replace (d + Z.of_nat j + - Z.of_nat j)%Z with d by lia.
  rewrite fexp_normal by lia. unfold shl_align.
  destruct (d - 53 - - Z.of_nat j)%Z as [| n | n] eqn:E.
  - replace j with (Z.to_nat (53 - d) + 0)%nat at 1 by lia.
    rewrite <- shl_add, binary_round_aux_shl by (try exact Full; lia).
    f_equal. lia.
  - replace j with (Z.to_nat (53 - d) + Pos.to_nat n)%nat at 1 by lia.
    rewrite <- shl_add, binary_round_aux_shl by (try exact Full; lia).
    f_equal. lia.
  - rewrite iter_xO_shl, shl_add.
    replace (j + Pos.to_nat n)%nat with (Z.to_nat (53 - d) + 0)%nat by lia.
    rewrite <- shl_add, binary_round_aux_shl by (try exact Full; lia).
    f_equal. lia.
Qed.

Lemma shl_plus p q k : (shl p k + shl q k)%positive = shl (p + q) k.
Proof. induction k as [| k IH]; cbn [shl Pos.add]; congruence. Qed.

(** The double of a positive integer below [2^53]: a significand of 53 bits
    and the exponent that goes with it. *)
Definition canonical (p : positive) : spec_float :=
  S754_finite false (shl p (Z.to_nat (53 - Zpos (digits2_pos p))))
    (Zpos (digits2_pos p) - 53).

Lemma binary_normalize_canonical p :
  (Zpos p < 2 ^ 53)%Z ->
  binary_normalize prec emax (Zpos p) 0 false = canonical p.
Proof.
  intros B. apply digits_bound in B.
  exact (binary_round_shl false p 0 B (Nat.le_0_l 52)).
Qed.

Lemma canonical_valid p :
  (Zpos p < 2 ^ 53)%Z -> valid_binary (canonical p) = true.
Proof.
  intros B. apply digits_bound in B. unfold canonical, valid_binary, SpecFloat.valid_binary, bounded,
    canonical_mantissa.
  rewrite digits_shl, fexp_normal by lia.
  apply andb_true_intro. split.
  - apply Z.eqb_eq. lia.
  - apply Z.leb_le. unfold emax, prec. lia.
Qed.

Lemma Prim2SF_ofInteger p :
  (Zpos p < 2 ^ 53)%Z -> Prim2SF (Js.ofInteger (Zpos p)) = canonical p.
Proof.
  intros B. unfold Js.ofInteger. rewrite (binary_normalize_canonical p B).
  apply Prim2SF_SF2Prim. now apply canonical_valid.
Qed.

Lemma Prim2SF_one : Prim2SF 1%float = canonical 1.
Proof. vm_compute. reflexivity. Qed.

Lemma canonical_add p :
  (Zpos p + 1 < 2 ^ 53)%Z ->
  SF64add (canonical p) (canonical 1) = canonical (p + 1).
Proof.
  intros B.
  assert (D : (Zpos (digits2_pos p) <= 53)%Z) by (apply digits_bound; lia).
  assert (D' : (Zpos (digits2_pos (p + 1)) <= 53)%Z) by (apply digits_bound; lia).
  set (d := Zpos (digits2_pos p)) in *.
  assert (Dpos : (1 <= d)%Z) by (unfold d; lia).
  change (canonical 1) with (S754_finite false (shl 1 52) (-52)).
  unfold canonical at 1. fold d. unfold SF64add, SFadd.
  assert (M : Z.min (d - 53) (-52) = (-52)%Z) by lia.
  change Z.min with IntDef.Z.min in M. rewrite M.
  assert (X : fst (shl_align (shl p (Z.to_nat (53 - d))) (d - 53) (-52))
              = shl p 52).
  { unfold shl_align. destruct (-52 - (d - 53))%Z as [| n | n] eqn:E.
    - cbn [fst]. f_equal. lia.
    - lia.
    - cbn [fst]. rewrite iter_xO_shl, shl_add. f_equal. lia. }
  rewrite X. change (fst (shl_align (shl 1 52) (-52) (-52))) with (shl 1 52).
  cbn [cond_Zopp Z.add]. rewrite shl_plus. cbn [binary_normalize].
  exact (binary_round_shl false (p + 1) 52 D' (Nat.le_refl 52)).
Qed.

(** Adding 1 to an integer from 0 to [2^53 - 2] is exact in double
    precision. *)
Lemma increment_exact n :
  (0 <= n)%Z -> (n + 1 < 2 ^ 53)%Z ->
  (Js.ofInteger n + 1)%float = Js.ofInteger (n + 1).
Proof.
  intros Low High. destruct n as [| p | p]; [reflexivity | | lia].
  apply Prim2SF_inj. rewrite add_spec, Prim2SF_one.
  rewrite (Prim2SF_ofInteger p) by lia.
  replace (Zpos p + 1)%Z with (Zpos (p + 1)) by lia.
  rewrite (Prim2SF_ofInteger (p + 1)) by lia.
  apply canonical_add. exact High.
Qed.

(** So is adding 1 to [Number.MAX_SAFE_INTEGER]; adding 1 to [2^53] is
    not. *)
Lemma increment_safe n :
  (0 <= n)%Z -> (n < 2 ^ 53)%Z ->
  (Js.ofInteger n + 1)%float = Js.ofInteger (n + 1).
Proof.
  intros Low High. destruct (Z.eq_dec n (2 ^ 53 - 1)) as [-> | N].
  - vm_compute. reflexivity.
  - apply increment_exact; lia.
Qed.

Lemma increment_rounds :
  (Js.ofInteger (2 ^ 53) + 1)%float = Js.ofInteger (2 ^ 53).
Proof. vm_compute. reflexivity. Qed.

(** *** Links between consecutive segments *)

(** A counter that holds the integer [n], from 0 to
    [Number.MAX_SAFE_INTEGER]. *)
Definition safeCounter (x : float) (n : Z) : Prop :=
  x = Js.ofInteger n /\ (0 <= n)%Z /\ (n < 2 ^ 53)%Z.

(** What ties a segment to the one before it: the counters as the code
    computes them, with the [+] of doubles, the times, and what the counters
    are when the previous ones are integers in the safe range. *)
Definition linked (previous s : Segment.t) : Prop :=
  s.(Segment.mediaSequence) = (previous.(Segment.mediaSequence) + 1)%float
  /\ s.(Segment.startTime) = previous.(Segment.endTime)
  /\ s.(Segment.endTime) = (s.(Segment.startTime) + s.(Segment.duration))%Q
  /\ s.(Segment.discontinuitySequence)
     = (if s.(Segment.isDiscontinuity)
        then (previous.(Segment.discontinuitySequence) + 1)%float
        else previous.(Segment.discontinuitySequence))
  /\ (forall n,
         safeCounter previous.(Segment.mediaSequence) n ->
         s.(Segment.mediaSequence) = Js.ofInteger (n + 1))
  /\ (forall n,
         safeCounter previous.(Segment.discontinuitySequence) n ->
         s.(Segment.discontinuitySequence)
         = Js.ofInteger (n + if s.(Segment.isDiscontinuity) then 1 else 0)).

(** C3 as the specification words it, every operation read in double
    precision: the discontinuity sequence numbers are compared by their
    difference. *)
Definition linkedAsStated (previous s : Segment.t) : Prop :=
  s.(Segment.mediaSequence) = (previous.(Segment.mediaSequence) + 1)%float
  /\ s.(Segment.startTime) = previous.(Segment.endTime)
  /\ s.(Segment.endTime) = (s.(Segment.startTime) + s.(Segment.duration))%Q
  /\ (s.(Segment.discontinuitySequence)
      - previous.(Segment.discontinuitySequence))%float
     = if s.(Segment.isDiscontinuity) then 1%float else 0%float.

(** [segments[i - 1]] and [segments[i]] are linked for every [i >= 1]. *)
Definition Linked (segments : list Segment.t) : Prop :=
  forall i previous s,
    nth_error segments i = Some previous ->
    nth_error segments (S i) = Some s ->
    linked previous s.

Lemma Linked_nil : Linked [].
Proof. intros i previous s H. destruct i; discriminate H. Qed.

Lemma Linked_snoc segments s :
  Linked segments ->
  (forall previous, Js.last segments = Some previous -> linked previous s) ->
  Linked (segments ++ [s]).
Proof.
  intros L Last i previous s' P S'.
  assert (Bound : (S i < length (segments ++ [s]))%nat)
    by (apply nth_error_Some; congruence).
  rewrite length_app in Bound. cbn [length] in Bound.
  destruct (Nat.eq_dec (S i) (length segments)) as [E | N].
  - rewrite nth_error_app2 in S' by lia.
    replace (S i - length segments)%nat with 0%nat in S' by lia.
    cbn in S'. inversion S'; subst s'.
    rewrite nth_error_app1 in P by lia.
    apply Last. rewrite last_nth.
    destruct segments as [| a rest]; [cbn in E; lia |].
    rewrite <- E. replace (S i - 1)%nat with i by lia. exact P.
  - rewrite nth_error_app1 in P by lia.
    rewrite nth_error_app1 in S' by lia.
    exact (L i previous s' P S').
Qed.

Lemma Finalized_linked uri resolvedUri this s previous :
  Finalized uri resolvedUri this s ->
  Js.last this.(Parser.parsedPlaylist).(ParsedPlaylist.segments) = Some previous ->
  linked previous s.
Proof.
  intros F Last. destruct (fin_next _ _ _ _ F previous Last) as (A & B & C).
  unfold linked. repeat split; try assumption.
  - apply (fin_endTime _ _ _ _ F).
  - intros n (E & Low & High). rewrite A, E. apply increment_safe; assumption.
  - intros n (E & Low & High). rewrite C, E.
    destruct (Segment.isDiscontinuity s).
    + apply increment_safe; assumption.
    + f_equal. lia.
Qed.

Lemma deliver_Linked pf e this this' out :
  Linked this.(Parser.parsedPlaylist).(ParsedPlaylist.segments) ->
  deliver pf e this = Returned this' out ->
  Linked this'.(Parser.parsedPlaylist).(ParsedPlaylist.segments).
Proof.
  intros L H. destruct e as [tagKey tagValue tagAttributes | uri]; cbn [deliver] in H.
  - apply tagInfoCallback_frame in H. destruct H as (_ & Same & _).
    rewrite Same. exact L.
  - rewrite uriInfoCallback_blocks in H. cbv zeta in H.
    destruct (SharedState.isMultivariantPlaylist (Parser.sharedState this));
      inversion H; subst; clear H.
    + exact L.
    + unfold withSegment.
      cbn [Parser.parsedPlaylist Parser.set_sharedState
           Parser.set_parsedPlaylist ParsedPlaylist.segments
           ParsedPlaylist.set_segments].
      apply Linked_snoc; [exact L |].
      intros previous Last.
      eapply Finalized_linked; [apply finalize_Finalized | exact Last].
Qed.

(** ** From one callback call to a whole parse *)

Section Preservation.

Variable pf : Platform.
Variable sm : StateMachine.

(** A property of the parser that every returning callback call keeps. *)
Variable Inv : Parser.t -> Prop.
Hypothesis deliver_Inv :
  forall e this this' out,
    Inv this -> deliver pf e this = Returned this' out -> Inv this'.

Lemma deliverAll_Inv events :
  forall this this' out,
    Inv this -> deliverAll pf events this = Returned this' out -> Inv this'.
Proof.
  induction events as [| e rest IH]; intros this this' out I H.
  - inversion H; subst. exact I.
  - cbn [deliverAll] in H. apply andThen_returned in H.
    destruct H as (this1 & o & o' & E & H & _).
    eapply IH; [| exact H]. eapply deliver_Inv; eauto.
Qed.

Lemma call_Inv c st st' out :
  Inv (snd st) -> call pf sm c st = Returned st' out -> Inv (snd st').
Proof.
  destruct st as [q this]. unfold call.
  destruct (transition sm q c) as [q' events]. intros I H.
  apply andThen_returned in H. destruct H as (this1 & o & o' & E & H & _).
  inversion H; subst. cbn [snd] in *. eapply deliverAll_Inv; eauto.
Qed.

Lemma feed_Inv chars :
  forall st st' out,
    Inv (snd st) -> feed pf sm chars st = Returned st' out -> Inv (snd st').
Proof.
  induction chars as [| c rest IH]; intros st st' out I H.
  - inversion H; subst. exact I.
  - cbn [feed] in H. apply andThen_returned in H.
    destruct H as (st1 & o & o' & E & H & _).
    eapply IH; [| exact H]. eapply call_Inv; eauto.
Qed.

Hypothesis gather_Inv :
  forall options this, Inv this -> Inv (gatherParseOptions options this).

(** The parser whose playlist [clean] hands out satisfies the property. *)
Lemma parseFullPlaylistString_Inv text options this playlist this' out :
  Inv this ->
  parseFullPlaylistString pf sm text options this = Returned (playlist, this') out ->
  exists accumulated,
    Inv accumulated /\ playlist = accumulated.(Parser.parsedPlaylist).
Proof.
  intros I H. unfold parseFullPlaylistString in H.
  apply andThen_returned in H. destruct H as (st1 & o1 & o1' & E1 & H & _).
  apply andThen_returned in H. destruct H as (st2 & o2 & o2' & E2 & H & _).
  inversion H; subst. exists (snd st2). split; [| reflexivity].
  eapply call_Inv; [| exact E2]. eapply feed_Inv; [| exact E1].
  cbn [snd]. apply gather_Inv. exact I.
Qed.

Lemma pushString_Inv chunk options this this' out :
  Inv (base sm this) ->
  pushString pf sm chunk options this = Returned this' out ->
  Inv (base sm this').
Proof.
  intros I H. unfold pushString in H.
  apply andThen_returned in H. destruct H as (st & o & o' & E & H & _).
  inversion H; subst. cbn [base].
  eapply feed_Inv; [| exact E]. cbn [snd]. apply gather_Inv. exact I.
Qed.

Lemma pushAll_Inv chunks options :
  forall this this' out,
    Inv (base sm this) ->
    pushAll pf sm chunks options this = Returned this' out ->
    Inv (base sm this').
Proof.
  induction chunks as [| chunk rest IH]; intros this this' out I H.
  - inversion H; subst. exact I.
  - cbn [pushAll] in H. apply andThen_returned in H.
    destruct H as (this1 & o & o' & E & H & _).
    eapply IH; [| exact H]. eapply pushString_Inv; eauto.
Qed.

Lemma done_Inv this playlist this' out :
  Inv (base sm this) ->
  done pf sm this = Returned (playlist, this') out ->
  exists accumulated,
    Inv accumulated /\ playlist = accumulated.(Parser.parsedPlaylist).
Proof.
  intros I H. unfold done in H.
  apply andThen_returned in H. destruct H as (parser & o & o' & E & H & _).
  inversion H; subst. exists parser. split; [| reflexivity].
  destruct (stateMachine sm this) as [q |].
  - apply andThen_returned in E. destruct E as (st & o1 & o1' & E & R & _).
    inversion R; subst. unfold transitionToNewLine in E.
    eapply call_Inv in E; [exact E | exact I].
  - inversion E; subst. exact I.
Qed.

Lemma parseProgressively_Inv chunks options this playlist this' out :
  Inv (base sm this) ->
  parseProgressively pf sm chunks options this = Returned (playlist, this') out ->
  exists accumulated,
    Inv accumulated /\ playlist = accumulated.(Parser.parsedPlaylist).
Proof.
  intros I H. unfold parseProgressively in H.
  apply andThen_returned in H. destruct H as (this1 & o & o' & E & H & _).
  eapply done_Inv; [| exact H]. eapply pushAll_Inv; eauto.
Qed.

End Preservation.

(** C3, as amended.  In every playlist returned by a parse, full or
    progressive, each segment but the first is linked to the one before it:
    its start time is the previous end time, its end time is its start time
    plus its duration, its media sequence number is [previous + 1] and its
    discontinuity sequence number is [previous + 1] when it is a
    discontinuity and [previous] otherwise, the additions being those of
    doubles.  When the previous number is an integer from 0 to
    [Number.MAX_SAFE_INTEGER], the sum is its successor: the numbers then
    differ by exactly 1.  ([this] is a new parser or one whose segments are
    linked already.) *)
Theorem segments_linked pf sm options this :
  Linked this.(Parser.parsedPlaylist).(ParsedPlaylist.segments) ->
  (forall text playlist this' out,
      parseFullPlaylistString pf sm text options this
      = Returned (playlist, this') out ->
      Linked playlist.(ParsedPlaylist.segments))
  /\ (forall chunks machine playlist this' out,
         parseProgressively pf sm chunks options
           {| base := this; stateMachine := machine |}
         = Returned (playlist, this') out ->
         Linked playlist.(ParsedPlaylist.segments)).
Proof.
  intros L.
  pose (Inv := fun p : Parser.t =>
                 Linked p.(Parser.parsedPlaylist).(ParsedPlaylist.segments)).
  assert (Step : forall e p p' out,
             Inv p -> deliver pf e p = Returned p' out -> Inv p')
    by (intros e p p' out; apply deliver_Linked).
  assert (Gather : forall o p, Inv p -> Inv (gatherParseOptions o p))
    by (intros o p I; exact I).
  split.
  - intros text playlist this' out H.
    destruct (parseFullPlaylistString_Inv pf sm Inv Step Gather _ _ _ _ _ _ L H)
      as (accumulated & I & ->).
    exact I.
  - intros chunks machine playlist this' out H.
    destruct (parseProgressively_Inv pf sm Inv Step Gather chunks options
                {| base := this; stateMachine := machine |} _ _ _ L H)
      as (accumulated & I & ->).
    exact I.
Qed.

Lemma segments_linked_witness :
  exists playlist this' out,
    Sample.fullParse Sample.minimalVod ParserOptions.none
    = Returned (playlist, this') out
    /\ length playlist.(ParsedPlaylist.segments) = 2%nat
    /\ Linked playlist.(ParsedPlaylist.segments).
Proof.
  eexists. eexists. eexists.
  split; [vm_compute; reflexivity |].
  split; [reflexivity |].
  refine (proj1
            (segments_linked Sample.platform Scanner.createStateMachine
               Sample.options (Parser.constructor ParserOptions.none)
               Linked_nil)
            Sample.minimalVod _ _ _ _).
  vm_compute. reflexivity.
Defined.

Module Saturated.

(** A handler for a tag of the caller's own that numbers the segment under
    construction [2^53]: the first integer whose successor is not a
    double. *)
Definition handler : CustomTagProcessor :=
  fun _ _ _ custom sharedState =>
    (custom,
     SharedState.set_currentSegment
       (Segment.set_discontinuitySequence 9007199254740992
          (Segment.set_mediaSequence 9007199254740992
             sharedState.(SharedState.currentSegment)))
       sharedState).

Definition parserOptions : ParserOptions.t :=
  ParserOptions.mk (Some [("EXT-X-NUMBER", handler)]) None None None.

Definition text : string :=
  String.concat Sample.LF
    ["#EXTM3U"; "#EXT-X-NUMBER"; "#EXTINF:5.0,"; "a.ts";
     "#EXT-X-DISCONTINUITY"; "#EXTINF:5.0,"; "b.ts"].

End Saturated.

(** The claim C3 as it is stated fails: when the first segment is numbered
    [2^53], the second segment, a discontinuity, has the same media sequence
    number and the same discontinuity sequence number: [previous + 1] is
    [previous] in double precision, and the difference is 0, not 1. *)
Lemma segments_linked_counterexample :
  exists playlist this' out a b,
    Sample.fullParse Saturated.text Saturated.parserOptions
    = Returned (playlist, this') out
    /\ playlist.(ParsedPlaylist.segments) = [a; b]
    /\ a.(Segment.mediaSequence) = Js.ofInteger (2 ^ 53)
    /\ b.(Segment.mediaSequence) = a.(Segment.mediaSequence)
    /\ b.(Segment.isDiscontinuity) = true
    /\ b.(Segment.discontinuitySequence) = a.(Segment.discontinuitySequence)
    /\ (b.(Segment.discontinuitySequence)
        - a.(Segment.discontinuitySequence))%float
       = 0%float
    /\ ~ linkedAsStated a b.
Proof.
  eexists. eexists. eexists. eexists. eexists.
  split; [vm_compute; reflexivity |].
  split; [reflexivity |].
  split; [vm_compute; reflexivity |].
  split; [reflexivity |]. split; [reflexivity |]. split; [reflexivity |].
  split; [vm_compute; reflexivity |].
  intros (_ & _ & _ & Difference). vm_compute in Difference.
  apply (f_equal (fun x => (x =? 0)%float)) in Difference.
  vm_compute in Difference. discriminate Difference.
Qed.

(** *** The contract of an attribute-tag processor *)

(** The required attributes that are absent from the map, in the order of
    the set. *)
Definition missingRequired (P : TagWithAttributesProcessor.t)
    (tagAttributes : StringMap) : list string :=
  filter (fun requiredAttribute => negb (Js.has requiredAttribute tagAttributes))
    P.(TagWithAttributesProcessor.requiredAttributes).

(** The map with every value replaced by its substitution. *)
Definition substitutedAttributes (pf : Platform) (define : Define.t)
    (tagAttributes : StringMap) : StringMap :=
  List.map
    (fun entry => (fst entry, fst (substituteVariables pf (snd entry) define)))
    tagAttributes.

(** One warning per variable that a value refers to and that has no
    definition. *)
Definition missingVariableWarnings (pf : Platform) (tag : string)
    (define : Define.t) (tagAttributes : StringMap) : list Emitted :=
  List.flat_map
    (fun entry =>
       List.map
         (fun variableName =>
            Warned
              (Warn.missingRequiredVariableForAttributeValueSubstitutionWarn
                 tag (fst entry) variableName))
         (snd (substituteVariables pf (snd entry) define)))
    tagAttributes.

Lemma checkRequiredAttributesFrom_filter tag tagAttributes required :
  forall missed,
    TagWithAttributesProcessor.checkRequiredAttributesFrom tag required
      tagAttributes missed
    = let missing :=
        filter (fun r => negb (Js.has r tagAttributes)) required in
      ((missed || negb (match missing with [] => true | _ => false end))%bool,
       List.map (fun r => Warned (Warn.missingRequiredAttributeWarn tag r))
         missing).
Proof.
  induction required as [| r rest IH]; intros missed;
    cbn [TagWithAttributesProcessor.checkRequiredAttributesFrom filter].
  - cbn. now rewrite orb_false_r.
  - destruct (negb (Js.has r tagAttributes)).
    + rewrite IH. cbn. now rewrite orb_true_r.
    + apply IH.
Qed.

Lemma substituteAll_map pf tag define tagAttributes :
  TagWithAttributesProcessor.substituteAll pf tag define tagAttributes
  = (substitutedAttributes pf define tagAttributes,
     missingVariableWarnings pf tag define tagAttributes).
Proof.
  induction tagAttributes as [| [attributeKey attributeValue] rest IH];
    [reflexivity |].
  cbn [TagWithAttributesProcessor.substituteAll substitutedAttributes
       missingVariableWarnings map flat_map fst snd].
  destruct (substituteVariables pf attributeValue define) as [value missing].
  rewrite IH. reflexivity.
Qed.

Lemma process_when_complete pf P tagAttributes playlist sharedState :
  missingRequired P tagAttributes = [] ->
  TagWithAttributesProcessor.process pf P tagAttributes playlist sharedState
  = if sharedState.(SharedState.hasVariablesForSubstitution) then
      Returned tt
        (missingVariableWarnings pf P.(TagWithAttributesProcessor.tag)
           playlist.(ParsedPlaylist.define) tagAttributes)
      >>= fun _ =>
      P.(TagWithAttributesProcessor.safeProcess)
        (substitutedAttributes pf playlist.(ParsedPlaylist.define)
           tagAttributes)
        playlist sharedState
    else
      P.(TagWithAttributesProcessor.safeProcess) tagAttributes playlist
        sharedState.
Proof.
  unfold TagWithAttributesProcessor.process,
    TagWithAttributesProcessor.checkRequiredAttributes, missingRequired.
  rewrite checkRequiredAttributesFrom_filter. cbv zeta.
  intros Complete. rewrite Complete. cbn [orb negb].
  unfold TagWithAttributesProcessor.runVariableSubstitution.
  destruct (SharedState.hasVariablesForSubstitution sharedState); cbn [negb].
  - rewrite substituteAll_map. reflexivity.
  - cbn [app]. unfold andThen.
    destruct (TagWithAttributesProcessor.safeProcess P tagAttributes playlist
                sharedState); reflexivity.
Qed.

Lemma process_when_missing pf P tagAttributes playlist sharedState :
  missingRequired P tagAttributes <> [] ->
  TagWithAttributesProcessor.process pf P tagAttributes playlist sharedState
  = Returned (playlist, sharedState)
      (List.map
         (fun r =>
            Warned
              (Warn.missingRequiredAttributeWarn
                 P.(TagWithAttributesProcessor.tag) r))
         (missingRequired P tagAttributes)).
Proof.
  unfold TagWithAttributesProcessor.process,
    TagWithAttributesProcessor.checkRequiredAttributes, missingRequired.
  rewrite checkRequiredAttributesFrom_filter. cbv zeta.
  destruct (filter _ _) as [| r rest]; [intros N; now contradiction N |].
  intros _. reflexivity.
Qed.

(** C6. For every attribute-tag processor and every attribute map: when a
    required attribute is absent, one missing-required-attribute warning is
    emitted per absent attribute, [safeProcess] is not called and the playlist
    and the shared state are left as they were; when all are present,
    [safeProcess] is called, and when [hasVariablesForSubstitution] is set it
    is called on the map in which every value has been substituted (the
    warnings of the substitution come first). *)
Theorem process_contract pf P tagAttributes playlist sharedState :
  (missingRequired P tagAttributes <> [] ->
   TagWithAttributesProcessor.process pf P tagAttributes playlist sharedState
   = Returned (playlist, sharedState)
       (List.map
          (fun r =>
             Warned
               (Warn.missingRequiredAttributeWarn
                  P.(TagWithAttributesProcessor.tag) r))
          (missingRequired P tagAttributes)))
  /\ (missingRequired P tagAttributes = [] ->
      TagWithAttributesProcessor.process pf P tagAttributes playlist sharedState
      = if sharedState.(SharedState.hasVariablesForSubstitution) then
          Returned tt
            (missingVariableWarnings pf P.(TagWithAttributesProcessor.tag)
               playlist.(ParsedPlaylist.define) tagAttributes)
          >>= fun _ =>
          P.(TagWithAttributesProcessor.safeProcess)
            (substitutedAttributes pf playlist.(ParsedPlaylist.define)
               tagAttributes)
            playlist sharedState
        else
          P.(TagWithAttributesProcessor.safeProcess) tagAttributes playlist
            sharedState).
Proof.
  split; [apply process_when_missing | apply process_when_complete].
Qed.

Lemma process_contract_witness :
  TagWithAttributesProcessor.process Sample.platform
    (ExtXPart.processor Sample.platform) [("URI", "p.mp4")]
    createDefaultParsedPlaylist createDefaultSharedState
  = Returned (createDefaultParsedPlaylist, createDefaultSharedState)
      [Warned "Skip processing EXT-X-PART. Reason: No required DURATION attribute."]
  /\ TagWithAttributesProcessor.process Sample.platform
       (ExtXStart.processor Sample.platform) [("TIME-OFFSET", "5")]
       createDefaultParsedPlaylist createDefaultSharedState
     = ExtXStart.safeProcess Sample.platform [("TIME-OFFSET", "5")]
         createDefaultParsedPlaylist createDefaultSharedState.
Proof.
  split.
  - refine (proj1
              (process_contract Sample.platform
                 (ExtXPart.processor Sample.platform) [("URI", "p.mp4")]
                 createDefaultParsedPlaylist createDefaultSharedState) _).
    vm_compute. discriminate.
  - refine (proj2
              (process_contract Sample.platform
                 (ExtXStart.processor Sample.platform) [("TIME-OFFSET", "5")]
                 createDefaultParsedPlaylist createDefaultSharedState) _).
    vm_compute. reflexivity.
Defined.

(** *** The order of dispatch *)

(** The call of [debugCallback] that opens [tagInfoCallback], then [r]. *)
Definition traced (tagKey : string) (tagValue : option string)
    (tagAttributes : StringMap) (r : Outcome Parser.t) : Outcome Parser.t :=
  Returned tt [Debugged tagKey tagValue tagAttributes] >>= fun _ => r.

(** What a custom handler leaves: [playlist.custom] and the shared state. *)
Definition afterCustom (handler : CustomTagProcessor) (tagKey : string)
    (tagValue : option string) (tagAttributes : StringMap) (this : Parser.t)
    : Parser.t :=
  let result :=
    handler tagKey tagValue tagAttributes
      this.(Parser.parsedPlaylist).(ParsedPlaylist.custom)
      this.(Parser.sharedState) in
  Parser.set_sharedState (snd result)
    (Parser.set_parsedPlaylist
       (ParsedPlaylist.set_custom (fst result) this.(Parser.parsedPlaylist))
       this).

Lemma existsb_eqb_In tagKey tags :
  existsb (String.eqb tagKey) tags = true <-> In tagKey tags.
Proof.
  rewrite existsb_exists. split.
  - intros (x & I & E). apply String.eqb_eq in E. now subst.
  - intros I. exists tagKey. split; [exact I | apply String.eqb_refl].
Qed.

Lemma tagInfoCallback_attributeTag pf tagKey tagValue tagAttributes this P :
  ~ In tagKey this.(Parser.ignoreTags) ->
  Js.get tagKey emptyTagMap = None ->
  Js.get tagKey (tagValueMap pf) = None ->
  Js.get tagKey (tagAttributesMap pf) = Some P ->
  tagInfoCallback pf tagKey tagValue tagAttributes this
  = traced tagKey tagValue tagAttributes
      (commit this
         (TagWithAttributesProcessor.process pf P
            (this.(Parser.transformTagAttributes) tagKey tagAttributes)
            this.(Parser.parsedPlaylist) this.(Parser.sharedState))).
Proof.
  intros N E1 E2 E3. unfold tagInfoCallback, traced, andThen. cbv beta.
  destruct (existsb (String.eqb tagKey) (Parser.ignoreTags this)) eqn:Ignored;
    [apply existsb_eqb_In in Ignored; contradiction |].
  rewrite E1, E2, E3. reflexivity.
Qed.

(** C5. For every tag-recognized event the dispatcher consults, in this
    order and stopping at the first hit: the ignore set (one warning, nothing
    else touched); the empty-tag table; the value-tag table, after
    [transformTagValue], a null result giving the missing-tag-value warning
    and no processing; the attribute-tag table, after
    [transformTagAttributes]; the custom tag map; and otherwise it emits
    exactly one unsupported-tag warning and touches nothing. *)
Theorem tagInfoCallback_dispatch pf tagKey tagValue tagAttributes this :
  let call := tagInfoCallback pf tagKey tagValue tagAttributes this in
  let after := traced tagKey tagValue tagAttributes in
  let playlist := this.(Parser.parsedPlaylist) in
  let sharedState := this.(Parser.sharedState) in
  (In tagKey this.(Parser.ignoreTags) ->
   call = after (Returned this [Warned (Warn.ignoreTagWarn tagKey)]))
  /\ (~ In tagKey this.(Parser.ignoreTags) ->
      (forall processor,
          Js.get tagKey emptyTagMap = Some processor ->
          call = after (commit this (processor playlist sharedState)))
      /\ (Js.get tagKey emptyTagMap = None ->
          (forall processor,
              Js.get tagKey (tagValueMap pf) = Some processor ->
              (this.(Parser.transformTagValue) tagKey tagValue = None ->
               call
               = after (Returned this [Warned (Warn.missingTagValueWarn tagKey)]))
              /\ (forall value,
                     this.(Parser.transformTagValue) tagKey tagValue
                     = Some value ->
                     call
                     = after
                         (commit this (processor value playlist sharedState))))
          /\ (Js.get tagKey (tagValueMap pf) = None ->
              (forall P,
                  Js.get tagKey (tagAttributesMap pf) = Some P ->
                  call
                  = after
                      (commit this
                         (TagWithAttributesProcessor.process pf P
                            (this.(Parser.transformTagAttributes) tagKey
                               tagAttributes)
                            playlist sharedState)))
              /\ (Js.get tagKey (tagAttributesMap pf) = None ->
                  (forall handler,
                      Js.get tagKey this.(Parser.customTagMap) = Some handler ->
                      call
                      = after
                          (Returned
                             (afterCustom handler tagKey tagValue tagAttributes
                                this)
                             []))
                  /\ (Js.get tagKey this.(Parser.customTagMap) = None ->
                      call
                      = after
                          (Returned this
                             [Warned (Warn.unsupportedTagWarn tagKey)])))))).
Proof.
  cbv zeta. unfold tagInfoCallback, traced, warnCallback, andThen.
  cbv beta. split.
  - intros I. apply existsb_eqb_In in I. rewrite I. reflexivity.
  - intros N.
    destruct (existsb (String.eqb tagKey) (Parser.ignoreTags this)) eqn:Ignored;
      [apply existsb_eqb_In in Ignored; contradiction |].
    split.
    { intros processor E. rewrite E. reflexivity. }
    intros E1. rewrite E1. split.
    { intros processor E. rewrite E. split.
      - intros T. rewrite T. reflexivity.
      - intros value T. rewrite T. reflexivity. }
    intros E2. rewrite E2. split.
    { intros P E.
      pose proof (tagInfoCallback_attributeTag pf tagKey tagValue tagAttributes
                    this P N E1 E2 E) as A.
      unfold tagInfoCallback, traced, andThen in A. cbv beta in A.
      rewrite Ignored, E1, E2 in A. exact A. }
    intros E3. rewrite E3. split.
    { intros handler E. rewrite E. unfold afterCustom. cbv zeta.
      destruct (handler tagKey tagValue tagAttributes
                  (ParsedPlaylist.custom (Parser.parsedPlaylist this))
                  (Parser.sharedState this)); reflexivity. }
    intros E. rewrite E. reflexivity.
Qed.

Definition ignoringGap : Parser.t :=
  Parser.constructor (ParserOptions.mk None (Some ["EXT-X-GAP"]) None None).

Lemma tagInfoCallback_dispatch_witness :
  tagInfoCallback Sample.platform "EXT-X-GAP" None [] ignoringGap
  = Returned ignoringGap
      [Debugged "EXT-X-GAP" None [];
       Warned
         "Skip processing EXT-X-GAP. Reason: Tag is included in the ignore list."]
  /\ tagInfoCallback Sample.platform "EXT-X-FOO" None [] ignoringGap
     = Returned ignoringGap
         [Debugged "EXT-X-FOO" None [];
          Warned "Skip processing EXT-X-FOO. Reason: Unsupported."].
Proof.
  split.
  - refine (proj1
              (tagInfoCallback_dispatch Sample.platform "EXT-X-GAP" None []
                 ignoringGap) _).
    left. reflexivity.
  - destruct (tagInfoCallback_dispatch Sample.platform "EXT-X-FOO" None []
                ignoringGap) as [_ H].
    destruct H as [_ H]; [intros [E | []]; discriminate E |].
    destruct (H eq_refl) as [_ H1].
    destruct (H1 eq_refl) as [_ H2].
    destruct (H2 eq_refl) as [_ H3].
    exact (H3 eq_refl).
Defined.

(** *** Reset at the end of a parse *)

Lemma deliver_sameConfig pf e this this' out :
  deliver pf e this = Returned this' out -> sameConfig this this'.
Proof.
  destruct e as [tagKey tagValue tagAttributes | uri]; cbn [deliver]; intros H.
  - apply tagInfoCallback_frame in H. apply H.
  - rewrite uriInfoCallback_blocks in H. cbv zeta in H.
    destruct (SharedState.isMultivariantPlaylist (Parser.sharedState this));
      inversion H; subst; repeat split.
Qed.

Lemma clean_resets options this :
  sameConfig (Parser.constructor options) this ->
  snd (clean this) = Parser.constructor options.
Proof.
  destruct this as [handlers ignored onValue onAttributes playlist sharedState].
  unfold sameConfig, clean. cbn. intros (A & B & C & D). subst. reflexivity.
Qed.

(** C9. After [parseFullPlaylistString] (or [parseFullPlaylistBuffer], which
    is the same function on the decoded bytes) returns, and after [done]
    returns, the parser is equal to a newly constructed one: its parsed
    playlist and shared state are the defaults, and for the progressive
    parser the state machine is null.  The playlist returned is the one
    accumulated before the reset. *)
Theorem clean_after_parse pf sm parserOptions options this :
  sameConfig (Parser.constructor parserOptions) this ->
  (forall text playlist this' out,
      parseFullPlaylistString pf sm text options this
      = Returned (playlist, this') out ->
      this' = Parser.constructor parserOptions
      /\ exists accumulated,
          feed pf sm text (initial sm, gatherParseOptions options this)
          >>= transitionToNewLine pf sm
          = Returned accumulated out
          /\ playlist = (snd accumulated).(Parser.parsedPlaylist))
  /\ (forall machine playlist this' out,
         done pf sm {| base := this; stateMachine := machine |}
         = Returned (playlist, this') out ->
         this' = createProgressive sm parserOptions
         /\ exists accumulated,
             match machine with
             | Some q =>
                 transitionToNewLine pf sm (q, this) >>= fun st =>
                 Returned (snd st) []
             | None => Returned this []
             end
             = Returned accumulated out
             /\ playlist = accumulated.(Parser.parsedPlaylist)).
Proof.
  intros Config.
  pose (Inv := sameConfig (Parser.constructor parserOptions)).
  assert (Step : forall e p p' out,
             Inv p -> deliver pf e p = Returned p' out -> Inv p').
  { intros e p p' out I H. eapply sameConfig_trans; [exact I |].
    eapply deliver_sameConfig; eauto. }
  split.
  - intros text playlist this' out H. unfold parseFullPlaylistString in H.
    apply andThen_returned in H. destruct H as (st1 & o1 & o1' & E1 & H & ->).
    apply andThen_returned in H. destruct H as (st2 & o2 & o2' & E2 & H & ->).
    inversion H; subst; clear H.
    assert (I : Inv (snd st2)).
    { eapply (call_Inv pf sm Inv Step); [| exact E2].
      eapply (feed_Inv pf sm Inv Step); [| exact E1]. exact Config. }
    split; [apply clean_resets; exact I |].
    exists st2. split; [| reflexivity].
    rewrite E1. unfold andThen at 1. rewrite E2.
    now rewrite app_nil_r.
  - intros machine playlist this' out H. unfold done in H. cbn [base stateMachine] in H.
    apply andThen_returned in H. destruct H as (parser & o & o' & E & H & ->).
    destruct (clean parser) as [cleaned parser'] eqn:Clean.
    inversion H; subst; clear H.
    assert (I : Inv parser).
    { destruct machine as [q |].
      - apply andThen_returned in E. destruct E as (st & o1 & o1' & E & R & _).
        inversion R; subst. unfold transitionToNewLine in E.
        eapply (call_Inv pf sm Inv Step) in E; [exact E | exact Config].
      - inversion E; subst. exact Config. }
    split.
    + unfold createProgressive.
      pose proof (clean_resets parserOptions parser I) as R.
      rewrite Clean in R. cbn [snd] in R. now rewrite R.
    + exists parser. split; [now rewrite app_nil_r |].
      unfold clean in Clean. now inversion Clean.
Qed.

Lemma clean_after_parse_witness :
  exists playlist out,
    parseFullPlaylistString Sample.platform Scanner.createStateMachine
      Sample.minimalVod Sample.options (Parser.constructor ParserOptions.none)
    = Returned (playlist, Parser.constructor ParserOptions.none) out
    /\ length playlist.(ParsedPlaylist.segments) = 2%nat.
Proof.
  destruct (parseFullPlaylistString Sample.platform Scanner.createStateMachine
              Sample.minimalVod Sample.options
              (Parser.constructor ParserOptions.none))
    as [[playlist this'] out | e] eqn:E; [| vm_compute in E; discriminate E].
  exists playlist, out.
  destruct (proj1
              (clean_after_parse Sample.platform Scanner.createStateMachine
                 ParserOptions.none Sample.options
                 (Parser.constructor ParserOptions.none)
                 (sameConfig_refl _))
              Sample.minimalVod playlist this' out E)
    as (Fresh & _).
  rewrite Fresh. split; [reflexivity |].
  vm_compute in E. inversion E. reflexivity.
Defined.

(** *** Chunked and one-shot parsing *)

(** The shared state holds the parse options as [gatherParseOptions] wrote
    them. *)
Definition gathered (options : ParseOptions.t) (this : Parser.t) : Prop :=
  this.(Parser.sharedState).(SharedState.baseUrl) = options.(ParseOptions.baseUrl)
  /\ this.(Parser.sharedState).(SharedState.baseTime)
     = orZero options.(ParseOptions.baseTime)
  /\ this.(Parser.sharedState).(SharedState.baseDefine)
     = options.(ParseOptions.baseDefine).

Lemma gatherParseOptions_gathered options this :
  gathered options (gatherParseOptions options this).
Proof. repeat split. Qed.

Lemma gatherParseOptions_again options this :
  gathered options this -> gatherParseOptions options this = this.
Proof.
  destruct this as [handlers ignored onValue onAttributes playlist sharedState].
  destruct sharedState
    as [current variant key init rate baseUrl baseTime baseDefine vars multi].
  unfold gathered, gatherParseOptions. cbn. intros (A & B & C). subst.
  reflexivity.
Qed.

Lemma deliver_sameOptions pf e this this' out :
  handlersKeep sameOptions this.(Parser.customTagMap) ->
  deliver pf e this = Returned this' out ->
  sameOptions this.(Parser.sharedState) this'.(Parser.sharedState).
Proof.
  intros K. destruct e as [tagKey tagValue tagAttributes | uri];
    cbn [deliver]; intros H.
  - apply tagInfoCallback_frame in H. destruct H as (_ & _ & _ & Keep & _).
    exact (Keep K).
  - rewrite uriInfoCallback_blocks in H. cbv zeta in H.
    destruct (SharedState.isMultivariantPlaylist (Parser.sharedState this));
      inversion H; subst; repeat split.
Qed.

(** The options stay gathered while the handlers are those of [origin] and
    keep them. *)
Definition keepsGathered (options : ParseOptions.t) (origin this : Parser.t)
    : Prop :=
  sameConfig origin this /\ gathered options this.

Lemma deliver_keepsGathered pf options origin e this this' out :
  handlersKeep sameOptions origin.(Parser.customTagMap) ->
  keepsGathered options origin this ->
  deliver pf e this = Returned this' out ->
  keepsGathered options origin this'.
Proof.
  intros K (Config & G1 & G2 & G3) H. split.
  - eapply sameConfig_trans; [exact Config |].
    eapply deliver_sameConfig; eauto.
  - assert (K' : handlersKeep sameOptions this.(Parser.customTagMap)).
    { destruct Config as (C & _). rewrite C. exact K. }
    destruct (deliver_sameOptions pf e this this' out K' H) as (A & B & C).
    unfold gathered. rewrite A, B, C. auto.
Qed.

Lemma andThen_ext {A B} (x : Outcome A) (f g : A -> Outcome B) :
  (forall a, f a = g a) -> x >>= f = x >>= g.
Proof.
  intros E. unfold andThen. destruct x as [a o | e]; [| reflexivity].
  now rewrite E.
Qed.

Lemma feed_app pf sm a b :
  forall st, feed pf sm (a ++ b) st = feed pf sm a st >>= feed pf sm b.
Proof.
  induction a as [| c a IH]; intros st.
  - cbn [append feed]. now rewrite andThen_unit_left.
  - cbn [append feed]. rewrite andThen_assoc. apply andThen_ext. exact IH.
Qed.

(** The chunks put together again. *)
Definition whole (chunks : list string) : string :=
  fold_right String.append EmptyString chunks.

(** What [pushString] stores after the loop. *)
Definition store {sm : StateMachine} (st : state sm * Parser.t)
    : Outcome (ProgressiveParser sm) :=
  Returned {| base := snd st; stateMachine := Some (fst st) |} [].

Lemma pushAll_feed pf sm options origin chunks :
  handlersKeep sameOptions origin.(Parser.customTagMap) ->
  forall q this,
    keepsGathered options origin this ->
    pushAll pf sm chunks options {| base := this; stateMachine := Some q |}
    = feed pf sm (whole chunks) (q, this) >>= store.
Proof.
  intros K. induction chunks as [| chunk rest IH]; intros q this G.
  - reflexivity.
  - cbn [pushAll whole fold_right]. fold (whole rest).
    rewrite feed_app, andThen_assoc.
    unfold pushString at 1. cbn [base stateMachine].
    rewrite (gatherParseOptions_again options this (proj2 G)).
    destruct (feed pf sm chunk (q, this)) as [[q' this'] out | e] eqn:Fed;
      [| reflexivity].
    assert (G' : keepsGathered options origin this').
    { change this' with (snd (q', this')).
      eapply (feed_Inv pf sm (keepsGathered options origin)); [| | exact Fed].
      - intros e p p' o. apply deliver_keepsGathered. exact K.
      - exact G. }
    specialize (IH q' this' G').
    unfold andThen at 2. cbn [snd fst]. unfold andThen at 1.
    rewrite IH. unfold andThen at 2.
    destruct (feed pf sm (whole rest) (q', this') >>= store);
      rewrite ?app_nil_r; reflexivity.
Qed.

(** The caller's view of a parse: the playlist and the callback calls, or
    the exception. *)
Definition playlistOf {A} (o : Outcome (ParsedPlaylist.t * A))
    : Outcome ParsedPlaylist.t :=
  match o with
  | Returned (playlist, _) out => Returned playlist out
  | Threw e => Threw e
  end.

Lemma pushString_first pf sm chunk options this :
  pushString pf sm chunk options {| base := this; stateMachine := None |}
  = pushString pf sm chunk options
      {| base := gatherParseOptions options this;
         stateMachine := Some (initial sm) |}.
Proof.
  unfold pushString. cbn [base stateMachine].
  now rewrite (gatherParseOptions_again options
                 (gatherParseOptions options this)
                 (gatherParseOptions_gathered options this)).
Qed.

(** C2, as amended.  For every state machine, every parser whose custom tag
    handlers leave [baseUrl], [baseTime] and [baseDefine] of the shared state
    as they found them, and every list of chunks, pushing the chunks with the
    same parse options and calling [done] gives the caller the same playlist
    (and the same callback calls, or the same exception) as
    [parseFullPlaylistString] on the chunks put together.  With no chunk at
    all, [done] does not call the state machine: the two agree when the
    state machine makes no callback call on a newline right after creation. *)
Theorem chunking_equivalence pf sm parserOptions options chunks :
  handlersKeep sameOptions
    (Parser.constructor parserOptions).(Parser.customTagMap) ->
  (chunks = [] -> snd (transition sm (initial sm) newline) = []) ->
  playlistOf
    (parseProgressively pf sm chunks options (createProgressive sm parserOptions))
  = playlistOf
      (parseFullPlaylistString pf sm (whole chunks) options
         (Parser.constructor parserOptions)).
Proof.
  intros K Quiet. set (origin := Parser.constructor parserOptions) in *.
  destruct chunks as [| chunk rest].
  - specialize (Quiet eq_refl).
    unfold parseProgressively, parseFullPlaylistString, transitionToNewLine,
      call, done, createProgressive.
    cbn [pushAll whole fold_right feed]. rewrite !andThen_unit_left.
    cbn [base stateMachine]. rewrite andThen_unit_left.
    destruct (transition sm (initial sm) newline) as [q events].
    cbn [snd] in Quiet. subst events. reflexivity.
  - unfold parseProgressively, createProgressive. fold origin.
    cbn [pushAll]. rewrite pushString_first.
    change (pushString pf sm chunk options
              {| base := gatherParseOptions options origin;
                 stateMachine := Some (initial sm) |}
            >>= pushAll pf sm rest options)
      with (pushAll pf sm (chunk :: rest) options
              {| base := gatherParseOptions options origin;
                 stateMachine := Some (initial sm) |}).
    rewrite (pushAll_feed pf sm options (gatherParseOptions options origin)
               (chunk :: rest) K (initial sm)
               (gatherParseOptions options origin)
               (conj (sameConfig_refl _)
                  (gatherParseOptions_gathered options origin))).
    unfold parseFullPlaylistString.
    destruct (feed pf sm (whole (chunk :: rest))
                (initial sm, gatherParseOptions options origin))
      as [[q this] out | e]; [| reflexivity].
    unfold store, done, andThen. cbn [base stateMachine fst snd].
    destruct (transitionToNewLine pf sm (q, this)) as [[q' this'] out' | e];
      [| reflexivity].
    cbn [snd clean playlistOf]. unfold clean.
    rewrite ?app_nil_r, ?app_assoc. reflexivity.
Qed.

Lemma handlersKeep_nil R : handlersKeep R [].
Proof. intros k handler H. discriminate H. Qed.

Definition threeChunks : list string :=
  ["#EXTM3U" ++ Sample.LF ++ "#EXT"; "INF:5.0," ++ Sample.LF ++ "a"; ".ts"].

Lemma chunking_equivalence_witness :
  playlistOf
    (parseProgressively Sample.platform Scanner.createStateMachine threeChunks
       Sample.options
       (createProgressive Scanner.createStateMachine ParserOptions.none))
  = playlistOf
      (parseFullPlaylistString Sample.platform Scanner.createStateMachine
         (whole threeChunks) Sample.options
         (Parser.constructor ParserOptions.none)).
Proof.
  refine (chunking_equivalence Sample.platform Scanner.createStateMachine
            ParserOptions.none Sample.options threeChunks _ _).
  - apply handlersKeep_nil.
  - intros E. discriminate E.
Defined.

Module Rebase.

(** A handler for a tag of the caller's own that moves the time origin. *)
Definition handler : CustomTagProcessor :=
  fun _ _ _ custom sharedState =>
    (custom, SharedState.set_baseTime (inject_Z 100) sharedState).

Definition parserOptions : ParserOptions.t :=
  ParserOptions.mk (Some [("EXT-X-ORIGIN", handler)]) None None None.

Definition chunks : list string :=
  ["#EXT-X-ORIGIN" ++ Sample.LF; "#EXTINF:5.0," ++ Sample.LF ++ "a.ts"].

Definition progressive : Outcome ParsedPlaylist.t :=
  playlistOf
    (parseProgressively Sample.platform Scanner.createStateMachine chunks
       Sample.options
       (createProgressive Scanner.createStateMachine parserOptions)).

Definition full : Outcome ParsedPlaylist.t :=
  playlistOf
    (parseFullPlaylistString Sample.platform Scanner.createStateMachine
       (whole chunks) Sample.options (Parser.constructor parserOptions)).

Definition startTimes (o : Outcome ParsedPlaylist.t) : option (list Q) :=
  match o with
  | Returned playlist _ =>
      Some (List.map Segment.startTime playlist.(ParsedPlaylist.segments))
  | Threw _ => None
  end.

End Rebase.

(** The claim C2 as it is stated fails: with a custom handler that writes
    [sharedState.baseTime], the second push gathers the parse options again
    and undoes the handler's write, while the one-shot parse keeps it. *)
Lemma chunking_equivalence_counterexample :
  Rebase.startTimes Rebase.progressive = Some [0]
  /\ Rebase.startTimes Rebase.full = Some [inject_Z 100]
  /\ Rebase.progressive <> Rebase.full.
Proof.
  assert (P : Rebase.startTimes Rebase.progressive = Some [0])
    by (vm_compute; reflexivity).
  assert (F : Rebase.startTimes Rebase.full = Some [inject_Z 100])
    by (vm_compute; reflexivity).
  split; [exact P |]. split; [exact F |].
  intros E. rewrite E in P. rewrite P in F. discriminate F.
Qed.

(** *** The multivariant flag *)

Definition isUriInfo (e : ScanEvent) : bool :=
  match e with
  | UriInfo _ => true
  | TagInfo _ _ _ => false
  end.

Definition isMultivariant (this : Parser.t) : bool :=
  this.(Parser.sharedState).(SharedState.isMultivariantPlaylist).



(** An EXT-X-STREAM-INF tag that is processed: it is not in the ignore set
    and the attributes [transformTagAttributes] returns have the required
    BANDWIDTH. *)
Definition processedStreamInf (tagAttributes : StringMap) (this : Parser.t)
    : Prop :=
  ~ In ExtXStreamInf.tag this.(Parser.ignoreTags)
  /\ Js.has BaseStreamInfProcessor.BANDWIDTH
       (this.(Parser.transformTagAttributes) ExtXStreamInf.tag tagAttributes)
     = true.

(** The attributes its [safeProcess] works on: those
    [transformTagAttributes] returns, with the variables substituted when
    the playlist has defined some. *)
Definition streamInfAttributes (pf : Platform) (tagAttributes : StringMap)
    (this : Parser.t) : StringMap :=
  let transformed :=
    this.(Parser.transformTagAttributes) ExtXStreamInf.tag tagAttributes in
  if this.(Parser.sharedState).(SharedState.hasVariablesForSubstitution)
  then substitutedAttributes pf
         this.(Parser.parsedPlaylist).(ParsedPlaylist.define) transformed
  else transformed.

(** The parser after a processed EXT-X-STREAM-INF. *)
Definition withStreamInf (pf : Platform) (tagAttributes : StringMap)
    (this : Parser.t) : Parser.t :=
  let attributes := streamInfAttributes pf tagAttributes this in
  Parser.set_sharedState
    (SharedState.set_isMultivariantPlaylist true
       (SharedState.set_currentVariant
          (VariantStream.mk
             (BaseStreamInfProcessor.parseCommonAttributes pf attributes)
             (BaseStreamInfProcessor.numberIfTruthy pf
                (Js.get ExtXStreamInf.FRAME_RATE attributes))
             (Js.get ExtXStreamInf.AUDIO attributes)
             (Js.get ExtXStreamInf.SUBTITLES attributes)
             (Js.get ExtXStreamInf.CLOSED_CAPTIONS attributes))
          this.(Parser.sharedState)))
    (Parser.set_parsedPlaylist this.(Parser.parsedPlaylist) this).

(** The call of [tagInfoCallback] on a processed EXT-X-STREAM-INF: the
    dispatcher reaches the attribute-tag table, [process] finds BANDWIDTH,
    substitutes, and what [safeProcess] wrote is the parser's state. *)
Lemma tagInfoCallback_streamInf pf tagValue tagAttributes this :
  processedStreamInf tagAttributes this ->
  exists out,
    tagInfoCallback pf ExtXStreamInf.tag tagValue tagAttributes this
    = Returned (withStreamInf pf tagAttributes this) out.
Proof.
  intros (NotIgnored & Bandwidth).
  rewrite (tagInfoCallback_attributeTag pf ExtXStreamInf.tag tagValue
             tagAttributes this (ExtXStreamInf.processor pf) NotIgnored
             eq_refl eq_refl eq_refl).
  rewrite process_when_complete.
  - unfold withStreamInf, streamInfAttributes, traced. cbv zeta.
    destruct (SharedState.hasVariablesForSubstitution (Parser.sharedState this));
      eexists; reflexivity.
  - unfold missingRequired. cbn [ExtXStreamInf.processor
      TagWithAttributesProcessor.requiredAttributes filter].
    rewrite Bandwidth. reflexivity.
Qed.


Module Demoted.

(** A handler for a tag of the caller's own that clears the flag. *)
Definition handler : CustomTagProcessor :=
  fun _ _ _ custom sharedState =>
    (custom, SharedState.set_isMultivariantPlaylist false sharedState).

Definition parserOptions : ParserOptions.t :=
  ParserOptions.mk (Some [("EXT-X-SINGLE", handler)]) None None None.

Definition events : list ScanEvent :=
  [TagInfo "EXT-X-STREAM-INF" None [("BANDWIDTH", "1200000")];
   TagInfo "EXT-X-SINGLE" None [];
   UriInfo "low.m3u8"].



End Demoted.




(** *** The first segment *)




(** *** The bitrate of a segment *)

(** C8.  When a URI line finalizes a media segment, the guard of the
    bitrate block is the truthiness of [sharedState.currentBitrate]: a
    bitrate that is set to a truthy number is copied to a segment without
    byte range; one that is set to 0, -0 or NaN is not, and the segment
    keeps the bitrate [currentSegment] had, as it does when no bitrate is
    set or the segment has a byte range. *)
Theorem segment_bitrate pf uri resolvedUri this :
  exists s,
    handleCurrentSegment pf uri resolvedUri this
    = Returned (withSegment s this) (durationWarning pf uri this)
    /\ s.(Segment.byteRange)
       = this.(Parser.sharedState).(SharedState.currentSegment).(Segment.byteRange)
    /\ (forall rate,
           this.(Parser.sharedState).(SharedState.currentBitrate) = Some rate ->
           Js.truthyDouble rate = true ->
           s.(Segment.byteRange) = None ->
           s.(Segment.bitrate) = Some rate)
    /\ (forall rate,
           this.(Parser.sharedState).(SharedState.currentBitrate) = Some rate ->
           Js.truthyDouble rate = false ->
           s.(Segment.byteRange) = None ->
           s.(Segment.bitrate)
           = this.(Parser.sharedState).(SharedState.currentSegment).(Segment.bitrate))
    /\ (this.(Parser.sharedState).(SharedState.currentBitrate) = None
        \/ s.(Segment.byteRange) <> None ->
        s.(Segment.bitrate)
        = this.(Parser.sharedState).(SharedState.currentSegment).(Segment.bitrate)).
Proof.
  exists (finalize uri resolvedUri this).
  split; [apply handleCurrentSegment_blocks |].
  pose proof (finalize_Finalized uri resolvedUri this) as F.
  split; [apply (fin_byteRange _ _ _ _ F) |].
  rewrite (fin_bitrate _ _ _ _ F). repeat split.
  - intros rate Rate Truthy Range. rewrite Rate, Range. cbn [Js.truthyNumber].
    rewrite Truthy. reflexivity.
  - intros rate Rate Falsy Range. rewrite Rate. cbn [Js.truthyNumber].
    rewrite Falsy. reflexivity.
  - intros [Rate | Range].
    + rewrite Rate. reflexivity.
    + destruct (Segment.byteRange (finalize uri resolvedUri this));
        [| contradiction].
      now rewrite andb_false_r.
Qed.

Definition withBitrate (rate : float) : Parser.t :=
  Parser.set_sharedState
    (SharedState.set_currentBitrate (Some rate) createDefaultSharedState)
    (Parser.constructor ParserOptions.none).

(** A bitrate of 0 is set and the segment has no byte range: the segment's
    bitrate stays unset. *)
Lemma segment_bitrate_witness :
  exists s,
    handleCurrentSegment Sample.platform "a.ts" "a.ts" (withBitrate 0)
    = Returned (withSegment s (withBitrate 0)) []
    /\ (withBitrate 0).(Parser.sharedState).(SharedState.currentBitrate)
       = Some 0%float
    /\ s.(Segment.byteRange) = None
    /\ s.(Segment.bitrate) = None.
Proof.
  destruct (segment_bitrate Sample.platform "a.ts" "a.ts" (withBitrate 0))
    as (s & E & Range & _ & Falsy & _).
  exists s. split; [exact E |]. split; [reflexivity |].
  split; [exact Range |].
  exact (Falsy 0%float eq_refl eq_refl Range).
Defined.

(** The bitrate in effect and the bitrates of the segments after the lines
    [#EXT-X-BITRATE:rate] and [a.ts]. *)
Definition bitrateLine (rate : string) : option (option float * list (option float)) :=
  match
    deliverAll Sample.platform
      [TagInfo "EXT-X-BITRATE" (Some rate) []; UriInfo "a.ts"]
      (gatherParseOptions Sample.options (Parser.constructor ParserOptions.none))
  with
  | Returned this _ =>
      Some
        (this.(Parser.sharedState).(SharedState.currentBitrate),
         List.map Segment.bitrate
           this.(Parser.parsedPlaylist).(ParsedPlaylist.segments))
  | Threw _ => None
  end.

(** The line [#EXT-X-BITRATE:800] reaches the segment that follows, the
    line [#EXT-X-BITRATE:0] does not; NaN, which a custom tag handler can
    store, does not either. *)
Example bitrate_lines :
  bitrateLine "800" = Some (Some 800%float, [Some 800%float])
  /\ bitrateLine "0" = Some (Some 0%float, [None])
  /\ exists s,
      handleCurrentSegment Sample.platform "a.ts" "a.ts" (withBitrate nan)
      = Returned (withSegment s (withBitrate nan)) []
      /\ s.(Segment.bitrate) = None.
Proof.
  split; [vm_compute; reflexivity |]. split; [vm_compute; reflexivity |].
  eexists. split; reflexivity.
Qed.

(** *** EXT-X-SKIP without RECENTLY-REMOVED-DATERANGES *)

Lemma get_substitutedAttributes pf define k tagAttributes :
  Js.get k (substitutedAttributes pf define tagAttributes)
  = option_map (fun v => fst (substituteVariables pf v define))
      (Js.get k tagAttributes).
Proof.
  induction tagAttributes as [| [k' v] rest IH]; [reflexivity |].
  cbn [substitutedAttributes map Js.get fst snd].
  destruct (String.eqb k' k); [reflexivity | exact IH].
Qed.

Lemma ExtXSkip_safeProcess_throws pf tagAttributes playlist sharedState :
  Js.get ExtXSkip.RECENTLY_REMOVED_DATERANGES tagAttributes = None ->
  ExtXSkip.safeProcess pf tagAttributes playlist sharedState
  = Threw (TypeError "Cannot read properties of undefined (reading 'split')").
Proof.
  intros Absent. unfold ExtXSkip.safeProcess. rewrite Absent. reflexivity.
Qed.

(** C1 fails on the code.  An EXT-X-SKIP tag that is not ignored, has its
    SKIPPED-SEGMENTS attribute and has no RECENTLY-REMOVED-DATERANGES
    attribute makes [tagInfoCallback] throw: nothing is returned and no
    warning replaces the exception. *)
Theorem ExtXSkip_throws pf tagValue tagAttributes this :
  ~ In ExtXSkip.tag this.(Parser.ignoreTags) ->
  Js.has ExtXSkip.SKIPPED_SEGMENTS
    (this.(Parser.transformTagAttributes) ExtXSkip.tag tagAttributes)
  = true ->
  Js.get ExtXSkip.RECENTLY_REMOVED_DATERANGES
    (this.(Parser.transformTagAttributes) ExtXSkip.tag tagAttributes)
  = None ->
  tagInfoCallback pf ExtXSkip.tag tagValue tagAttributes this
  = Threw (TypeError "Cannot read properties of undefined (reading 'split')").
Proof.
  intros NotIgnored Present Absent.
  rewrite (tagInfoCallback_attributeTag pf ExtXSkip.tag tagValue tagAttributes
             this (ExtXSkip.processor pf) NotIgnored eq_refl eq_refl eq_refl).
  set (attributes :=
         Parser.transformTagAttributes this ExtXSkip.tag tagAttributes) in *.
  rewrite process_when_complete.
  - cbn [TagWithAttributesProcessor.safeProcess ExtXSkip.processor].
    destruct (SharedState.hasVariablesForSubstitution (Parser.sharedState this)).
    + rewrite ExtXSkip_safeProcess_throws; [reflexivity |].
      rewrite get_substitutedAttributes, Absent. reflexivity.
    + rewrite ExtXSkip_safeProcess_throws; [reflexivity | exact Absent].
  - unfold missingRequired.
    cbn [TagWithAttributesProcessor.requiredAttributes ExtXSkip.processor filter].
    rewrite Present. reflexivity.
Qed.

Lemma ExtXSkip_throws_witness :
  tagInfoCallback Sample.platform "EXT-X-SKIP" None [("SKIPPED-SEGMENTS", "3")]
    (Parser.constructor ParserOptions.none)
  = Threw (TypeError "Cannot read properties of undefined (reading 'split')").
Proof.
  refine (ExtXSkip_throws Sample.platform None [("SKIPPED-SEGMENTS", "3")]
            (Parser.constructor ParserOptions.none) _ eq_refl eq_refl).
  intros [].
Defined.

(** The same on a whole input: the one-shot parse of this line does not
    return a playlist. *)
Example ExtXSkip_line_throws :
  Sample.fullParse "#EXT-X-SKIP:SKIPPED-SEGMENTS=3" ParserOptions.none
  = Threw (TypeError "Cannot read properties of undefined (reading 'split')").
Proof. vm_compute. reflexivity. Qed.

(** Where else a callback can throw: nowhere but in the two processors that
    read a property of [undefined], EXT-X-SKIP (above) and EXT-X-MEDIA with a
    TYPE that is not in [typeToKeyMap]. *)
Definition returns {A} (o : Outcome A) : Prop :=
  match o with
  | Returned _ _ => True
  | Threw _ => False
  end.

Ltac returning := intros; unfold returns; split_cases; exact I.

Lemma emptyTagMap_returns k processor :
  Js.get k emptyTagMap = Some processor ->
  forall pl ss, returns (processor pl ss).
Proof.
  unfold emptyTagMap. cbn [Js.get]. intros H pl ss.
  repeat match type of H with
         | (if ?c then _ else _) = _ => destruct c
         end;
    inversion H; subst; exact I.
Qed.

Lemma tagValueMap_returns pf k processor :
  Js.get k (tagValueMap pf) = Some processor ->
  forall value pl ss, returns (processor value pl ss).
Proof.
  unfold tagValueMap. cbn [Js.get]. intros H value pl ss.
  repeat match type of H with
         | (if ?c then _ else _) = _ => destruct c
         end;
    inversion H; subst; clear H;
    unfold ValueTags.ExtXVersion, ValueTags.ExtXTargetDuration,
      ValueTags.ExtXMediaSequence, ValueTags.ExtXDiscontinuitySequence,
      ValueTags.ExtXBitrate, ValueTags.integerTag, ValueTags.ExtXPlaylistType,
      ValueTags.ExtInf, ValueTags.ExtXProgramDateTime, ValueTags.ExtXByteRange;
    returning.
Qed.

Lemma tagAttributesMap_returns pf k P :
  Js.get k (tagAttributesMap pf) = Some P ->
  k <> ExtXSkip.tag ->
  k <> ExtXMedia.tag ->
  forall a pl ss, returns (P.(TagWithAttributesProcessor.safeProcess) a pl ss).
Proof.
  unfold tagAttributesMap. cbn [Js.get]. intros H NotSkip NotMedia a pl ss.
  repeat match type of H with
         | (if String.eqb ?x k then _ else _) = _ =>
             destruct (String.eqb_spec x k)
         end;
    try congruence;
    inversion H; subst; clear H;
    cbn [TagWithAttributesProcessor.safeProcess ExtXStart.processor
         ExtXPartInf.processor ExtXServerControl.processor ExtXKey.processor
         ExtXMap.processor ExtXPart.processor ExtXStreamInf.processor
         ExtXIFrameStreamInf.processor ExtXDateRange.processor
         ExtXPreloadHint.processor ExtXRenditionReport.processor
         ExtXSessionData.processor ExtXSessionKey.processor
         ExtXContentSteering.processor ExtXDefine.processor];
    unfold ExtXStart.safeProcess, ExtXPartInf.safeProcess,
      ExtXServerControl.safeProcess, ExtXKey.safeProcess, ExtXMap.safeProcess,
      ExtXPart.safeProcess, ExtXStreamInf.safeProcess,
      ExtXIFrameStreamInf.safeProcess, ExtXDateRange.safeProcess,
      ExtXPreloadHint.safeProcess, ExtXRenditionReport.safeProcess,
      ExtXSessionData.safeProcess, ExtXSessionKey.safeProcess,
      ExtXContentSteering.safeProcess, ExtXDefine.safeProcess;
    returning.
Qed.

Lemma process_returns pf P attributes pl ss :
  (forall a, returns (P.(TagWithAttributesProcessor.safeProcess) a pl ss)) ->
  returns (TagWithAttributesProcessor.process pf P attributes pl ss).
Proof.
  intros H. unfold TagWithAttributesProcessor.process.
  destruct (TagWithAttributesProcessor.checkRequiredAttributes P attributes)
    as [missed out].
  destruct missed; [exact I |].
  destruct (TagWithAttributesProcessor.runVariableSubstitution pf P attributes
              pl ss) as [substituted out'].
  specialize (H substituted). unfold andThen.
  destruct (TagWithAttributesProcessor.safeProcess P substituted pl ss);
    [exact I | exact H].
Qed.

Lemma commit_returns this r : returns r -> returns (commit this r).
Proof. destruct r as [[pl ss] out | e]; intros H; exact H. Qed.

Lemma uriInfoCallback_returns pf uri this :
  returns (uriInfoCallback pf uri this).
Proof.
  rewrite uriInfoCallback_blocks. cbv zeta.
  destruct (SharedState.isMultivariantPlaylist (Parser.sharedState this));
    exact I.
Qed.

(** Every tag other than these two is processed without an exception, with
    every parser option and in every state.  The tag key is one that names
    no member of [Object.prototype], as every key of the scanner: the code
    consults its registries with [in], takes such a member for a processor
    and throws on the call of its [process]. *)
Lemma tagInfoCallback_returns pf tagKey tagValue tagAttributes this :
  Js.inherited tagKey = false ->
  tagKey <> ExtXSkip.tag ->
  tagKey <> ExtXMedia.tag ->
  returns (tagInfoCallback pf tagKey tagValue tagAttributes this).
Proof.
  intros _ NotSkip NotMedia. unfold tagInfoCallback, andThen, warnCallback.
  cbv beta.
  assert (Lift : forall r : Outcome Parser.t,
             returns r ->
             returns
               match r with
               | Returned b out' =>
                   Returned b ([Debugged tagKey tagValue tagAttributes] ++ out')
               | Threw e => Threw e
               end)
    by (intros [b o | e] H; exact H).
  apply Lift.
  destruct (existsb (String.eqb tagKey) (Parser.ignoreTags this)); [exact I |].
  destruct (Js.get tagKey emptyTagMap) as [processor |] eqn:Empty.
  { apply commit_returns. eapply emptyTagMap_returns; eauto. }
  destruct (Js.get tagKey (tagValueMap pf)) as [processor |] eqn:Value.
  { destruct (Parser.transformTagValue this tagKey tagValue); [| exact I].
    apply commit_returns. eapply tagValueMap_returns; eauto. }
  destruct (Js.get tagKey (tagAttributesMap pf)) as [P |] eqn:Attributes.
  { apply commit_returns. apply process_returns. intros a.
    eapply tagAttributesMap_returns; eauto. }
  destruct (Js.get tagKey (Parser.customTagMap this)) as [handler |];
    [| exact I].
  destruct (handler tagKey tagValue tagAttributes
              (ParsedPlaylist.custom (Parser.parsedPlaylist this))
              (Parser.sharedState this)); exact I.
Qed.

(** The other throwing line: a rendition of a type that has no group. *)
Example ExtXMedia_line_throws :
  Sample.fullParse "#EXT-X-MEDIA:TYPE=FOO,GROUP-ID=g,NAME=n" ParserOptions.none
  = Threw (TypeError "Cannot read properties of undefined (reading 'g')").
Proof. vm_compute. reflexivity. Qed.

(** With the attribute present the tag is processed. *)
Example ExtXSkip_line_with_dateranges :
  match
    Sample.fullParse
      "#EXT-X-SKIP:SKIPPED-SEGMENTS=3,RECENTLY-REMOVED-DATERANGES=a"
      ParserOptions.none
  with
  | Returned (playlist, _) _ =>
      playlist.(ParsedPlaylist.skip)
      = Some (Skip.mk (Js.Num (inject_Z 3)) ["a"])
  | Threw _ => False
  end.
Proof. vm_compute. reflexivity. Qed.

(** ** The scenarios of section 8.2 of the specification, run on the model *)

Module Scenario.

Definition lines (ls : list string) : string := String.concat Sample.LF ls.

Definition segmentsOf (text : string) : option (list Segment.t) :=
  match Sample.fullParse text ParserOptions.none with
  | Returned (playlist, _) _ => Some playlist.(ParsedPlaylist.segments)
  | Threw _ => None
  end.

(** Sequence number, discontinuity flag and number, start, end, URI. *)
Definition summary (s : Segment.t) : float * bool * float * Q * Q * string :=
  (s.(Segment.mediaSequence), s.(Segment.isDiscontinuity),
   s.(Segment.discontinuitySequence), Qred s.(Segment.startTime),
   Qred s.(Segment.endTime), s.(Segment.uri)).

Definition range (s : Segment.t) : option (Q * Q) :=
  match s.(Segment.byteRange) with
  | Some {| ByteRange.start := Js.Num a; ByteRange.end_ := Js.Num b |} =>
      Some (Qred a, Qred b)
  | _ => None
  end.

Definition discontinuity : string :=
  lines
    ["#EXTM3U"; "#EXT-X-TARGETDURATION:6"; "#EXTINF:5.0,"; "a.ts";
     "#EXT-X-DISCONTINUITY"; "#EXTINF:5.0,"; "b.ts"; "#EXT-X-ENDLIST"].

Definition byteRanges : string :=
  lines
    ["#EXTINF:5.0,"; "#EXT-X-BYTERANGE:1000@0"; "seg.mp4"; "#EXTINF:5.0,";
     "#EXT-X-BYTERANGE:1000"; "seg.mp4"].

End Scenario.

Example scenario_minimal_vod :
  option_map (List.map Scenario.summary) (Scenario.segmentsOf Sample.minimalVod)
  = Some
      [(0%float, false, 0%float, 0, inject_Z 5, "a.ts");
       (1%float, false, 0%float, inject_Z 5, inject_Z 10, "b.ts")].
Proof. vm_compute. reflexivity. Qed.

Example scenario_discontinuity :
  option_map (List.map Scenario.summary)
    (Scenario.segmentsOf Scenario.discontinuity)
  = Some
      [(0%float, false, 0%float, 0, inject_Z 5, "a.ts");
       (1%float, true, 1%float, inject_Z 5, inject_Z 10, "b.ts")].
Proof. vm_compute. reflexivity. Qed.

Example scenario_byte_ranges :
  option_map (List.map Scenario.range) (Scenario.segmentsOf Scenario.byteRanges)
  = Some
      [Some (0, inject_Z 999); Some (inject_Z 1000, inject_Z 1999)].
Proof. vm_compute. reflexivity. Qed.

(** * More of the code *)

(** ** Dictionaries *)

Lemma get_set_same {V} k (v : V) d : Js.get k (Js.set k v d) = Some v.
Proof.
  induction d as [| [k' v'] rest IH]; cbn [Js.set Js.get].
  - now rewrite String.eqb_refl.
  - destruct (String.eqb k' k) eqn:E; cbn [Js.get]; rewrite E; auto.
Qed.

Lemma get_set_other {V} k k' (v : V) d :
  k <> k' -> Js.get k' (Js.set k v d) = Js.get k' d.
Proof.
  intros N. induction d as [| [k0 v0] rest IH]; cbn [Js.set Js.get].
  - destruct (String.eqb_spec k k'); [contradiction | reflexivity].
  - destruct (String.eqb_spec k0 k) as [-> | N0]; cbn [Js.get].
    + destruct (String.eqb_spec k k'); [contradiction | reflexivity].
    + destruct (String.eqb k0 k'); [reflexivity | exact IH].
Qed.

Lemma get_In_keys {V} k (d : Js.Dict V) :
  In k (List.map fst d) <-> exists v, Js.get k d = Some v.
Proof.
  induction d as [| [k' v'] rest IH]; cbn [map In Js.get fst].
  - split; [intros [] | intros (v & H); discriminate H].
  - destruct (String.eqb_spec k' k) as [-> | N].
    + split; [intros _; now exists v' | intros _; now left].
    + rewrite <- IH. split; [intros [E | I]; [contradiction | exact I] | now right].
Qed.

(** Whether [d[k] = v] reaches the setter of [__proto__]. *)
Definition installs {V} (k : string) (d : Js.Keyed V) : bool :=
  (String.eqb k "__proto__" && negb (Js.has k d.(Js.entries)))%bool.

Lemma installs_named {V} k (d : Js.Keyed V) :
  k <> "__proto__" -> installs k d = false.
Proof.
  intros N. unfold installs.
  destruct (String.eqb_spec k "__proto__"); [contradiction | reflexivity].
Qed.

Lemma installs_prototype {V} (d : Js.Keyed V) :
  Js.get "__proto__" d.(Js.entries) = None -> installs "__proto__" d = true.
Proof. intros E. unfold installs, Js.has. rewrite E. reflexivity. Qed.

Lemma entries_assign {V} k k' (v : V) d :
  Js.get k' (Js.assign k v d).(Js.entries)
  = if (String.eqb k' k && negb (installs k d))%bool then Some v
    else Js.get k' d.(Js.entries).
Proof.
  unfold Js.assign. fold (installs k d).
  destruct (installs k d); cbn [Js.entries negb].
  - now rewrite andb_false_r.
  - rewrite andb_true_r. destruct (String.eqb_spec k' k) as [-> | N].
    + apply get_set_same.
    + apply get_set_other. congruence.
Qed.

Lemma installed_assign {V} k (v : V) d :
  (Js.assign k v d).(Js.installed)
  = if installs k d then Some v else d.(Js.installed).
Proof.
  unfold Js.assign. fold (installs k d). destruct (installs k d); reflexivity.
Qed.

(** ** EXT-X-SESSION-DATA: an entry per DATA-ID *)

(** The entry that [ExtXSessionData.safeProcess] builds. *)
Definition sessionDataOf (pf : Platform) (tagAttributes : StringMap)
    (sharedState : SharedState.t) : SessionData.t :=
  let uri := Js.get ExtXSessionData.URI tagAttributes in
  SessionData.mk uri
    (if Js.truthy uri
     then
       Some
         (resolvedOrRaw pf (ExtXMedia.asKey uri)
            sharedState.(SharedState.baseUrl))
     else None)
    (Js.get ExtXSessionData.DATA_ID tagAttributes)
    (Js.get ExtXSessionData.VALUE tagAttributes)
    (Js.get ExtXSessionData.FORMAT tagAttributes)
    (Js.get ExtXSessionData.LANGUAGE tagAttributes).

Lemma resolveUriAttribute_value pf tag uri baseUrl attributeKey :
  fst (TagWithAttributesProcessor.resolveUriAttribute pf tag uri baseUrl
         attributeKey)
  = resolvedOrRaw pf uri baseUrl.
Proof.
  unfold TagWithAttributesProcessor.resolveUriAttribute, resolvedOrRaw.
  destruct (resolveUri pf uri baseUrl); reflexivity.
Qed.

(** X1. EXT-X-SESSION-DATA assigns its entry to the property of
    [playlist.sessionData] that the DATA-ID names.  For a DATA-ID other than
    [__proto__] that is an own property: afterwards it holds the new entry
    (an earlier entry with the same id is replaced), and the prototype of
    the object is as it was.  For the DATA-ID [__proto__] the entry becomes
    the prototype of the object and the own properties are as they were.
    In both cases the properties under every other id are as they were, and
    nothing else of the playlist or of the shared state has changed. *)
Theorem ExtXSessionData_keyed pf tagAttributes playlist sharedState dataId :
  Js.get ExtXSessionData.DATA_ID tagAttributes = Some dataId ->
  exists sessionData out,
    ExtXSessionData.safeProcess pf tagAttributes playlist sharedState
    = Returned
        (ParsedPlaylist.set_sessionData sessionData playlist, sharedState) out
    /\ (dataId <> "__proto__" ->
        Js.get dataId sessionData.(Js.entries)
        = Some (sessionDataOf pf tagAttributes sharedState)
        /\ sessionData.(Js.installed)
           = playlist.(ParsedPlaylist.sessionData).(Js.installed))
    /\ (dataId = "__proto__" ->
        Js.get dataId playlist.(ParsedPlaylist.sessionData).(Js.entries)
        = None ->
        sessionData.(Js.entries)
        = playlist.(ParsedPlaylist.sessionData).(Js.entries)
        /\ sessionData.(Js.installed)
           = Some (sessionDataOf pf tagAttributes sharedState))
    /\ (forall other,
           other <> dataId ->
           Js.get other sessionData.(Js.entries)
           = Js.get other playlist.(ParsedPlaylist.sessionData).(Js.entries)).
Proof.
  intros Id.
  assert (Stored :
            forall record : SessionData.t,
              let sessionData :=
                Js.assign dataId record playlist.(ParsedPlaylist.sessionData) in
              (dataId <> "__proto__" ->
               Js.get dataId sessionData.(Js.entries) = Some record
               /\ sessionData.(Js.installed)
                  = playlist.(ParsedPlaylist.sessionData).(Js.installed))
              /\ (dataId = "__proto__" ->
                  Js.get dataId
                    playlist.(ParsedPlaylist.sessionData).(Js.entries)
                  = None ->
                  sessionData.(Js.entries)
                  = playlist.(ParsedPlaylist.sessionData).(Js.entries)
                  /\ sessionData.(Js.installed) = Some record)
              /\ (forall other,
                     other <> dataId ->
                     Js.get other sessionData.(Js.entries)
                     = Js.get other
                         playlist.(ParsedPlaylist.sessionData).(Js.entries))).
  { intros record. cbv zeta. split; [| split].
    - intros N. rewrite entries_assign, installed_assign.
      rewrite (installs_named _ _ N), String.eqb_refl. auto.
    - intros -> Absent. unfold Js.assign, Js.has. rewrite Absent.
      cbn [String.eqb Ascii.eqb Bool.eqb andb negb Js.entries Js.installed].
      auto.
    - intros other N. rewrite entries_assign.
      destruct (String.eqb_spec other dataId); [contradiction | reflexivity]. }
  unfold ExtXSessionData.safeProcess, sessionDataOf,
    TagWithAttributesProcessor.resolveUriAttribute, resolvedOrRaw.
  rewrite Id.
  destruct (Js.get ExtXSessionData.URI tagAttributes) as [[| c u] |];
    cbn [Js.truthy ExtXMedia.asKey SessionData.dataId];
    try destruct (resolveUri pf (String c u) (SharedState.baseUrl sharedState));
    (eexists; eexists; split; [reflexivity | apply Stored]).
Qed.

Definition sessionTitle : StringMap :=
  [("DATA-ID", "com.example.title"); ("VALUE", "Example")].

Lemma ExtXSessionData_keyed_witness :
  exists sessionData out,
    ExtXSessionData.safeProcess Sample.platform sessionTitle
      createDefaultParsedPlaylist createDefaultSharedState
    = Returned
        (ParsedPlaylist.set_sessionData sessionData
           createDefaultParsedPlaylist,
         createDefaultSharedState)
        out
    /\ Js.get "com.example.title" sessionData.(Js.entries)
       = Some
           (sessionDataOf Sample.platform sessionTitle
              createDefaultSharedState)
    /\ sessionData.(Js.installed) = None
    /\ (forall other,
           other <> "com.example.title" ->
           Js.get other sessionData.(Js.entries) = None).
Proof.
  destruct (ExtXSessionData_keyed Sample.platform sessionTitle
              createDefaultParsedPlaylist createDefaultSharedState
              "com.example.title" eq_refl)
    as (sessionData & out & E & Stored & _ & Others).
  exists sessionData, out. split; [exact E |].
  destruct Stored as (Entry & Prototype); [discriminate |].
  split; [exact Entry |]. split; [exact Prototype | exact Others].
Defined.

(** The entry of a tag with the DATA-ID [__proto__] becomes the prototype
    of [playlist.sessionData] and is no property of it. *)
Example ExtXSessionData_prototype :
  ExtXSessionData.safeProcess Sample.platform
    [("DATA-ID", "__proto__"); ("VALUE", "Example")]
    createDefaultParsedPlaylist createDefaultSharedState
  = Returned
      (ParsedPlaylist.set_sessionData
         {| Js.entries := [];
            Js.installed :=
              Some
                (SessionData.mk None None (Some "__proto__") (Some "Example")
                   None None) |}
         createDefaultParsedPlaylist,
       createDefaultSharedState)
      [].
Proof. reflexivity. Qed.

(** ** EXT-X-MEDIA: rendition groups *)

Definition renditionTypes : list string :=
  ["AUDIO"; "VIDEO"; "SUBTITLES"; "CLOSED-CAPTIONS"].

Lemma typeToKeyMap_known type :
  In type renditionTypes
  <-> exists key, Js.get type ExtXMedia.typeToKeyMap = Some key.
Proof.
  rewrite <- get_In_keys. reflexivity.
Qed.

Definition groupIdOf (tagAttributes : StringMap) : string :=
  ExtXMedia.asKey (Js.get ExtXMedia.GROUP_ID tagAttributes).

(** The groups of a TYPE of [typeToKeyMap]. *)
Definition groupsOf (tagAttributes : StringMap) (playlist : ParsedPlaylist.t)
    : option (Js.Dict (list Rendition.t)) :=
  option_map
    (fun key =>
       ExtXMedia.group key playlist.(ParsedPlaylist.renditionGroups))
    (Js.get (ExtXMedia.asKey (Js.get ExtXMedia.TYPE tagAttributes))
       ExtXMedia.typeToKeyMap).

(** X2. EXT-X-MEDIA throws in two cases and returns otherwise: when its
    TYPE is none of AUDIO, VIDEO, SUBTITLES and CLOSED-CAPTIONS; and when,
    the TYPE being one of the four, its GROUP-ID names a member that the
    groups of that type inherit from [Object.prototype] ([constructor],
    [toString], [__proto__], ...) and no group of that name exists. *)
Theorem ExtXMedia_throws_iff pf tagAttributes playlist sharedState :
  (exists e,
      ExtXMedia.safeProcess pf tagAttributes playlist sharedState = Threw e)
  <-> ~ In (ExtXMedia.asKey (Js.get ExtXMedia.TYPE tagAttributes))
          renditionTypes
      \/ exists groups,
          groupsOf tagAttributes playlist = Some groups
          /\ Js.read (groupIdOf tagAttributes) groups = Js.Inherited.
Proof.
  rewrite typeToKeyMap_known. unfold ExtXMedia.safeProcess, groupsOf.
  destruct (match Js.get ExtXMedia.URI tagAttributes with
            | Some u =>
                if Js.truthy (Js.get ExtXMedia.URI tagAttributes) then
                  let (r, out) :=
                    TagWithAttributesProcessor.resolveUriAttribute pf
                      ExtXMedia.tag u sharedState.(SharedState.baseUrl)
                      ExtXMedia.URI in
                  (Some r, out)
                else (None, [])
            | None => (None, [])
            end) as [resolvedUri out].
  cbv zeta. cbn [Rendition.type Rendition.groupId].
  fold (groupIdOf tagAttributes).
  destruct (Js.get (ExtXMedia.asKey (Js.get ExtXMedia.TYPE tagAttributes))
              ExtXMedia.typeToKeyMap) as [key |]; cbn [option_map].
  - destruct (Js.read (groupIdOf tagAttributes)
                (ExtXMedia.group key (ParsedPlaylist.renditionGroups playlist)))
      as [matchingGroup | |] eqn:Read.
    + split.
      * intros (e & E). discriminate E.
      * intros [N | (groups & G & R)].
        -- exfalso. apply N. now exists key.
        -- injection G as <-. rewrite Read in R. discriminate R.
    + split.
      * intros _. right. eexists. split; [reflexivity | exact Read].
      * intros _. eexists. reflexivity.
    + split.
      * intros (e & E). discriminate E.
      * intros [N | (groups & G & R)].
        -- exfalso. apply N. now exists key.
        -- injection G as <-. rewrite Read in R. discriminate R.
  - split.
    + intros _. left. intros (key & E). discriminate E.
    + intros _. eexists. reflexivity.
Qed.

Lemma group_set_group_same key v groups :
  ExtXMedia.group key (ExtXMedia.set_group key v groups) = v.
Proof. destruct key, groups; reflexivity. Qed.

Lemma group_set_group_other key key' v groups :
  key <> key' ->
  ExtXMedia.group key' (ExtXMedia.set_group key v groups)
  = ExtXMedia.group key' groups.
Proof. destruct key, key', groups; intros N; try reflexivity; now elim N. Qed.

(** The renditions of a group; a group that does not exist has none. *)
Definition renditionsOf (key : ExtXMedia.GroupKey) (groupId : string)
    (playlist : ParsedPlaylist.t) : list Rendition.t :=
  match
    Js.get groupId
      (ExtXMedia.group key playlist.(ParsedPlaylist.renditionGroups))
  with
  | Some renditions => renditions
  | None => []
  end.

(** X3. An EXT-X-MEDIA tag of a known TYPE whose GROUP-ID does not resolve
    to a member inherited from [Object.prototype] appends one rendition,
    carrying the tag's TYPE, GROUP-ID, NAME and URI, at the end of the group
    of that type and GROUP-ID (the group is created when it does not exist);
    the renditions of every other group, the rest of the playlist and the
    shared state stay as they were. *)
Theorem ExtXMedia_grouped pf tagAttributes playlist sharedState key :
  Js.get (ExtXMedia.asKey (Js.get ExtXMedia.TYPE tagAttributes))
    ExtXMedia.typeToKeyMap
  = Some key ->
  Js.read (groupIdOf tagAttributes)
    (ExtXMedia.group key playlist.(ParsedPlaylist.renditionGroups))
  <> Js.Inherited ->
  exists groups rendition out,
    ExtXMedia.safeProcess pf tagAttributes playlist sharedState
    = Returned
        (ParsedPlaylist.set_renditionGroups groups playlist, sharedState) out
    /\ renditionsOf key (groupIdOf tagAttributes)
         (ParsedPlaylist.set_renditionGroups groups playlist)
       = (renditionsOf key (groupIdOf tagAttributes) playlist
          ++ [rendition])%list
    /\ (forall key' groupId',
           key' <> key \/ groupId' <> groupIdOf tagAttributes ->
           Js.get groupId' (ExtXMedia.group key' groups)
           = Js.get groupId'
               (ExtXMedia.group key'
                  playlist.(ParsedPlaylist.renditionGroups)))
    /\ rendition.(Rendition.type) = Js.get ExtXMedia.TYPE tagAttributes
    /\ rendition.(Rendition.groupId)
       = Js.get ExtXMedia.GROUP_ID tagAttributes
    /\ rendition.(Rendition.name) = Js.get ExtXMedia.NAME tagAttributes
    /\ rendition.(Rendition.uri) = Js.get ExtXMedia.URI tagAttributes.
Proof.
  intros Known Plain. unfold ExtXMedia.safeProcess.
  destruct (match Js.get ExtXMedia.URI tagAttributes with
            | Some u =>
                if Js.truthy (Js.get ExtXMedia.URI tagAttributes) then
                  let (r, out) :=
                    TagWithAttributesProcessor.resolveUriAttribute pf
                      ExtXMedia.tag u sharedState.(SharedState.baseUrl)
                      ExtXMedia.URI in
                  (Some r, out)
                else (None, [])
            | None => (None, [])
            end) as [resolvedUri out].
  cbv zeta. cbn [Rendition.type Rendition.groupId]. rewrite Known.
  fold (groupIdOf tagAttributes). set (groupId := groupIdOf tagAttributes) in *.
  assert (Others :
            forall renditions key' groupId',
              key' <> key \/ groupId' <> groupId ->
              Js.get groupId'
                (ExtXMedia.group key'
                   (ExtXMedia.set_group key
                      (Js.set groupId renditions
                         (ExtXMedia.group key
                            (ParsedPlaylist.renditionGroups playlist)))
                      (ParsedPlaylist.renditionGroups playlist)))
              = Js.get groupId'
                  (ExtXMedia.group key'
                     (ParsedPlaylist.renditionGroups playlist))).
  { intros renditions key' groupId' [N | N].
    - now rewrite group_set_group_other by congruence.
    - destruct key, key', (ParsedPlaylist.renditionGroups playlist);
        cbn [ExtXMedia.set_group ExtXMedia.group RenditionGroups.set_audio
               RenditionGroups.set_video RenditionGroups.set_subtitles
               RenditionGroups.set_closedCaptions RenditionGroups.audio
               RenditionGroups.video RenditionGroups.subtitles
               RenditionGroups.closedCaptions];
        try reflexivity; apply get_set_other; congruence. }
  unfold Js.read in *. unfold renditionsOf.
  destruct (Js.get groupId
              (ExtXMedia.group key (ParsedPlaylist.renditionGroups playlist)))
    as [matchingGroup |] eqn:Group.
  - eexists. eexists. exists out. split; [reflexivity |].
    destruct playlist.
    cbn [ParsedPlaylist.set_renditionGroups ParsedPlaylist.renditionGroups]
      in *.
    rewrite group_set_group_same, get_set_same.
    split; [reflexivity |]. split; [apply Others | repeat split].
  - destruct (Js.inherited groupId); [now elim Plain |].
    eexists. eexists. exists out. split; [reflexivity |].
    destruct playlist.
    cbn [ParsedPlaylist.set_renditionGroups ParsedPlaylist.renditionGroups]
      in *.
    rewrite group_set_group_same, get_set_same.
    split; [reflexivity |]. split; [apply Others | repeat split].
Qed.

Definition englishAudio : StringMap :=
  [("TYPE", "AUDIO"); ("GROUP-ID", "aac"); ("NAME", "English")].

Lemma ExtXMedia_grouped_witness :
  exists groups rendition out,
    ExtXMedia.safeProcess Sample.platform englishAudio
      createDefaultParsedPlaylist createDefaultSharedState
    = Returned
        (ParsedPlaylist.set_renditionGroups groups createDefaultParsedPlaylist,
         createDefaultSharedState)
        out
    /\ renditionsOf ExtXMedia.audio "aac"
         (ParsedPlaylist.set_renditionGroups groups
            createDefaultParsedPlaylist)
       = (renditionsOf ExtXMedia.audio "aac" createDefaultParsedPlaylist
          ++ [rendition])%list
    /\ (forall key' groupId',
           key' <> ExtXMedia.audio \/ groupId' <> "aac" ->
           Js.get groupId' (ExtXMedia.group key' groups)
           = Js.get groupId'
               (ExtXMedia.group key'
                  createDefaultParsedPlaylist.(ParsedPlaylist.renditionGroups)))
    /\ rendition.(Rendition.type) = Some "AUDIO"
    /\ rendition.(Rendition.groupId) = Some "aac"
    /\ rendition.(Rendition.name) = Some "English"
    /\ rendition.(Rendition.uri) = None.
Proof.
  refine (ExtXMedia_grouped Sample.platform englishAudio
            createDefaultParsedPlaylist createDefaultSharedState
            ExtXMedia.audio eq_refl _).
  vm_compute. discriminate.
Defined.

(** The line [#EXT-X-MEDIA:TYPE=AUDIO,GROUP-ID="constructor",NAME="English"]
    throws. *)
Example ExtXMedia_inherited_group_throws :
  tagInfoCallback Sample.platform "EXT-X-MEDIA" None
    [("TYPE", "AUDIO"); ("GROUP-ID", "constructor"); ("NAME", "English")]
    (Parser.constructor ParserOptions.none)
  = Threw (TypeError "matchingGroup.push is not a function").
Proof. vm_compute. reflexivity. Qed.

Lemma keys_set {V} k k' (v : V) d :
  In k (List.map fst (Js.set k' v d)) <-> k = k' \/ In k (List.map fst d).
Proof.
  rewrite !get_In_keys. destruct (String.eqb_spec k' k) as [-> | N].
  - rewrite get_set_same. split; [now left | intros _; now exists v].
  - rewrite get_set_other by exact N. split; [now right |].
    intros [E | H]; [now elim N | exact H].
Qed.

(** ** EXT-X-DATERANGE: client attributes *)

Lemma get_required k (tagAttributes : StringMap) :
  In k (List.map fst tagAttributes) ->
  Js.get k tagAttributes = Some (required k tagAttributes).
Proof.
  rewrite get_In_keys. intros (v & E). unfold required. now rewrite E.
Qed.

Lemma get_copied (tagAttributes : StringMap) k keys :
  forall clientAttributes,
    Js.get k
      (List.fold_left
         (fun clientAttributes tagKey =>
            Js.set tagKey (required tagKey tagAttributes) clientAttributes)
         keys clientAttributes)
    = if List.existsb (String.eqb k) keys
      then Some (required k tagAttributes)
      else Js.get k clientAttributes.
Proof.
  induction keys as [| key keys IH]; intros clientAttributes;
    cbn [fold_left existsb]; [reflexivity |].
  rewrite IH. destruct (String.eqb_spec k key) as [-> | N]; cbn [orb].
  - rewrite get_set_same. destruct (existsb _ keys); reflexivity.
  - rewrite get_set_other by congruence. reflexivity.
Qed.

Lemma clientAttributesOf_lookup (tagAttributes : StringMap) k :
  Js.get k (ExtXDateRange.clientAttributesOf tagAttributes)
  = if String.prefix ExtXDateRange.CLIENT_ATTRIBUTES k
    then Js.get k tagAttributes
    else None.
Proof.
  unfold ExtXDateRange.clientAttributesOf. rewrite get_copied.
  destruct (existsb (String.eqb k) _) eqn:E.
  - apply existsb_exists in E. destruct E as (key & I & E).
    apply String.eqb_eq in E. subst key. apply filter_In in I.
    destruct I as (I & P). rewrite P. symmetry. now apply get_required.
  - cbn [Js.get].
    destruct (String.prefix ExtXDateRange.CLIENT_ATTRIBUTES k) eqn:P;
      [| reflexivity].
    destruct (Js.get k tagAttributes) as [v |] eqn:G; [| reflexivity].
    exfalso. assert (I : In k (List.map fst tagAttributes)).
    { apply get_In_keys. now exists v. }
    assert (X : existsb (String.eqb k)
                  (filter
                     (fun tagKey =>
                        String.prefix ExtXDateRange.CLIENT_ATTRIBUTES tagKey)
                     (List.map fst tagAttributes))
                = true).
    { apply existsb_exists. exists k. split.
      - apply filter_In. now split.
      - apply String.eqb_refl. }
    congruence.
Qed.

(** X4. EXT-X-DATERANGE appends one date range and leaves the shared state
    alone.  The client attributes of the date range are exactly the
    attributes of the tag whose name starts with [X-], each with the value it
    has in the tag: a lookup of such a name gives the tag's value, a lookup
    of any other name gives nothing. *)
Theorem ExtXDateRange_clientAttributes pf tagAttributes playlist sharedState :
  exists dateRange,
    ExtXDateRange.safeProcess pf tagAttributes playlist sharedState
    = Returned
        (ParsedPlaylist.set_dateRanges
           (playlist.(ParsedPlaylist.dateRanges) ++ [dateRange]) playlist,
         sharedState)
        []
    /\ dateRange.(DateRange.id) = Js.get ExtXDateRange.ID tagAttributes
    /\ (forall k,
           Js.get k dateRange.(DateRange.clientAttributes)
           = if String.prefix ExtXDateRange.CLIENT_ATTRIBUTES k
             then Js.get k tagAttributes
             else None).
Proof.
  eexists. split; [reflexivity |]. split; [reflexivity |].
  intros k. apply clientAttributesOf_lookup.
Qed.

(** ** Splitting attribute values *)

Fixpoint occurrences (sep : ascii) (s : string) : nat :=
  match s with
  | EmptyString => 0
  | String c rest =>
      if Ascii.eqb c sep then S (occurrences sep rest)
      else occurrences sep rest
  end.

(** [parts.join(sep)]. *)
Fixpoint join (sep : ascii) (parts : list string) : string :=
  match parts with
  | [] => EmptyString
  | [part] => part
  | part :: rest => part ++ String sep (join sep rest)
  end.

Lemma split_not_empty sep s : Js.split sep s <> [].
Proof.
  destruct s as [| c s]; cbn [Js.split]; [discriminate |].
  destruct (Ascii.eqb c sep); [discriminate |].
  destruct (Js.split sep s); discriminate.
Qed.

Lemma split_join sep s : join sep (Js.split sep s) = s.
Proof.
  induction s as [| c s IH]; cbn [Js.split]; [reflexivity |].
  destruct (Ascii.eqb_spec c sep) as [-> | N].
  - pose proof (split_not_empty sep s) as NE.
    destruct (Js.split sep s) as [| h t]; [now elim NE |].
    cbn [join append] in *. now rewrite IH.
  - pose proof (split_not_empty sep s) as NE.
    destruct (Js.split sep s) as [| h t]; [now elim NE |].
    destruct t as [| h' t]; cbn [join append] in *; now rewrite IH.
Qed.

Lemma split_parts sep s :
  Forall (fun part => occurrences sep part = 0%nat) (Js.split sep s).
Proof.
  induction s as [| c s IH]; cbn [Js.split].
  - constructor; [reflexivity | constructor].
  - destruct (Ascii.eqb c sep) eqn:E.
    + constructor; [reflexivity | exact IH].
    + destruct (Js.split sep s) as [| h t]; inversion IH; subst;
        constructor; cbn [occurrences]; rewrite ?E; auto.
Qed.

Lemma split_none sep s :
  occurrences sep s = 0%nat -> Js.split sep s = [s].
Proof.
  induction s as [| c s IH]; cbn [occurrences Js.split]; [reflexivity |].
  destruct (Ascii.eqb c sep); [discriminate |].
  intros Z. now rewrite (IH Z).
Qed.

Lemma split_app sep a b :
  occurrences sep a = 0%nat ->
  Js.split sep (a ++ String sep b) = a :: Js.split sep b.
Proof.
  induction a as [| c a IH]; cbn [occurrences Js.split append].
  - now rewrite Ascii.eqb_refl.
  - destruct (Ascii.eqb c sep); [discriminate |].
    intros Z. now rewrite (IH Z).
Qed.

(** ** RESOLUTION and ALLOWED-CPC *)

Lemma append_not_empty a c b : (a ++ String c b)%string <> EmptyString.
Proof. destruct a; discriminate. Qed.

(** X5. [parseResolution] gives a resolution exactly for a value of the
    shape [W x H] with no further [x]: a missing or empty value, a value
    without [x] and a value with two or more [x] give nothing.  Width and
    height are [Number(W)] and [Number(H)], whatever these are. *)
Theorem parseResolution_shape pf value resolution :
  BaseStreamInfProcessor.parseResolution pf value = Some resolution
  <-> exists width height,
      value = Some (width ++ String "x" height)
      /\ occurrences "x" width = 0%nat
      /\ occurrences "x" height = 0%nat
      /\ resolution = Resolution.mk (Number pf width) (Number pf height).
Proof.
  unfold BaseStreamInfProcessor.parseResolution, ExtXMedia.splitIfTruthy.
  split.
  - destruct value as [v |]; [| discriminate].
    destruct (Js.truthy (Some v)); [| discriminate].
    pose proof (split_join "x" v) as J. pose proof (split_parts "x" v) as P.
    destruct (Js.split "x" v) as [| width [| height [| more rest]]];
      cbn [map]; try discriminate.
    intros E. injection E as <-. exists width, height.
    cbn [join] in J. apply Forall_cons_iff in P as (W & P).
    apply Forall_cons_iff in P as (H & _). subst v.
    split; [reflexivity | now split].
  - intros (width & height & -> & W & H & ->).
    rewrite (split_app "x" width height W), (split_none "x" height H).
    destruct (width ++ String "x" height)%string eqn:E;
      [now apply append_not_empty in E | reflexivity].
Qed.

Lemma resolution_unparsed pf :
  BaseStreamInfProcessor.parseResolution pf None = None
  /\ BaseStreamInfProcessor.parseResolution pf (Some "") = None
  /\ BaseStreamInfProcessor.parseResolution pf (Some "1080") = None
  /\ BaseStreamInfProcessor.parseResolution pf (Some "1x2x3") = None.
Proof. repeat split. Qed.

(** The key formats that the entries of an ALLOWED-CPC value name. *)
Definition keyFormatOf (entry : string) : option string :=
  nth_error (Js.split ":" entry) 0.

Lemma keys_assign {V} k k' (v : V) d :
  In k (List.map fst (Js.assign k' v d).(Js.entries))
  <-> (k = k' /\ k' <> "__proto__") \/ In k (List.map fst d.(Js.entries)).
Proof.
  unfold Js.assign, Js.has.
  destruct (String.eqb_spec k' "__proto__") as [-> | N]; cbn [andb].
  - destruct (Js.get "__proto__" (Js.entries d)) as [v' |] eqn:G;
      cbn [negb Js.entries].
    + rewrite keys_set. split.
      * intros [-> | H]; [| now right].
        right. apply get_In_keys. now exists v'.
      * intros [(_ & N) | H]; [now elim N | now right].
    + split; [now right | intros [(_ & N) | H]; [now elim N | exact H]].
  - cbn [Js.entries]. rewrite keys_set. split.
    + intros [-> | H]; [now left | now right].
    + intros [(-> & _) | H]; [now left | now right].
Qed.

(** One step of the [forEach] of [parseAllowedCpc]. *)
Definition recordEntry (cpcRecord : Js.Keyed (list string)) (entry : string)
    : Js.Keyed (list string) :=
  let parsedEntry := Js.split ":" entry in
  let keyFormat := nth_error parsedEntry 0 in
  match keyFormat with
  | Some k =>
      if Js.truthy keyFormat
      then
        Js.assign k (ExtXMedia.splitIfTruthy "/" (nth_error parsedEntry 1))
          cpcRecord
      else cpcRecord
  | None => cpcRecord
  end.

Lemma keys_recordEntry k entry cpcRecord :
  In k (List.map fst (recordEntry cpcRecord entry).(Js.entries))
  <-> (k <> EmptyString /\ k <> "__proto__" /\ keyFormatOf entry = Some k)
      \/ In k (List.map fst cpcRecord.(Js.entries)).
Proof.
  unfold recordEntry. cbv zeta. fold (keyFormatOf entry).
  destruct (keyFormatOf entry) as [[| c key] |]; cbn [Js.truthy].
  - split; [now right |].
    intros [(N & _ & E) | H]; [injection E as <-; now elim N | exact H].
  - rewrite keys_assign. split.
    + intros [(-> & N) | H]; [left | now right].
      split; [discriminate | split; [exact N | reflexivity]].
    + intros [(_ & N & E) | H]; [left | now right].
      injection E as <-. split; [reflexivity | exact N].
  - split; [now right | intros [(_ & _ & E) | H]; [discriminate E | exact H]].
Qed.

Lemma keys_allowedCpc k entries :
  forall cpcRecord : Js.Keyed (list string),
    In k
      (List.map fst (List.fold_left recordEntry entries cpcRecord).(Js.entries))
    <-> (k <> EmptyString /\ k <> "__proto__"
         /\ exists entry, In entry entries /\ keyFormatOf entry = Some k)
        \/ In k (List.map fst cpcRecord.(Js.entries)).
Proof.
  induction entries as [| entry entries IH]; intros cpcRecord;
    cbn [fold_left].
  - split; [now right | intros [(_ & _ & e & [] & _) | H]; exact H].
  - rewrite IH, keys_recordEntry. split.
    + intros [(N & P & e & I & E) | [(N & P & E) | H]].
      * left. split; [exact N |]. split; [exact P |].
        exists e. split; [now right | exact E].
      * left. split; [exact N |]. split; [exact P |].
        exists entry. split; [now left | exact E].
      * now right.
    + intros [(N & P & e & [<- | I] & E) | H].
      * right. left. auto.
      * left. split; [exact N |]. split; [exact P |]. now exists e.
      * right. now right.
Qed.

(** X6. The key formats recorded for an ALLOWED-CPC value, as the own
    properties of the record, are exactly the non-empty names other than
    [__proto__] that stand before the first colon of its comma-separated
    entries: an entry without a key format is skipped, an entry for
    [__proto__] sets the prototype of the record and is no property of it,
    and a missing or empty value records nothing. *)
Theorem parseAllowedCpc_keys value k :
  In k
    (List.map fst (BaseStreamInfProcessor.parseAllowedCpc value).(Js.entries))
  <-> k <> EmptyString
      /\ k <> "__proto__"
      /\ exists entry,
        In entry (ExtXMedia.splitIfTruthy "," value)
        /\ keyFormatOf entry = Some k.
Proof.
  unfold BaseStreamInfProcessor.parseAllowedCpc. cbv zeta.
  change (fun (cpcRecord : Js.Keyed (list string)) (entry : string) =>
            let parsedEntry := Js.split ":" entry in
            let keyFormat := nth_error parsedEntry 0 in
            match keyFormat with
            | Some k =>
                if Js.truthy keyFormat
                then
                  Js.assign k
                    (ExtXMedia.splitIfTruthy "/" (nth_error parsedEntry 1))
                    cpcRecord
                else cpcRecord
            | None => cpcRecord
            end) with recordEntry.
  rewrite keys_allowedCpc. cbn [map In Js.emptyKeyed Js.entries]. tauto.
Qed.

Example parseAllowedCpc_prototype :
  BaseStreamInfProcessor.parseAllowedCpc
    (Some "com.example.drm:a/b,__proto__:c,:d")
  = {| Js.entries := [("com.example.drm", ["a"; "b"])];
       Js.installed := Some ["c"] |}.
Proof. reflexivity. Qed.

(** ** EXT-X-KEY and EXT-X-SESSION-KEY *)

Lemma parseEncryptionTag_fields pf tag tagAttributes sharedState :
  let encryption :=
    fst (EncryptionTagProcessor.parseEncryptionTag pf tag tagAttributes
           sharedState) in
  encryption.(Encryption.method)
  = Js.get EncryptionTagProcessor.METHOD tagAttributes
  /\ encryption.(Encryption.uri)
     = Js.get EncryptionTagProcessor.URI tagAttributes
  /\ encryption.(Encryption.resolvedUri)
     = (if Js.truthy (Js.get EncryptionTagProcessor.URI tagAttributes)
        then
          Some
            (resolvedOrRaw pf
               (ExtXMedia.asKey
                  (Js.get EncryptionTagProcessor.URI tagAttributes))
               sharedState.(SharedState.baseUrl))
        else None)
  /\ encryption.(Encryption.keyFormat)
     = (if Js.truthy (Js.get EncryptionTagProcessor.KEYFORMAT tagAttributes)
        then
          ExtXMedia.asKey
            (Js.get EncryptionTagProcessor.KEYFORMAT tagAttributes)
        else "identity").
Proof.
  unfold EncryptionTagProcessor.parseEncryptionTag,
    TagWithAttributesProcessor.resolveUriAttribute, resolvedOrRaw.
  destruct (Js.get EncryptionTagProcessor.URI tagAttributes) as [[| c u] |];
    cbn [Js.truthy ExtXMedia.asKey];
    try destruct (resolveUri pf (String c u) (SharedState.baseUrl sharedState));
    cbn [fst Encryption.method Encryption.uri Encryption.resolvedUri
           Encryption.keyFormat];
    (repeat split;
     destruct (Js.get EncryptionTagProcessor.KEYFORMAT tagAttributes)
       as [[| c' k] |]; reflexivity).
Qed.

Lemma parseEncryptionTag_quiet pf tag tagAttributes sharedState :
  Js.truthy (Js.get EncryptionTagProcessor.URI tagAttributes) = false ->
  snd (EncryptionTagProcessor.parseEncryptionTag pf tag tagAttributes
         sharedState)
  = [].
Proof.
  unfold EncryptionTagProcessor.parseEncryptionTag.
  destruct (Js.get EncryptionTagProcessor.URI tagAttributes) as [[| c u] |];
    cbn [Js.truthy]; intros T; try discriminate T; reflexivity.
Qed.

(** The fields of a key that the tag's attributes decide. *)
Definition keyOf (pf : Platform) (tagAttributes : StringMap)
    (sharedState : SharedState.t) (encryption : Encryption.t) : Prop :=
  encryption.(Encryption.method)
  = Js.get EncryptionTagProcessor.METHOD tagAttributes
  /\ encryption.(Encryption.uri)
     = Js.get EncryptionTagProcessor.URI tagAttributes
  /\ encryption.(Encryption.resolvedUri)
     = (if Js.truthy (Js.get EncryptionTagProcessor.URI tagAttributes)
        then
          Some
            (resolvedOrRaw pf
               (ExtXMedia.asKey
                  (Js.get EncryptionTagProcessor.URI tagAttributes))
               sharedState.(SharedState.baseUrl))
        else None)
  /\ encryption.(Encryption.keyFormat)
     = (if Js.truthy (Js.get EncryptionTagProcessor.KEYFORMAT tagAttributes)
        then
          ExtXMedia.asKey
            (Js.get EncryptionTagProcessor.KEYFORMAT tagAttributes)
        else "identity").

(** X7. EXT-X-KEY replaces the current key exactly when its METHOD is NONE
    or it has a non-empty URI.  Otherwise the current key stays, the playlist
    and the rest of the shared state too, and the only thing emitted is the
    warning that the required attribute URI is missing.  EXT-X-SESSION-KEY
    makes no such check: it stores the key in the playlist whatever METHOD
    and URI are, and never touches the key applied to segments. *)
Theorem ExtXKey_requires_uri pf tagAttributes playlist sharedState :
  (Js.get EncryptionTagProcessor.METHOD tagAttributes <> Some "NONE"
   /\ Js.truthy (Js.get EncryptionTagProcessor.URI tagAttributes) = false ->
   ExtXKey.safeProcess pf tagAttributes playlist sharedState
   = Returned (playlist, sharedState)
       [Warned
          (Warn.missingRequiredAttributeWarn ExtXKey.tag
             EncryptionTagProcessor.URI)])
  /\ (Js.get EncryptionTagProcessor.METHOD tagAttributes = Some "NONE"
      \/ Js.truthy (Js.get EncryptionTagProcessor.URI tagAttributes) = true ->
      exists encryption out,
        ExtXKey.safeProcess pf tagAttributes playlist sharedState
        = Returned
            (playlist,
             SharedState.set_currentEncryption (Some encryption) sharedState)
            out
        /\ keyOf pf tagAttributes sharedState encryption)
  /\ (exists sessionKey out,
         ExtXSessionKey.safeProcess pf tagAttributes playlist sharedState
         = Returned
             (ParsedPlaylist.set_sessionKey (Some sessionKey) playlist,
              sharedState)
             out
         /\ keyOf pf tagAttributes sharedState sessionKey).
Proof.
  unfold ExtXKey.safeProcess, ExtXSessionKey.safeProcess.
  pose proof (parseEncryptionTag_fields pf ExtXKey.tag tagAttributes
                sharedState) as Key.
  pose proof (parseEncryptionTag_quiet pf ExtXKey.tag tagAttributes
                sharedState) as Quiet.
  pose proof (parseEncryptionTag_fields pf ExtXSessionKey.tag tagAttributes
                sharedState) as SessionKey.
  destruct (EncryptionTagProcessor.parseEncryptionTag pf ExtXKey.tag
              tagAttributes sharedState) as [encryption out].
  destruct (EncryptionTagProcessor.parseEncryptionTag pf ExtXSessionKey.tag
              tagAttributes sharedState) as [sessionKey out'].
  cbn [fst snd] in *. destruct Key as (Method & Uri & Rest).
  rewrite Method, Uri. split; [| split].
  - intros (N & T). rewrite T. specialize (Quiet T). subst out.
    unfold ExtXKey.isNot.
    destruct (Js.get EncryptionTagProcessor.METHOD tagAttributes) as [m |];
      [| reflexivity].
    destruct (String.eqb_spec m "NONE"); [congruence | reflexivity].
  - intros Accepted. exists encryption, out. split.
    + destruct Accepted as [-> | ->]; cbn [ExtXKey.isNot String.eqb];
        [reflexivity |].
      now rewrite Bool.andb_false_r.
    + unfold keyOf. rewrite Method, Uri. tauto.
  - exists sessionKey, out'. split; [reflexivity | exact SessionKey].
Qed.

Definition keyWithoutUri : StringMap := [("METHOD", "AES-128")].

Definition keyNone : StringMap := [("METHOD", "NONE")].

Lemma ExtXKey_requires_uri_witness :
  ExtXKey.safeProcess Sample.platform keyWithoutUri
    createDefaultParsedPlaylist createDefaultSharedState
  = Returned (createDefaultParsedPlaylist, createDefaultSharedState)
      [Warned (Warn.missingRequiredAttributeWarn "EXT-X-KEY" "URI")]
  /\ exists encryption out,
      ExtXKey.safeProcess Sample.platform keyNone createDefaultParsedPlaylist
        createDefaultSharedState
      = Returned
          (createDefaultParsedPlaylist,
           SharedState.set_currentEncryption (Some encryption)
             createDefaultSharedState)
          out
      /\ keyOf Sample.platform keyNone createDefaultSharedState encryption.
Proof.
  split.
  - apply (proj1 (ExtXKey_requires_uri Sample.platform keyWithoutUri
                    createDefaultParsedPlaylist createDefaultSharedState)).
    split; [discriminate | reflexivity].
  - apply (proj1 (proj2 (ExtXKey_requires_uri Sample.platform keyNone
                           createDefaultParsedPlaylist
                           createDefaultSharedState))).
    left. reflexivity.
Defined.

(** ** EXT-X-MAP and EXT-X-PART: byte ranges *)

(** What [resolveUriAttribute] emits: nothing, or the warning that the
    attribute could not be resolved. *)
Definition resolutionWarningFor (pf : Platform) (tag attributeKey uri
    baseUrl : string) : list Emitted :=
  snd
    (TagWithAttributesProcessor.resolveUriAttribute pf tag uri baseUrl
       attributeKey).

(** X8. EXT-X-MAP always replaces the current map, with the tag's URI, its
    resolution (or the URI itself) and the key that is current at the tag.
    A BYTERANGE [length@offset] gives the range from [offset] to
    [offset + length - 1]; a missing or empty BYTERANGE gives no range; a
    BYTERANGE without [@] gives a range whose end is not a number, and no
    warning says so. *)
Theorem ExtXMap_byteRange pf tagAttributes playlist sharedState :
  exists map,
    ExtXMap.safeProcess pf tagAttributes playlist sharedState
    = Returned
        (playlist, SharedState.set_currentMap (Some map) sharedState)
        (resolutionWarningFor pf ExtXMap.tag ExtXMap.URI
           (required ExtXMap.URI tagAttributes)
           sharedState.(SharedState.baseUrl))
    /\ map.(MediaInitializationSection.uri)
       = required ExtXMap.URI tagAttributes
    /\ map.(MediaInitializationSection.resolvedUri)
       = resolvedOrRaw pf (required ExtXMap.URI tagAttributes)
           sharedState.(SharedState.baseUrl)
    /\ map.(MediaInitializationSection.encryption)
       = sharedState.(SharedState.currentEncryption)
    /\ (Js.truthy (Js.get ExtXMap.BYTERANGE tagAttributes) = false ->
        map.(MediaInitializationSection.byteRange) = None)
    /\ (forall length offset,
           Js.get ExtXMap.BYTERANGE tagAttributes
           = Some (length ++ String "@" offset) ->
           occurrences "@" length = 0%nat ->
           occurrences "@" offset = 0%nat ->
           map.(MediaInitializationSection.byteRange)
           = Some
               (ByteRange.mk (Number pf offset)
                  (Js.sub (Js.add (Number pf offset) (Number pf length))
                     (Js.ofZ 1))))
    /\ (forall value,
           Js.get ExtXMap.BYTERANGE tagAttributes = Some value ->
           value <> EmptyString ->
           occurrences "@" value = 0%nat ->
           exists range,
             map.(MediaInitializationSection.byteRange) = Some range
             /\ Js.isNaN range.(ByteRange.end_) = true).
Proof.
  unfold ExtXMap.safeProcess, resolutionWarningFor, resolvedOrRaw,
    TagWithAttributesProcessor.resolveUriAttribute.
  destruct (resolveUri pf (required ExtXMap.URI tagAttributes)
              (SharedState.baseUrl sharedState));
    (eexists; split; [reflexivity |];
     cbn [MediaInitializationSection.uri MediaInitializationSection.resolvedUri
            MediaInitializationSection.encryption
            MediaInitializationSection.byteRange];
     split; [reflexivity |]; split; [reflexivity |]; split; [reflexivity |];
     split; [| split];
     [ destruct (Js.get ExtXMap.BYTERANGE tagAttributes) as [[| c v] |];
       cbn [Js.truthy]; intros T; try discriminate T; reflexivity
     | intros length offset -> L O;
       rewrite (split_app "@" length offset L), (split_none "@" offset O);
       destruct (length ++ String "@" offset)%string eqn:E;
       [now apply append_not_empty in E | reflexivity]
     | intros value -> N Z; rewrite (split_none "@" value Z);
       destruct value; [now elim N |];
       eexists; split; [reflexivity | reflexivity] ]).
Qed.

(** The offset that EXT-X-PART reads from a BYTERANGE value. *)
Definition partOffset (pf : Platform) (tagAttributes : StringMap)
    : Js.number :=
  NumberOf pf
    (nth_error (Js.split "@" (required ExtXPart.BYTERANGE tagAttributes)) 1).

Definition partLength (pf : Platform) (tagAttributes : StringMap)
    : Js.number :=
  NumberOf pf
    (nth_error (Js.split "@" (required ExtXPart.BYTERANGE tagAttributes)) 0).

(** The byte range of the last part of the current segment. *)
Definition previousRange (sharedState : SharedState.t) : option ByteRange.t :=
  match
    Js.last sharedState.(SharedState.currentSegment).(Segment.parts)
  with
  | Some previous => previous.(PartialSegment.byteRange)
  | None => None
  end.

Definition partWarnings (pf : Platform) (tagAttributes : StringMap)
    (sharedState : SharedState.t) : list Emitted :=
  resolutionWarningFor pf ExtXPart.tag ExtXPart.URI
    (required ExtXPart.URI tagAttributes) sharedState.(SharedState.baseUrl).

(** X9. EXT-X-PART either appends exactly one part to the current segment or
    changes nothing.  It changes nothing, and warns, exactly when the
    BYTERANGE has no usable offset and the current segment has no last part
    with a byte range.  A part without BYTERANGE has no range; with a usable
    offset the range starts there; without one it starts one byte after the
    end of the previous part's range.  In each case the range ends at
    start + length - 1. *)
Theorem ExtXPart_byteRange pf tagAttributes playlist sharedState :
  if (Js.truthy (Js.get ExtXPart.BYTERANGE tagAttributes)
      && Js.isNaN (partOffset pf tagAttributes))%bool
  then
    match previousRange sharedState with
    | None =>
        ExtXPart.safeProcess pf tagAttributes playlist sharedState
        = Returned (playlist, sharedState)
            (partWarnings pf tagAttributes sharedState
             ++ [Warned ExtXPart.byteRangeWithoutOffsetWarn])
    | Some previous =>
        exists part,
          ExtXPart.safeProcess pf tagAttributes playlist sharedState
          = Returned (playlist, ExtXPart.pushPart part sharedState)
              (partWarnings pf tagAttributes sharedState)
          /\ part.(PartialSegment.uri) = required ExtXPart.URI tagAttributes
          /\ part.(PartialSegment.byteRange)
             = Some
                 (ByteRange.mk
                    (Js.add previous.(ByteRange.end_) (Js.ofZ 1))
                    (Js.sub
                       (Js.add (Js.add previous.(ByteRange.end_) (Js.ofZ 1))
                          (partLength pf tagAttributes))
                       (Js.ofZ 1)))
    end
  else
    exists part,
      ExtXPart.safeProcess pf tagAttributes playlist sharedState
      = Returned (playlist, ExtXPart.pushPart part sharedState)
              (partWarnings pf tagAttributes sharedState)
      /\ part.(PartialSegment.uri) = required ExtXPart.URI tagAttributes
      /\ part.(PartialSegment.byteRange)
         = (if Js.truthy (Js.get ExtXPart.BYTERANGE tagAttributes)
            then
              Some
                (ByteRange.mk (partOffset pf tagAttributes)
                   (Js.sub
                      (Js.add (partOffset pf tagAttributes)
                         (partLength pf tagAttributes))
                      (Js.ofZ 1)))
            else None).
Proof.
  unfold ExtXPart.safeProcess, partWarnings, resolutionWarningFor, partOffset, partLength,
    previousRange, required, TagWithAttributesProcessor.resolveUriAttribute.
  destruct (resolveUri pf
              match Js.get ExtXPart.URI tagAttributes with
              | Some s => s
              | None => "undefined"
              end (SharedState.baseUrl sharedState));
    (destruct (Js.get ExtXPart.BYTERANGE tagAttributes) as [[| c value] |];
     cbn [Js.truthy andb];
     [ eexists; repeat split
     | destruct (Js.isNaN
                   (NumberOf pf
                      (nth_error (Js.split "@" (String c value)) 1))) eqn:O;
       [ destruct (Js.last
                     (Segment.parts (SharedState.currentSegment sharedState)))
           as [previous |];
         [ destruct (PartialSegment.byteRange previous);
           [eexists; repeat split | reflexivity]
         | reflexivity ]
       | eexists; repeat split ]
     | eexists; repeat split ]).
Qed.

(** ** EXT-X-PRELOAD-HINT *)

Lemma set_preloadHints_same playlist :
  ParsedPlaylist.set_preloadHints playlist.(ParsedPlaylist.preloadHints)
    playlist
  = playlist.
Proof. destruct playlist. reflexivity. Qed.

(** X10. EXT-X-PRELOAD-HINT stores its hint by TYPE: PART replaces the part
    hint only, MAP the map hint only, and any other TYPE leaves the playlist
    as it was, without a warning about the type.  The hint has no byte range
    exactly when BYTERANGE-START and BYTERANGE-LENGTH are both missing or
    empty; a start without length runs to [Number.MAX_SAFE_INTEGER], a
    length without start begins at 0. *)
Theorem ExtXPreloadHint_by_type pf tagAttributes playlist sharedState :
  exists hint hints,
    ExtXPreloadHint.safeProcess pf tagAttributes playlist sharedState
    = Returned
        (ParsedPlaylist.set_preloadHints hints playlist, sharedState)
        (resolutionWarningFor pf ExtXPreloadHint.tag ExtXPreloadHint.URI
           (required ExtXPreloadHint.URI tagAttributes)
           sharedState.(SharedState.baseUrl))
    /\ hint.(PreloadHint.uri) = required ExtXPreloadHint.URI tagAttributes
    /\ (Js.get ExtXPreloadHint.TYPE tagAttributes = Some "PART" ->
        hints
        = PreloadHints.set_part (Some hint)
            playlist.(ParsedPlaylist.preloadHints))
    /\ (Js.get ExtXPreloadHint.TYPE tagAttributes = Some "MAP" ->
        hints
        = PreloadHints.set_map (Some hint)
            playlist.(ParsedPlaylist.preloadHints))
    /\ (Js.get ExtXPreloadHint.TYPE tagAttributes <> Some "PART" ->
        Js.get ExtXPreloadHint.TYPE tagAttributes <> Some "MAP" ->
        ParsedPlaylist.set_preloadHints hints playlist = playlist)
    /\ (hint.(PreloadHint.byteRange) = None
        <-> Js.truthy (Js.get ExtXPreloadHint.BYTERANGE_START tagAttributes)
            = false
            /\ Js.truthy
                 (Js.get ExtXPreloadHint.BYTERANGE_LENGTH tagAttributes)
               = false)
    /\ (Js.truthy (Js.get ExtXPreloadHint.BYTERANGE_START tagAttributes)
        = true ->
        Js.truthy (Js.get ExtXPreloadHint.BYTERANGE_LENGTH tagAttributes)
        = false ->
        hint.(PreloadHint.byteRange)
        = Some
            (ByteRange.mk
               (NumberOf pf
                  (Js.get ExtXPreloadHint.BYTERANGE_START tagAttributes))
               Js.MAX_SAFE_INTEGER))
    /\ (Js.truthy (Js.get ExtXPreloadHint.BYTERANGE_START tagAttributes)
        = false ->
        Js.truthy (Js.get ExtXPreloadHint.BYTERANGE_LENGTH tagAttributes)
        = true ->
        hint.(PreloadHint.byteRange)
        = Some
            (ByteRange.mk (Js.ofZ 0)
               (Js.sub
                  (NumberOf pf
                     (Js.get ExtXPreloadHint.BYTERANGE_LENGTH tagAttributes))
                  (Js.ofZ 1)))).
Proof.
  unfold ExtXPreloadHint.safeProcess, resolutionWarningFor.
  destruct (TagWithAttributesProcessor.resolveUriAttribute pf
              ExtXPreloadHint.tag
              (required ExtXPreloadHint.URI tagAttributes)
              (SharedState.baseUrl sharedState) ExtXPreloadHint.URI)
    as [resolvedUri out].
  cbv zeta. cbn [snd].
  exists
    (PreloadHint.mk (required ExtXPreloadHint.URI tagAttributes) resolvedUri
       (if (Js.truthy
              (Js.get ExtXPreloadHint.BYTERANGE_START tagAttributes)
            && Js.truthy
                 (Js.get ExtXPreloadHint.BYTERANGE_LENGTH tagAttributes))%bool
        then
          Some
            (ByteRange.mk
               (NumberOf pf
                  (Js.get ExtXPreloadHint.BYTERANGE_START tagAttributes))
               (Js.sub
                  (Js.add
                     (NumberOf pf
                        (Js.get ExtXPreloadHint.BYTERANGE_START
                           tagAttributes))
                     (NumberOf pf
                        (Js.get ExtXPreloadHint.BYTERANGE_LENGTH
                           tagAttributes)))
                  (Js.ofZ 1)))
        else if (Js.truthy
                   (Js.get ExtXPreloadHint.BYTERANGE_START tagAttributes)
                 && negb
                      (Js.truthy
                         (Js.get ExtXPreloadHint.BYTERANGE_LENGTH
                            tagAttributes)))%bool
        then
          Some
            (ByteRange.mk
               (NumberOf pf
                  (Js.get ExtXPreloadHint.BYTERANGE_START tagAttributes))
               Js.MAX_SAFE_INTEGER)
        else if (negb
                   (Js.truthy
                      (Js.get ExtXPreloadHint.BYTERANGE_START tagAttributes))
                 && Js.truthy
                      (Js.get ExtXPreloadHint.BYTERANGE_LENGTH
                         tagAttributes))%bool
        then
          Some
            (ByteRange.mk (Js.ofZ 0)
               (Js.sub
                  (NumberOf pf
                     (Js.get ExtXPreloadHint.BYTERANGE_LENGTH tagAttributes))
                  (Js.ofZ 1)))
        else None)).
  eexists. split; [reflexivity |].
  cbn [PreloadHint.uri PreloadHint.byteRange].
  split; [reflexivity |]. split; [| split; [| split; [| split; [| split]]]].
  - intros ->. reflexivity.
  - intros ->. reflexivity.
  - intros P M. unfold ExtXKey.isNot.
    destruct (Js.get ExtXPreloadHint.TYPE tagAttributes) as [type |];
      [| apply set_preloadHints_same].
    destruct (String.eqb_spec type "PART"); [congruence |].
    destruct (String.eqb_spec type "MAP"); [congruence |].
    apply set_preloadHints_same.
  - destruct (Js.truthy
                (Js.get ExtXPreloadHint.BYTERANGE_START tagAttributes)),
      (Js.truthy (Js.get ExtXPreloadHint.BYTERANGE_LENGTH tagAttributes));
      cbn [andb negb]; split; try discriminate; try tauto;
      intros (A & B); discriminate.
  - intros -> ->. reflexivity.
  - intros -> ->. reflexivity.
Qed.

(** ** EXT-X-DEFINE *)

(** X11. An imported variable takes its value from the base definitions in
    the order NAME, IMPORT, QUERYPARAM, each read as [d[k]] reads it, and
    only a truthy value counts: a non-empty string stored under the name, or,
    when nothing is stored under it and it names a member of
    [Object.prototype], that member.  A truthy NAME value wins; otherwise
    IMPORT, then QUERYPARAM, decide.  Without base definitions, or with no
    truthy value anywhere, the value is null.  The value found is never the
    empty string, and for a name such as [constructor], with nothing stored
    under it in the names of plain base definitions, it is the inherited
    member and not null. *)
Theorem getValueForImportDefine_order importName sharedState :
  (sharedState.(SharedState.baseDefine) = None ->
   ExtXDefine.getValueForImportDefine importName sharedState = Define.Null)
  /\ (forall baseDefine,
         sharedState.(SharedState.baseDefine) = Some baseDefine ->
         ExtXDefine.getValueForImportDefine importName sharedState
         = match
             ExtXDefine.truthyEntry importName baseDefine.(Define.name),
             ExtXDefine.truthyImport importName baseDefine.(Define.import),
             ExtXDefine.truthyEntry importName baseDefine.(Define.queryParam)
           with
           | Some value, _, _ => value
           | None, Some value, _ => value
           | None, None, Some value => value
           | None, None, None => Define.Null
           end)
  /\ ExtXDefine.getValueForImportDefine importName sharedState
     <> Define.Text EmptyString
  /\ (forall baseDefine,
         sharedState.(SharedState.baseDefine) = Some baseDefine ->
         Js.get importName baseDefine.(Define.name).(Js.own) = None ->
         baseDefine.(Define.name).(Js.detached) = false ->
         Js.inherited importName = true ->
         ExtXDefine.getValueForImportDefine importName sharedState
         = Define.Member).
Proof.
  unfold ExtXDefine.getValueForImportDefine.
  split; [intros ->; reflexivity |]. split; [| split].
  - intros baseDefine ->.
    destruct (ExtXDefine.truthyEntry importName (Define.name baseDefine));
      [reflexivity |].
    destruct (ExtXDefine.truthyImport importName (Define.import baseDefine));
      reflexivity.
  - assert (T : forall d v, ExtXDefine.truthyEntry importName d = Some v ->
                            v <> Define.Text EmptyString).
    { intros d v. unfold ExtXDefine.truthyEntry.
      destruct (Js.lookup importName d) as [[[| c s] |] | |];
        cbn [Js.truthy]; intros E; inversion E; discriminate. }
    assert (I : forall d v, ExtXDefine.truthyImport importName d = Some v ->
                            v <> Define.Text EmptyString).
    { intros d v. unfold ExtXDefine.truthyImport.
      destruct (Js.lookup importName d) as [[[| c s] | |] | |];
        cbn [Js.truthy]; intros E; inversion E; discriminate. }
    destruct (SharedState.baseDefine sharedState) as [baseDefine |];
      [| discriminate].
    destruct (ExtXDefine.truthyEntry importName (Define.name baseDefine))
      eqn:N; [eapply T; exact N |].
    destruct (ExtXDefine.truthyImport importName (Define.import baseDefine))
      eqn:M; [eapply I; exact M |].
    destruct (ExtXDefine.truthyEntry importName (Define.queryParam baseDefine))
      eqn:Q; [eapply T; exact Q | discriminate].
  - intros baseDefine -> Absent Attached Named.
    unfold ExtXDefine.truthyEntry at 1, Js.lookup.
    rewrite Absent, Attached, Named. reflexivity.
Qed.

(** With plain, empty base definitions, [IMPORT="constructor"] finds the
    inherited function and [IMPORT="token"] finds nothing. *)
Example getValueForImportDefine_inherited :
  let sharedState :=
    SharedState.set_baseDefine
      (Some (Define.mk (Js.plain []) (Js.plain []) (Js.plain [])))
      createDefaultSharedState in
  ExtXDefine.getValueForImportDefine "constructor" sharedState = Define.Member
  /\ ExtXDefine.getValueForImportDefine "token" sharedState = Define.Null.
Proof. split; reflexivity. Qed.

(** *** Assignments to the three dictionaries *)

Lemma get_set_eqb {V} name key (value : V) d :
  Js.get name (Js.set key value d)
  = if String.eqb name key then Some value else Js.get name d.
Proof.
  destruct (String.eqb_spec name key) as [-> | N].
  - apply get_set_same.
  - apply get_set_other. congruence.
Qed.

Lemma writesOwn_named {V} k (o : Js.Object V) :
  k <> "__proto__" -> Js.writesOwn k o = true.
Proof.
  intros N. unfold Js.writesOwn.
  destruct (String.eqb_spec k "__proto__"); [contradiction | reflexivity].
Qed.

(** When the assignment reaches the accessor, the key is [__proto__], the
    object has no property of that name and still has its prototype. *)
Lemma writesOwn_false {V} k (o : Js.Object V) :
  Js.writesOwn k o = false ->
  k = "__proto__" /\ Js.get k o.(Js.own) = None /\ o.(Js.detached) = false.
Proof.
  unfold Js.writesOwn, Js.has. intros H. apply negb_false_iff in H.
  apply andb_prop in H. destruct H as (H & Attached).
  apply andb_prop in H. destruct H as (Key & Absent).
  apply String.eqb_eq in Key.
  destruct (Js.get k (Js.own o)); [discriminate Absent |].
  apply negb_true_iff in Attached. auto.
Qed.

Lemma own_store {V} (kind : V -> Js.Kind) name k v o :
  Js.get name (Js.store kind k v o).(Js.own)
  = if (String.eqb name k && Js.writesOwn k o)%bool then Some v
    else Js.get name o.(Js.own).
Proof.
  unfold Js.store. destruct (Js.writesOwn k o); cbn [Js.own].
  - rewrite get_set_eqb, andb_true_r. reflexivity.
  - rewrite andb_false_r. destruct (kind v); reflexivity.
Qed.

Definition removesPrototype (kind : Js.Kind) : bool :=
  match kind with
  | Js.NullValue => true
  | _ => false
  end.

Lemma detached_store {V} (kind : V -> Js.Kind) k v o :
  (Js.store kind k v o).(Js.detached)
  = (o.(Js.detached)
     || negb (Js.writesOwn k o) && removesPrototype (kind v))%bool.
Proof.
  unfold Js.store. destruct (Js.writesOwn k o) eqn:W; cbn [Js.detached negb andb].
  - now rewrite orb_false_r.
  - apply writesOwn_false in W. destruct W as (_ & _ & Attached).
    destruct (kind v); cbn [Js.detached removesPrototype];
      rewrite Attached; reflexivity.
Qed.

(** After [d[k] = v], the test [d[k] !== null] fails only when the
    assignment made the own property [k] and [v] is null. *)
Lemma lookup_store {V} (kind : V -> Js.Kind) k v o :
  Js.lookup k (Js.store kind k v o)
  = if Js.writesOwn k o then Js.Own v
    else if removesPrototype (kind v) then Js.Missing else Js.Inherited.
Proof.
  unfold Js.store, Js.lookup. destruct (Js.writesOwn k o) eqn:W; cbn [Js.own].
  - now rewrite get_set_same.
  - apply writesOwn_false in W. destruct W as (-> & Absent & Attached).
    destruct (kind v); cbn [Js.own Js.detached removesPrototype];
      rewrite Absent, ?Attached; reflexivity.
Qed.

Definition importFound (value : Define.Imported) : bool :=
  match value with
  | Define.Null => false
  | _ => true
  end.

Definition found (value : option string) : bool :=
  match value with
  | Some _ => true
  | None => false
  end.

Lemma importNotNull_store k v o :
  ExtXDefine.importNotNull k (Js.store Define.kindOfImported k v o)
  = (negb (Js.writesOwn k o) || importFound v)%bool.
Proof.
  unfold ExtXDefine.importNotNull. rewrite lookup_store.
  destruct (Js.writesOwn k o); cbn [negb orb];
    [destruct v; reflexivity |].
  destruct (removesPrototype (Define.kindOfImported v)); reflexivity.
Qed.

Lemma queryParamNotNull_store k v o :
  ExtXDefine.queryParamNotNull k (Js.store Define.kindOfQueryParam k v o)
  = (negb (Js.writesOwn k o) || found v)%bool.
Proof.
  unfold ExtXDefine.queryParamNotNull. rewrite lookup_store.
  destruct (Js.writesOwn k o); cbn [negb orb];
    [destruct v; reflexivity |].
  destruct (removesPrototype (Define.kindOfQueryParam v)); reflexivity.
Qed.

(** The three steps of [ExtXDefine.safeProcess] on the definitions. *)
Definition defineName (tagAttributes : StringMap) (d : Define.t) : Define.t :=
  if Js.truthy (Js.get ExtXDefine.NAME tagAttributes)
  then
    Define.set_name
      (Js.store Define.kindOfName
         (ExtXMedia.asKey (Js.get ExtXDefine.NAME tagAttributes))
         (Js.get ExtXDefine.VALUE tagAttributes) d.(Define.name))
      d
  else d.

Definition defineImport (tagAttributes : StringMap)
    (sharedState : SharedState.t) (d : Define.t) : Define.t :=
  if Js.truthy (Js.get ExtXDefine.IMPORT tagAttributes)
  then
    Define.set_import
      (Js.store Define.kindOfImported
         (ExtXMedia.asKey (Js.get ExtXDefine.IMPORT tagAttributes))
         (ExtXDefine.getValueForImportDefine
            (ExtXMedia.asKey (Js.get ExtXDefine.IMPORT tagAttributes))
            sharedState)
         d.(Define.import))
      d
  else d.

Definition defineQueryParam (pf : Platform) (tagAttributes : StringMap)
    (sharedState : SharedState.t) (d : Define.t) : Define.t :=
  if Js.truthy (Js.get ExtXDefine.QUERYPARAM tagAttributes)
  then
    Define.set_queryParam
      (Js.store Define.kindOfQueryParam
         (ExtXMedia.asKey (Js.get ExtXDefine.QUERYPARAM tagAttributes))
         (ExtXDefine.getValueForQueryParamDefine pf
            (ExtXMedia.asKey (Js.get ExtXDefine.QUERYPARAM tagAttributes))
            sharedState)
         d.(Define.queryParam))
      d
  else d.

Definition raisedBy (flag : bool) (sharedState : SharedState.t)
    : SharedState.t :=
  SharedState.set_hasVariablesForSubstitution
    (sharedState.(SharedState.hasVariablesForSubstitution) || flag)%bool
    sharedState.

Lemma raisedBy_false sharedState : raisedBy false sharedState = sharedState.
Proof.
  destruct sharedState. unfold raisedBy.
  cbn [SharedState.hasVariablesForSubstitution
         SharedState.set_hasVariablesForSubstitution].
  now rewrite Bool.orb_false_r.
Qed.

Lemma raisedBy_true sharedState :
  raisedBy true sharedState
  = SharedState.set_hasVariablesForSubstitution true sharedState.
Proof. unfold raisedBy. now rewrite Bool.orb_true_r. Qed.

Lemma onDefine_same playlist :
  ExtXDefine.onDefine (fun d => d) playlist = playlist.
Proof. destruct playlist. reflexivity. Qed.

Lemma processName_step tagAttributes playlist sharedState :
  ExtXDefine.processName tagAttributes (playlist, sharedState)
  = (ExtXDefine.onDefine (defineName tagAttributes) playlist,
     raisedBy (Js.truthy (Js.get ExtXDefine.NAME tagAttributes)) sharedState).
Proof.
  unfold ExtXDefine.processName, defineName.
  destruct (Js.get ExtXDefine.NAME tagAttributes) as [[| c n] |];
    cbn [Js.truthy ExtXMedia.asKey];
    rewrite ?raisedBy_false, ?raisedBy_true, ?onDefine_same; reflexivity.
Qed.

(** Whether the import step raises the substitution flag. *)
Definition importRaises (tagAttributes : StringMap)
    (sharedState : SharedState.t) (d : Define.t) : bool :=
  let importName := ExtXMedia.asKey (Js.get ExtXDefine.IMPORT tagAttributes) in
  (Js.truthy (Js.get ExtXDefine.IMPORT tagAttributes)
   && (negb (Js.writesOwn importName d.(Define.import))
       || importFound
            (ExtXDefine.getValueForImportDefine importName sharedState)))%bool.

(** Whether the query parameter step raises the substitution flag. *)
Definition queryParamRaises (pf : Platform) (tagAttributes : StringMap)
    (sharedState : SharedState.t) (d : Define.t) : bool :=
  let queryParam :=
    ExtXMedia.asKey (Js.get ExtXDefine.QUERYPARAM tagAttributes) in
  (Js.truthy (Js.get ExtXDefine.QUERYPARAM tagAttributes)
   && (negb (Js.writesOwn queryParam d.(Define.queryParam))
       || found
            (ExtXDefine.getValueForQueryParamDefine pf queryParam
               sharedState)))%bool.

Lemma processImport_step tagAttributes playlist sharedState :
  ExtXDefine.processImport tagAttributes (playlist, sharedState)
  = (ExtXDefine.onDefine (defineImport tagAttributes sharedState) playlist,
     raisedBy
       (importRaises tagAttributes sharedState
          playlist.(ParsedPlaylist.define))
       sharedState).
Proof.
  unfold ExtXDefine.processImport, defineImport, importRaises.
  destruct (Js.get ExtXDefine.IMPORT tagAttributes) as [[| c n] |];
    cbn [Js.truthy ExtXMedia.asKey andb];
    rewrite ?raisedBy_false, ?onDefine_same; try reflexivity.
  cbv zeta. destruct playlist.
  cbn [ExtXDefine.onDefine ParsedPlaylist.define ParsedPlaylist.set_define
         Define.import Define.set_import].
  rewrite importNotNull_store.
  destruct (negb (Js.writesOwn (String c n) (Define.import define))
            || importFound
                 (ExtXDefine.getValueForImportDefine (String c n) sharedState))%bool;
    rewrite ?raisedBy_false, ?raisedBy_true; reflexivity.
Qed.

Lemma processQueryParam_step pf tagAttributes playlist sharedState :
  ExtXDefine.processQueryParam pf tagAttributes (playlist, sharedState)
  = (ExtXDefine.onDefine (defineQueryParam pf tagAttributes sharedState)
       playlist,
     raisedBy
       (queryParamRaises pf tagAttributes sharedState
          playlist.(ParsedPlaylist.define))
       sharedState).
Proof.
  unfold ExtXDefine.processQueryParam, defineQueryParam, queryParamRaises.
  destruct (Js.get ExtXDefine.QUERYPARAM tagAttributes) as [[| c n] |];
    cbn [Js.truthy ExtXMedia.asKey andb];
    rewrite ?raisedBy_false, ?onDefine_same; try reflexivity.
  cbv zeta. destruct playlist.
  cbn [ExtXDefine.onDefine ParsedPlaylist.define ParsedPlaylist.set_define
         Define.queryParam Define.set_queryParam].
  rewrite queryParamNotNull_store.
  destruct (negb (Js.writesOwn (String c n) (Define.queryParam define))
            || found
                 (ExtXDefine.getValueForQueryParamDefine pf (String c n)
                    sharedState))%bool;
    rewrite ?raisedBy_false, ?raisedBy_true; reflexivity.
Qed.

(** What one assignment [d[key] = value], made when [present] holds, leaves
    in a dictionary [before]: the own property [key] when the assignment
    makes one, every other own property as it was, and no prototype when
    the assignment was [d.__proto__ = null]. *)
Definition assigned {V} (kind : V -> Js.Kind) (present : bool) (key : string)
    (value : V) (before after : Js.Object V) : Prop :=
  (forall name,
      Js.get name after.(Js.own)
      = if (present && String.eqb name key && Js.writesOwn key before)%bool
        then Some value
        else Js.get name before.(Js.own))
  /\ after.(Js.detached)
     = (before.(Js.detached)
        || present && negb (Js.writesOwn key before)
           && removesPrototype (kind value))%bool.

Lemma assigned_store {V} (kind : V -> Js.Kind) key (value : V) before :
  assigned kind true key value before (Js.store kind key value before).
Proof.
  split.
  - intros name. rewrite own_store. reflexivity.
  - rewrite detached_store. reflexivity.
Qed.

Lemma assigned_same {V} (kind : V -> Js.Kind) key (value : V) before :
  assigned kind false key value before before.
Proof.
  split; [reflexivity |]. cbn [andb]. now rewrite orb_false_r.
Qed.

(** X12. EXT-X-DEFINE handles NAME, IMPORT and QUERYPARAM independently, each
    when it is non-empty, by one assignment to its dictionary: NAME with the
    tag's VALUE, which may be missing; IMPORT and QUERYPARAM with the value
    looked up, which may be null.  The assignment makes the own property of
    that name and leaves the others, except for the name [__proto__] on a
    dictionary that has no such property and still has its prototype: then
    nothing is stored, and a null value removes the prototype.  The
    substitution flag is raised by a NAME, and by an IMPORT or QUERYPARAM
    unless the assignment stored null under the name; it is never lowered.
    The rest of the playlist and of the shared state is untouched, and
    nothing is emitted. *)
Theorem ExtXDefine_registers pf tagAttributes playlist sharedState :
  exists define flag,
    ExtXDefine.safeProcess pf tagAttributes playlist sharedState
    = Returned
        (ParsedPlaylist.set_define define playlist,
         SharedState.set_hasVariablesForSubstitution flag sharedState)
        []
    /\ flag
       = (sharedState.(SharedState.hasVariablesForSubstitution)
          || Js.truthy (Js.get ExtXDefine.NAME tagAttributes)
          || importRaises tagAttributes sharedState
               playlist.(ParsedPlaylist.define)
          || queryParamRaises pf tagAttributes sharedState
               playlist.(ParsedPlaylist.define))%bool
    /\ assigned Define.kindOfName
         (Js.truthy (Js.get ExtXDefine.NAME tagAttributes))
         (ExtXMedia.asKey (Js.get ExtXDefine.NAME tagAttributes))
         (Js.get ExtXDefine.VALUE tagAttributes)
         playlist.(ParsedPlaylist.define).(Define.name) define.(Define.name)
    /\ assigned Define.kindOfImported
         (Js.truthy (Js.get ExtXDefine.IMPORT tagAttributes))
         (ExtXMedia.asKey (Js.get ExtXDefine.IMPORT tagAttributes))
         (ExtXDefine.getValueForImportDefine
            (ExtXMedia.asKey (Js.get ExtXDefine.IMPORT tagAttributes))
            sharedState)
         playlist.(ParsedPlaylist.define).(Define.import)
         define.(Define.import)
    /\ assigned Define.kindOfQueryParam
         (Js.truthy (Js.get ExtXDefine.QUERYPARAM tagAttributes))
         (ExtXMedia.asKey (Js.get ExtXDefine.QUERYPARAM tagAttributes))
         (ExtXDefine.getValueForQueryParamDefine pf
            (ExtXMedia.asKey (Js.get ExtXDefine.QUERYPARAM tagAttributes))
            sharedState)
         playlist.(ParsedPlaylist.define).(Define.queryParam)
         define.(Define.queryParam).
Proof.
  unfold ExtXDefine.safeProcess.
  rewrite processName_step, processImport_step, processQueryParam_step.
  exists
    (defineQueryParam pf tagAttributes sharedState
       (defineImport tagAttributes sharedState
          (defineName tagAttributes playlist.(ParsedPlaylist.define)))).
  eexists. split; [| split; [reflexivity |]].
  - destruct playlist, sharedState.
    unfold raisedBy, ExtXDefine.onDefine, importRaises, queryParamRaises,
      defineImport, defineName.
    cbn [ParsedPlaylist.define ParsedPlaylist.set_define
           SharedState.hasVariablesForSubstitution
           SharedState.set_hasVariablesForSubstitution].
    destruct (Js.truthy (Js.get ExtXDefine.NAME tagAttributes)),
      (Js.truthy (Js.get ExtXDefine.IMPORT tagAttributes));
      cbn [Define.import Define.queryParam Define.set_name Define.set_import];
      reflexivity.
  - unfold defineQueryParam, defineImport, defineName.
    destruct (Js.truthy (Js.get ExtXDefine.NAME tagAttributes)),
      (Js.truthy (Js.get ExtXDefine.IMPORT tagAttributes)),
      (Js.truthy (Js.get ExtXDefine.QUERYPARAM tagAttributes));
      cbn [Define.name Define.import Define.queryParam Define.set_name
             Define.set_import Define.set_queryParam];
      repeat split;
      first [apply assigned_store | apply assigned_same
            | apply (proj1 (assigned_store _ _ _ _))
            | apply (proj2 (assigned_store _ _ _ _))
            | apply (proj1 (assigned_same _ _ _ _))
            | apply (proj2 (assigned_same _ _ _ _)) ].
Qed.

(** [NAME="__proto__"] stores nothing and raises the flag;
    [QUERYPARAM="__proto__"] without such a parameter in the base URL stores
    nothing, removes the prototype of the dictionary and raises the flag;
    [IMPORT="constructor"] without base definitions stores null and does not
    raise it. *)
Example ExtXDefine_prototype :
  ExtXDefine.safeProcess Sample.platform
    [("NAME", "__proto__"); ("VALUE", "v")]
    createDefaultParsedPlaylist createDefaultSharedState
  = Returned
      (createDefaultParsedPlaylist,
       SharedState.set_hasVariablesForSubstitution true
         createDefaultSharedState)
      []
  /\ ExtXDefine.safeProcess Sample.platform [("QUERYPARAM", "__proto__")]
       createDefaultParsedPlaylist createDefaultSharedState
     = Returned
         (ParsedPlaylist.set_define
            (Define.mk (Js.plain []) (Js.plain [])
               {| Js.own := []; Js.detached := true |})
            createDefaultParsedPlaylist,
          SharedState.set_hasVariablesForSubstitution true
            createDefaultSharedState)
         []
  /\ ExtXDefine.safeProcess Sample.platform [("IMPORT", "constructor")]
       createDefaultParsedPlaylist createDefaultSharedState
     = Returned
         (ParsedPlaylist.set_define
            (Define.mk (Js.plain [])
               (Js.plain [("constructor", Define.Null)]) (Js.plain []))
            createDefaultParsedPlaylist,
          createDefaultSharedState)
         [].
Proof. repeat split. Qed.

(** ** Who writes the shared state *)

(** What a processor registered under [tagKey] may change in the shared
    state. *)
Definition Writers (tagKey : string) (sharedState : SharedState.t)
    (r : Processed) : Prop :=
  match r with
  | Returned (_, sharedState') _ =>
      sharedState'.(SharedState.currentBitrate)
      = sharedState.(SharedState.currentBitrate)
      /\ sharedState'.(SharedState.baseUrl)
         = sharedState.(SharedState.baseUrl)
      /\ sharedState'.(SharedState.baseTime)
         = sharedState.(SharedState.baseTime)
      /\ sharedState'.(SharedState.baseDefine)
         = sharedState.(SharedState.baseDefine)
      /\ (tagKey <> ExtXStreamInf.tag ->
          sharedState'.(SharedState.isMultivariantPlaylist)
          = sharedState.(SharedState.isMultivariantPlaylist)
          /\ sharedState'.(SharedState.currentVariant)
             = sharedState.(SharedState.currentVariant))
      /\ (tagKey <> ExtXDefine.tag ->
          sharedState'.(SharedState.hasVariablesForSubstitution)
          = sharedState.(SharedState.hasVariablesForSubstitution))
      /\ (tagKey <> ExtXKey.tag ->
          sharedState'.(SharedState.currentEncryption)
          = sharedState.(SharedState.currentEncryption))
      /\ (tagKey <> ExtXMap.tag ->
          sharedState'.(SharedState.currentMap)
          = sharedState.(SharedState.currentMap))
      /\ (tagKey <> ExtXPart.tag ->
          sharedState'.(SharedState.currentSegment)
          = sharedState.(SharedState.currentSegment))
  | Threw _ => True
  end.

Ltac writers :=
  intros; unfold Writers; split_cases;
  repeat split; intros; try reflexivity; try congruence.

Lemma writers_unchanged tagKey playlist sharedState out :
  Writers tagKey sharedState (Returned (playlist, sharedState) out).
Proof. writers. Qed.

Lemma process_writers pf tagKey P attributes pl ss :
  (forall a,
      Writers tagKey ss (P.(TagWithAttributesProcessor.safeProcess) a pl ss)) ->
  Writers tagKey ss (TagWithAttributesProcessor.process pf P attributes pl ss).
Proof.
  intros H. unfold TagWithAttributesProcessor.process.
  destruct (TagWithAttributesProcessor.checkRequiredAttributes P attributes)
    as [missed out].
  destruct missed; [apply writers_unchanged |].
  destruct (TagWithAttributesProcessor.runVariableSubstitution pf P attributes
              pl ss) as [substituted out'].
  specialize (H substituted). unfold andThen.
  destruct (TagWithAttributesProcessor.safeProcess P substituted pl ss)
    as [[pl' ss'] out'' | e]; [exact H | exact I].
Qed.

Lemma tagAttributesMap_writers pf tagKey P :
  Js.get tagKey (tagAttributesMap pf) = Some P ->
  forall a pl ss,
    Writers tagKey ss (P.(TagWithAttributesProcessor.safeProcess) a pl ss).
Proof.
  unfold tagAttributesMap. cbn [Js.get]. intros H a pl ss.
  repeat match type of H with
         | (if String.eqb ?tag ?k then _ else _) = _ =>
             destruct (String.eqb_spec tag k)
         end;
    inversion H; subst; clear H;
    cbn [TagWithAttributesProcessor.safeProcess ExtXStart.processor
           ExtXPartInf.processor ExtXServerControl.processor
           ExtXKey.processor ExtXMap.processor ExtXPart.processor
           ExtXMedia.processor ExtXStreamInf.processor ExtXSkip.processor
           ExtXIFrameStreamInf.processor ExtXDateRange.processor
           ExtXPreloadHint.processor ExtXRenditionReport.processor
           ExtXSessionData.processor ExtXSessionKey.processor
           ExtXContentSteering.processor ExtXDefine.processor];
    unfold ExtXStart.safeProcess, ExtXPartInf.safeProcess,
      ExtXServerControl.safeProcess, ExtXKey.safeProcess,
      ExtXMap.safeProcess, ExtXPart.safeProcess, ExtXPart.pushPart,
      ExtXMedia.safeProcess, ExtXStreamInf.safeProcess, ExtXSkip.safeProcess,
      ExtXIFrameStreamInf.safeProcess, ExtXDateRange.safeProcess,
      ExtXPreloadHint.safeProcess, ExtXRenditionReport.safeProcess,
      ExtXSessionData.safeProcess, ExtXSessionKey.safeProcess,
      ExtXContentSteering.safeProcess, ExtXDefine.safeProcess,
      ExtXDefine.processQueryParam, ExtXDefine.processImport,
      ExtXDefine.processName;
    writers.
Qed.

(** X13. Among the attribute tags every field of the shared state has at
    most one writer.  Whatever the attributes, a tag of the table leaves the
    current bitrate and the parse options (base URL, base time, base
    definitions) as they were; only EXT-X-STREAM-INF changes the
    multivariant flag and the current variant, only EXT-X-DEFINE the
    substitution flag, only EXT-X-KEY the current key, only EXT-X-MAP the
    current map, and only EXT-X-PART the current segment. *)
Theorem attribute_tag_writers pf tagKey P tagAttributes playlist sharedState :
  Js.get tagKey (tagAttributesMap pf) = Some P ->
  Writers tagKey sharedState
    (TagWithAttributesProcessor.process pf P tagAttributes playlist
       sharedState).
Proof.
  intros Registered. apply process_writers. intros a.
  now apply (tagAttributesMap_writers pf).
Qed.

Lemma attribute_tag_writers_witness :
  Writers "EXT-X-KEY" createDefaultSharedState
    (TagWithAttributesProcessor.process Sample.platform
       (ExtXKey.processor Sample.platform) keyNone
       createDefaultParsedPlaylist createDefaultSharedState).
Proof.
  exact (attribute_tag_writers Sample.platform "EXT-X-KEY"
           (ExtXKey.processor Sample.platform) keyNone
           createDefaultParsedPlaylist createDefaultSharedState eq_refl).
Defined.

(** ** URI lines *)

(** The segments and variant streams collected so far. *)
Definition entries (this : Parser.t) : nat :=
  (length this.(Parser.parsedPlaylist).(ParsedPlaylist.segments)
   + length this.(Parser.parsedPlaylist).(ParsedPlaylist.variantStreams))%nat.

Lemma deliver_entries pf e this this' out :
  deliver pf e this = Returned this' out ->
  entries this' = (entries this + if isUriInfo e then 1 else 0)%nat.
Proof.
  destruct e as [tagKey tagValue tagAttributes | uri]; cbn [deliver isUriInfo];
    intros H.
  - apply tagInfoCallback_frame in H.
    destruct H as (_ & Segments & Variants & _).
    unfold entries. rewrite Segments, Variants. lia.
  - rewrite uriInfoCallback_blocks in H. cbv zeta in H. unfold entries.
    destruct (SharedState.isMultivariantPlaylist (Parser.sharedState this));
      inversion H; subst; clear H; unfold withVariant, withSegment;
      cbn [Parser.parsedPlaylist Parser.set_sharedState
             Parser.set_parsedPlaylist ParsedPlaylist.segments
             ParsedPlaylist.variantStreams ParsedPlaylist.set_segments
             ParsedPlaylist.set_variantStreams];
      rewrite length_app; cbn [length]; lia.
Qed.

(** X14. Every URI line adds exactly one entry to the playlist, a segment or
    a variant stream, and no tag adds or removes one: after any run of
    callback calls that returns, the number of segments plus the number of
    variant streams has grown by the number of URI lines, whatever the
    handlers, the warnings (a URI that does not resolve, a duration above
    the target duration) and the changes of the multivariant flag were. *)
Theorem uri_lines_counted pf events :
  forall this this' out,
    deliverAll pf events this = Returned this' out ->
    entries this'
    = (entries this + length (List.filter isUriInfo events))%nat.
Proof.
  induction events as [| e rest IH]; intros this this' out H.
  - inversion H; subst. cbn [filter length]. lia.
  - cbn [deliverAll] in H. apply andThen_returned in H.
    destruct H as (this1 & o & o' & E & H & _).
    rewrite (IH this1 this' o' H), (deliver_entries pf e this this1 o E).
    cbn [filter]. destruct (isUriInfo e); cbn [length]; lia.
Qed.

Definition twoSegmentLines : list ScanEvent :=
  [TagInfo "EXTINF" (Some "5.0,") []; UriInfo "a.ts";
   TagInfo "EXT-X-UNKNOWN" None []; UriInfo "b.ts"].

Lemma uri_lines_counted_witness :
  exists this' out,
    deliverAll Sample.platform twoSegmentLines
      (Parser.constructor ParserOptions.none)
    = Returned this' out
    /\ entries this' = 2%nat.
Proof.
  destruct (deliverAll Sample.platform twoSegmentLines
              (Parser.constructor ParserOptions.none))
    as [this' out | e] eqn:E; [| vm_compute in E; discriminate E].
  exists this', out. split; [reflexivity |].
  exact (uri_lines_counted Sample.platform twoSegmentLines
           (Parser.constructor ParserOptions.none) this' out E).
Defined.

(** ** What a segment takes from the state *)

(** The fields of the current segment that the blocks before the program
    date time leave alone, and the two they copy from the shared state. *)
Lemma blocks_rest sharedState previousSegment uri resolvedUri s :
  let s' :=
    applyBitrate sharedState
      (closeTime
         (linkToPrevious previousSegment
            (assignFromState sharedState uri resolvedUri s))) in
  s'.(Segment.title) = s.(Segment.title)
  /\ s'.(Segment.isGap) = s.(Segment.isGap)
  /\ s'.(Segment.parts) = s.(Segment.parts)
  /\ s'.(Segment.duration) = s.(Segment.duration)
  /\ s'.(Segment.programDateTimeStart) = s.(Segment.programDateTimeStart)
  /\ s'.(Segment.programDateTimeEnd) = s.(Segment.programDateTimeEnd)
  /\ s'.(Segment.encryption) = sharedState.(SharedState.currentEncryption)
  /\ s'.(Segment.map) = sharedState.(SharedState.currentMap).
Proof.
  cbv zeta. unfold applyBitrate, closeTime, linkToPrevious, assignFromState.
  destruct s, previousSegment as [previous |];
    cbn [Segment.isDiscontinuity Segment.set_startTime Segment.set_resolvedUri
           Segment.set_uri Segment.set_map Segment.set_encryption
           Segment.set_mediaSequence];
    try destruct isDiscontinuity;
    destruct (Js.truthyNumber (SharedState.currentBitrate sharedState)
              && _)%bool;
    repeat split.
Qed.

(** The fields that the two program-date-time blocks leave alone. *)
Lemma programDateTime_rest previousSegment s :
  let s' :=
    closeProgramDateTime (extrapolateProgramDateTime previousSegment s) in
  s'.(Segment.title) = s.(Segment.title)
  /\ s'.(Segment.isGap) = s.(Segment.isGap)
  /\ s'.(Segment.parts) = s.(Segment.parts)
  /\ s'.(Segment.duration) = s.(Segment.duration)
  /\ s'.(Segment.encryption) = s.(Segment.encryption)
  /\ s'.(Segment.map) = s.(Segment.map).
Proof.
  cbv zeta. unfold closeProgramDateTime, extrapolateProgramDateTime.
  destruct s, previousSegment as [previous |];
    cbn [Segment.programDateTimeStart];
    repeat match goal with
      | |- context [if ?c then _ else _] =>
          lazymatch c with
          | context [if _ then _ else _] => fail
          | _ => destruct c
          end
      | |- context [match ?x with Some _ => _ | None => _ end] =>
          lazymatch x with
          | context [match _ with Some _ => _ | None => _ end] => fail
          | _ => destruct x
          end
      end;
    repeat split.
Qed.

(** [start + duration * 1000], when there is a start. *)
Definition shifted (start : option Q) (duration : Q) : option Q :=
  option_map (fun start => (start + duration * inject_Z 1000)%Q) start.

(** The start that [handleCurrentSegment] gives to the segment it appends:
    its own when it has one, else the previous start moved by the previous
    duration. *)
Definition programDateTimeStartOf (this : Parser.t) : option Q :=
  let own :=
    this.(Parser.sharedState).(SharedState.currentSegment).(Segment.programDateTimeStart)
  in
  if Js.truthyQ own then own
  else
    match Js.last this.(Parser.parsedPlaylist).(ParsedPlaylist.segments) with
    | Some previous =>
        if Js.truthyQ previous.(Segment.programDateTimeStart)
        then
          shifted previous.(Segment.programDateTimeStart)
            previous.(Segment.duration)
        else own
    | None => own
    end.

Lemma close_extrapolate previousSegment s :
  let start :=
    if Js.truthyQ s.(Segment.programDateTimeStart)
    then s.(Segment.programDateTimeStart)
    else
      match previousSegment with
      | Some previous =>
          if Js.truthyQ previous.(Segment.programDateTimeStart)
          then
            shifted previous.(Segment.programDateTimeStart)
              previous.(Segment.duration)
          else s.(Segment.programDateTimeStart)
      | None => s.(Segment.programDateTimeStart)
      end in
  let s' :=
    closeProgramDateTime (extrapolateProgramDateTime previousSegment s) in
  s'.(Segment.programDateTimeStart) = start
  /\ s'.(Segment.programDateTimeEnd)
     = if Js.truthyQ start then shifted start s.(Segment.duration)
       else s.(Segment.programDateTimeEnd).
Proof.
  cbv zeta.
  unfold closeProgramDateTime, extrapolateProgramDateTime, shifted,
    Js.truthyQ.
  destruct s as [u r d title range bitrate disc gap enc map parts pdtStart
                   pdtEnd sequence discSequence startTime endTime].
  cbn [Segment.programDateTimeStart Segment.programDateTimeEnd
         Segment.duration].
  destruct pdtStart as [own |];
    [destruct (Qeq_bool own 0) eqn:Own |];
    (destruct previousSegment as [previous |];
     [destruct (Segment.programDateTimeStart previous) as [start |];
      [destruct (Qeq_bool start 0) eqn:Start |] |]);
    cbn [negb andb option_map Segment.programDateTimeStart
           Segment.programDateTimeEnd Segment.duration
           Segment.set_programDateTimeStart Segment.set_programDateTimeEnd];
    rewrite ?Own;
    cbn [negb andb option_map Segment.programDateTimeStart
           Segment.programDateTimeEnd Segment.duration
           Segment.set_programDateTimeStart Segment.set_programDateTimeEnd];
    try (destruct (Qeq_bool (start + Segment.duration previous * inject_Z 1000)
                     0));
    cbn [negb andb option_map Segment.programDateTimeStart
           Segment.programDateTimeEnd Segment.duration
           Segment.set_programDateTimeStart Segment.set_programDateTimeEnd];
    split; reflexivity.
Qed.

Lemma finalize_programDateTime uri resolvedUri this :
  (finalize uri resolvedUri this).(Segment.programDateTimeStart)
  = programDateTimeStartOf this
  /\ (finalize uri resolvedUri this).(Segment.programDateTimeEnd)
     = if Js.truthyQ (programDateTimeStartOf this)
       then
         shifted (programDateTimeStartOf this)
           this.(Parser.sharedState).(SharedState.currentSegment).(Segment.duration)
       else
         this.(Parser.sharedState).(SharedState.currentSegment).(Segment.programDateTimeEnd).
Proof.
  unfold finalize, programDateTimeStartOf. cbv zeta.
  destruct (blocks_rest this.(Parser.sharedState)
              (Js.last this.(Parser.parsedPlaylist).(ParsedPlaylist.segments))
              uri resolvedUri
              this.(Parser.sharedState).(SharedState.currentSegment))
    as (_ & _ & _ & Duration & Start & End & _).
  set (core := applyBitrate _ _) in *.
  pose proof (close_extrapolate
                (Js.last
                   this.(Parser.parsedPlaylist).(ParsedPlaylist.segments))
                core) as (A & B).
  rewrite Start, Duration, End in *. split; [exact A | exact B].
Qed.


(** X15. The program date time of the segment that [handleCurrentSegment]
    appends: a segment with a start of its own keeps it; a segment without
    one, after a segment that has one, starts where that one ends by its
    duration (previous start + previous duration x 1000); otherwise the start
    stays as it is.  Whenever the resulting start is set and not zero, the
    end is start + duration x 1000; otherwise the end is not written. *)
Theorem segment_programDateTime pf uri resolvedUri this :
  exists s,
    handleCurrentSegment pf uri resolvedUri this
    = Returned (withSegment s this) (durationWarning pf uri this)
    /\ s.(Segment.programDateTimeStart) = programDateTimeStartOf this
    /\ s.(Segment.programDateTimeEnd)
       = if Js.truthyQ (programDateTimeStartOf this)
         then
           shifted (programDateTimeStartOf this)
             this.(Parser.sharedState).(SharedState.currentSegment).(Segment.duration)
         else
           this.(Parser.sharedState).(SharedState.currentSegment).(Segment.programDateTimeEnd).
Proof.
  exists (finalize uri resolvedUri this).
  split; [apply handleCurrentSegment_blocks |].
  apply finalize_programDateTime.
Qed.

(** A segment whose program date time has a start that is not zero ends at
    start + duration x 1000. *)
Definition programDateTimeClosed (s : Segment.t) : Prop :=
  Js.truthyQ s.(Segment.programDateTimeStart) = true ->
  s.(Segment.programDateTimeEnd)
  = shifted s.(Segment.programDateTimeStart) s.(Segment.duration).

Lemma finalize_closed uri resolvedUri this :
  programDateTimeClosed (finalize uri resolvedUri this).
Proof.
  unfold programDateTimeClosed.
  destruct (finalize_programDateTime uri resolvedUri this) as (Start & End).
  rewrite Start, End,
    (fin_duration _ _ _ _ (finalize_Finalized uri resolvedUri this)).
  intros ->. reflexivity.
Qed.

Lemma deliver_closed pf e this this' out :
  Forall programDateTimeClosed
    this.(Parser.parsedPlaylist).(ParsedPlaylist.segments) ->
  deliver pf e this = Returned this' out ->
  Forall programDateTimeClosed
    this'.(Parser.parsedPlaylist).(ParsedPlaylist.segments).
Proof.
  intros Closed H.
  destruct e as [tagKey tagValue tagAttributes | uri]; cbn [deliver] in H.
  - apply tagInfoCallback_frame in H. destruct H as (_ & Same & _).
    rewrite Same. exact Closed.
  - rewrite uriInfoCallback_blocks in H. cbv zeta in H.
    destruct (SharedState.isMultivariantPlaylist (Parser.sharedState this));
      inversion H; subst; clear H.
    + exact Closed.
    + unfold withSegment.
      cbn [Parser.parsedPlaylist Parser.set_sharedState
             Parser.set_parsedPlaylist ParsedPlaylist.segments
             ParsedPlaylist.set_segments].
      apply Forall_app. split; [exact Closed |].
      constructor; [apply finalize_closed | constructor].
Qed.

(** X16. In every playlist returned by a parse, full or progressive, each
    segment whose program date time has a start that is not zero has the end
    start + duration x 1000 (in milliseconds), whether the start came from
    its own tag or from the segment before it.  ([this] is a new parser or
    one whose segments are so already.) *)
Theorem programDateTime_closed pf sm options this :
  Forall programDateTimeClosed
    this.(Parser.parsedPlaylist).(ParsedPlaylist.segments) ->
  (forall text playlist this' out,
      parseFullPlaylistString pf sm text options this
      = Returned (playlist, this') out ->
      Forall programDateTimeClosed playlist.(ParsedPlaylist.segments))
  /\ (forall chunks machine playlist this' out,
         parseProgressively pf sm chunks options
           {| base := this; stateMachine := machine |}
         = Returned (playlist, this') out ->
         Forall programDateTimeClosed playlist.(ParsedPlaylist.segments)).
Proof.
  intros Closed.
  pose (Inv := fun p : Parser.t =>
                 Forall programDateTimeClosed
                   p.(Parser.parsedPlaylist).(ParsedPlaylist.segments)).
  assert (Step : forall e p p' out,
             Inv p -> deliver pf e p = Returned p' out -> Inv p')
    by (intros e p p' out; apply deliver_closed).
  assert (Gather : forall o p, Inv p -> Inv (gatherParseOptions o p))
    by (intros o p I; exact I).
  split.
  - intros text playlist this' out H.
    destruct (parseFullPlaylistString_Inv pf sm Inv Step Gather _ _ _ _ _ _
                Closed H)
      as (accumulated & I & ->).
    exact I.
  - intros chunks machine playlist this' out H.
    destruct (parseProgressively_Inv pf sm Inv Step Gather chunks options
                {| base := this; stateMachine := machine |} _ _ _ Closed H)
      as (accumulated & I & ->).
    exact I.
Qed.

Definition datedVod : string :=
  "#EXTM3U" ++ Sample.LF ++ "#EXT-X-PROGRAM-DATE-TIME:1000" ++ Sample.LF
    ++ "#EXTINF:5," ++ Sample.LF ++ "a.ts" ++ Sample.LF ++ "#EXTINF:4,"
    ++ Sample.LF ++ "b.ts".

Definition programDateTimes (playlist : ParsedPlaylist.t)
    : list (option Q * option Q) :=
  List.map
    (fun s =>
       (s.(Segment.programDateTimeStart), s.(Segment.programDateTimeEnd)))
    playlist.(ParsedPlaylist.segments).

Lemma programDateTime_closed_witness :
  exists playlist this' out,
    Sample.fullParse datedVod ParserOptions.none
    = Returned (playlist, this') out
    /\ length playlist.(ParsedPlaylist.segments) = 2%nat
    /\ Forall programDateTimeClosed playlist.(ParsedPlaylist.segments).
Proof.
  eexists. eexists. eexists.
  split; [vm_compute; reflexivity |].
  split; [reflexivity |].
  refine (proj1
            (programDateTime_closed Sample.platform Scanner.createStateMachine
               Sample.options (Parser.constructor ParserOptions.none)
               (Forall_nil _))
            datedVod _ _ _ _).
  vm_compute. reflexivity.
Defined.

Lemma finalize_rest uri resolvedUri this :
  let s := finalize uri resolvedUri this in
  let current := this.(Parser.sharedState).(SharedState.currentSegment) in
  s.(Segment.title) = current.(Segment.title)
  /\ s.(Segment.isGap) = current.(Segment.isGap)
  /\ s.(Segment.parts) = current.(Segment.parts)
  /\ s.(Segment.encryption)
     = this.(Parser.sharedState).(SharedState.currentEncryption)
  /\ s.(Segment.map) = this.(Parser.sharedState).(SharedState.currentMap).
Proof.
  cbv zeta. unfold finalize. cbv zeta.
  destruct (blocks_rest this.(Parser.sharedState)
              (Js.last this.(Parser.parsedPlaylist).(ParsedPlaylist.segments))
              uri resolvedUri
              this.(Parser.sharedState).(SharedState.currentSegment))
    as (A1 & A2 & A3 & _ & _ & _ & A7 & A8).
  set (core := applyBitrate _ _) in *.
  destruct (programDateTime_rest
              (Js.last this.(Parser.parsedPlaylist).(ParsedPlaylist.segments))
              core)
    as (B1 & B2 & B3 & _ & B5 & B6).
  repeat split; congruence.
Qed.

(** What one segment hands to the next: nothing of its own. *)
Definition freshSegment (s : Segment.t) : Prop :=
  s.(Segment.duration) = createDefaultSegment.(Segment.duration)
  /\ s.(Segment.title) = createDefaultSegment.(Segment.title)
  /\ s.(Segment.byteRange) = createDefaultSegment.(Segment.byteRange)
  /\ s.(Segment.isDiscontinuity)
     = createDefaultSegment.(Segment.isDiscontinuity)
  /\ s.(Segment.isGap) = createDefaultSegment.(Segment.isGap)
  /\ s.(Segment.parts) = createDefaultSegment.(Segment.parts).

(** X17. Two URI lines in a row, in a media playlist: both segments are
    appended, in order, with the key and the map that were current before
    the first line, so EXT-X-KEY and EXT-X-MAP apply to every segment that
    follows them; the tags of the first segment (EXTINF, EXT-X-BYTERANGE,
    EXT-X-DISCONTINUITY, EXT-X-GAP, EXT-X-PART) do not reach the second one,
    which has the default duration, title, byte range, flags and parts. *)
Theorem consecutive_segments pf uri uri' this this' out :
  isMultivariant this = false ->
  deliverAll pf [UriInfo uri; UriInfo uri'] this = Returned this' out ->
  exists s s',
    this'.(Parser.parsedPlaylist).(ParsedPlaylist.segments)
    = (this.(Parser.parsedPlaylist).(ParsedPlaylist.segments) ++ [s; s'])%list
    /\ s.(Segment.encryption)
       = this.(Parser.sharedState).(SharedState.currentEncryption)
    /\ s'.(Segment.encryption)
       = this.(Parser.sharedState).(SharedState.currentEncryption)
    /\ s.(Segment.map) = this.(Parser.sharedState).(SharedState.currentMap)
    /\ s'.(Segment.map) = this.(Parser.sharedState).(SharedState.currentMap)
    /\ freshSegment s'
    /\ this'.(Parser.sharedState)
       = SharedState.set_currentSegment createDefaultSegment
           this.(Parser.sharedState).
Proof.
  unfold isMultivariant. intros Media H. cbn [deliverAll deliver] in H.
  apply andThen_returned in H. destruct H as (this1 & o1 & o1' & E1 & H & _).
  apply andThen_returned in H. destruct H as (this2 & o2 & o2' & E2 & H & _).
  inversion H; subst this2; clear H.
  rewrite uriInfoCallback_blocks in E1. cbv zeta in E1. rewrite Media in E1.
  inversion E1; subst this1; clear E1.
  rewrite uriInfoCallback_blocks in E2. cbv zeta in E2.
  unfold withSegment at 1 in E2.
  cbn [Parser.sharedState Parser.set_sharedState Parser.set_parsedPlaylist
         SharedState.isMultivariantPlaylist SharedState.set_currentSegment]
    in E2.
  rewrite Media in E2. inversion E2; subst this'; clear E2.
  eexists. eexists. split.
  { unfold withSegment.
    cbn [Parser.parsedPlaylist Parser.set_sharedState
           Parser.set_parsedPlaylist ParsedPlaylist.segments
           ParsedPlaylist.set_segments].
    rewrite <- app_assoc. reflexivity. }
  match goal with
  | |- context [finalize ?u ?r (withSegment ?s this)] =>
      pose proof (finalize_rest u r (withSegment s this)) as Second;
      pose proof (finalize_Finalized u r (withSegment s this)) as Core
  end.
  match goal with
  | |- Segment.encryption (finalize ?u ?r this) = _ /\ _ =>
      pose proof (finalize_rest u r this) as First
  end.
  cbv zeta in First, Second.
  destruct First as (_ & _ & _ & Key & Map).
  destruct Second as (Title & Gap & Parts & Key' & Map').
  destruct Core as [_ _ Duration Discontinuity Range _ _ _ _].
  unfold withSegment in Title, Gap, Parts, Key', Map', Duration,
    Discontinuity, Range.
  cbn [Parser.sharedState Parser.set_sharedState Parser.set_parsedPlaylist
         SharedState.currentSegment SharedState.set_currentSegment
         SharedState.currentEncryption SharedState.currentMap]
    in Title, Gap, Parts, Key', Map', Duration, Discontinuity, Range.
  split; [exact Key |]. split; [exact Key' |]. split; [exact Map |].
  split; [exact Map' |]. split.
  - unfold freshSegment. repeat split; assumption.
  - unfold withSegment. destruct this as [? ? ? ? ? sharedState].
    destruct sharedState. reflexivity.
Qed.

Definition twoUriLines : list ScanEvent := [UriInfo "a.ts"; UriInfo "b.ts"].

Lemma consecutive_segments_witness :
  exists this' out s s',
    deliverAll Sample.platform twoUriLines
      (Parser.constructor ParserOptions.none)
    = Returned this' out
    /\ this'.(Parser.parsedPlaylist).(ParsedPlaylist.segments) = [s; s']
    /\ freshSegment s'.
Proof.
  destruct (deliverAll Sample.platform twoUriLines
              (Parser.constructor ParserOptions.none))
    as [this' out | e] eqn:E; [| vm_compute in E; discriminate E].
  destruct (consecutive_segments Sample.platform "a.ts" "b.ts"
              (Parser.constructor ParserOptions.none) this' out eq_refl E)
    as (s & s' & Segments & _ & _ & _ & _ & Fresh & _).
  exists this', out, s, s'. split; [reflexivity |].
  split; [exact Segments | exact Fresh].
Defined.

(** ** The options of a parse in the playlist it returns *)

(** Every entry is resolved against the base URL of the options, and the
    first segment starts at their base time. *)
Definition Resolved (pf : Platform) (options : ParseOptions.t)
    (playlist : ParsedPlaylist.t) : Prop :=
  Forall
    (fun s =>
       s.(Segment.resolvedUri)
       = resolvedOrRaw pf s.(Segment.uri) options.(ParseOptions.baseUrl))
    playlist.(ParsedPlaylist.segments)
  /\ Forall
       (fun v =>
          v.(VariantStream.common).(BaseStreamInf.resolvedUri)
          = resolvedOrRaw pf v.(VariantStream.common).(BaseStreamInf.uri)
              options.(ParseOptions.baseUrl))
       playlist.(ParsedPlaylist.variantStreams)
  /\ (forall first,
         nth_error playlist.(ParsedPlaylist.segments) 0 = Some first ->
         first.(Segment.startTime) = orZero options.(ParseOptions.baseTime)).

Lemma last_none {A} (xs : list A) : Js.last xs = None -> xs = [].
Proof.
  destruct xs as [| x xs]; [reflexivity |]. intros H. exfalso.
  revert x H. induction xs as [| y ys IH]; intros x H.
  - discriminate H.
  - apply (IH y). exact H.
Qed.

Lemma deliver_Resolved pf options origin e this this' out :
  handlersKeep sameOptions origin.(Parser.customTagMap) ->
  keepsGathered options origin this
  /\ Resolved pf options this.(Parser.parsedPlaylist) ->
  deliver pf e this = Returned this' out ->
  keepsGathered options origin this'
  /\ Resolved pf options this'.(Parser.parsedPlaylist).
Proof.
  intros Keep (Gathered & Segments & Variants & First) H.
  split; [eapply deliver_keepsGathered; eauto |].
  destruct Gathered as (_ & BaseUrl & BaseTime & _).
  destruct e as [tagKey tagValue tagAttributes | uri]; cbn [deliver] in H.
  - apply tagInfoCallback_frame in H.
    destruct H as (_ & SameSegments & SameVariants & _).
    unfold Resolved. rewrite SameSegments, SameVariants. auto.
  - rewrite uriInfoCallback_blocks in H. cbv zeta in H. rewrite BaseUrl in H.
    destruct (SharedState.isMultivariantPlaylist (Parser.sharedState this));
      inversion H; subst; clear H; unfold Resolved, withVariant, withSegment;
      cbn [Parser.parsedPlaylist Parser.set_sharedState
             Parser.set_parsedPlaylist ParsedPlaylist.segments
             ParsedPlaylist.variantStreams ParsedPlaylist.set_segments
             ParsedPlaylist.set_variantStreams].
    + split; [exact Segments |]. split; [| exact First].
      apply Forall_app. split; [exact Variants |].
      constructor; [reflexivity | constructor].
    + pose proof (finalize_Finalized (substitutedUri pf uri this)
                    (resolvedOrRaw pf (substitutedUri pf uri this)
                       (ParseOptions.baseUrl options))
                    this) as F.
      split; [| split; [exact Variants |]].
      * apply Forall_app. split; [exact Segments |].
        constructor; [| constructor].
        now rewrite (fin_uri _ _ _ _ F), (fin_resolvedUri _ _ _ _ F).
      * intros first Head.
        destruct (ParsedPlaylist.segments (Parser.parsedPlaylist this))
          as [| head rest] eqn:Old.
        -- cbn in Head. injection Head as <-.
           destruct (fin_first _ _ _ _ F) as (Start & _).
           { rewrite Old. reflexivity. }
           now rewrite Start, BaseTime.
        -- apply First. exact Head.
Qed.

Lemma parseFullPlaylistString_gathered pf sm text options this :
  parseFullPlaylistString pf sm text options this
  = parseFullPlaylistString pf sm text options
      (gatherParseOptions options this).
Proof.
  unfold parseFullPlaylistString.
  now rewrite (gatherParseOptions_again options
                 (gatherParseOptions options this)
                 (gatherParseOptions_gathered options this)).
Qed.

Lemma pushString_gathered pf sm chunk options this machine :
  pushString pf sm chunk options {| base := this; stateMachine := machine |}
  = pushString pf sm chunk options
      {| base := gatherParseOptions options this; stateMachine := machine |}.
Proof.
  unfold pushString. cbn [base stateMachine].
  now rewrite (gatherParseOptions_again options
                 (gatherParseOptions options this)
                 (gatherParseOptions_gathered options this)).
Qed.

(** X18. The options of a parse show in the playlist it returns.  When no
    custom handler writes the parse options, in every playlist returned by a
    full parse, or by a progressive parse of one chunk or more, the resolved
    URI of each segment and of each variant stream is its URI resolved
    against [options.baseUrl] (the URI itself when that fails), and the first
    segment starts at [options.baseTime || 0].  ([this] is a new parser, or
    one whose playlist is so already.) *)
Theorem options_in_returned_playlist pf sm options this :
  handlersKeep sameOptions this.(Parser.customTagMap) ->
  Resolved pf options this.(Parser.parsedPlaylist) ->
  (forall text playlist this' out,
      parseFullPlaylistString pf sm text options this
      = Returned (playlist, this') out ->
      Resolved pf options playlist)
  /\ (forall chunk chunks machine playlist this' out,
         parseProgressively pf sm (chunk :: chunks) options
           {| base := this; stateMachine := machine |}
         = Returned (playlist, this') out ->
         Resolved pf options playlist).
Proof.
  intros Keep Initial.
  pose (Inv := fun p : Parser.t =>
                 keepsGathered options this p
                 /\ Resolved pf options p.(Parser.parsedPlaylist)).
  assert (Step : forall e p p' out,
             Inv p -> deliver pf e p = Returned p' out -> Inv p')
    by (intros e p p' out; apply deliver_Resolved; exact Keep).
  assert (Gather : forall p, Inv p -> Inv (gatherParseOptions options p)).
  { intros p ((Config & _) & R). split; [| exact R].
    split; [exact Config | apply gatherParseOptions_gathered]. }
  assert (Start : Inv (gatherParseOptions options this)).
  { split; [| exact Initial].
    split; [repeat split | apply gatherParseOptions_gathered]. }
  split.
  - intros text playlist this' out H.
    rewrite parseFullPlaylistString_gathered in H.
    unfold parseFullPlaylistString in H.
    apply andThen_returned in H. destruct H as (st1 & o1 & o1' & E1 & H & _).
    apply andThen_returned in H. destruct H as (st2 & o2 & o2' & E2 & H & _).
    inversion H; subst; clear H.
    assert (I : Inv (snd st2)).
    { eapply (call_Inv pf sm Inv Step); [| exact E2].
      eapply (feed_Inv pf sm Inv Step); [| exact E1].
      cbn [snd].
      rewrite (gatherParseOptions_again options
                 (gatherParseOptions options this)
                 (gatherParseOptions_gathered options this)).
      exact Start. }
    apply I.
  - intros chunk chunks machine playlist this' out H.
    unfold parseProgressively in H. cbn [pushAll] in H.
    rewrite pushString_gathered in H.
    apply andThen_returned in H. destruct H as (this2 & o & o' & E & H & _).
    apply andThen_returned in E. destruct E as (this1 & p & p' & E1 & E & _).
    assert (I1 : Inv (base sm this1)).
    { unfold pushString in E1. cbn [base stateMachine] in E1.
      apply andThen_returned in E1.
      destruct E1 as (st & q & q' & E1 & R & _). inversion R; subst; clear R.
      cbn [base].
      eapply (feed_Inv pf sm Inv Step); [| exact E1]. cbn [snd].
      rewrite (gatherParseOptions_again options
                 (gatherParseOptions options this)
                 (gatherParseOptions_gathered options this)).
      exact Start. }
    assert (I2 : Inv (base sm this2)).
    { clear E1. revert this1 this2 p' E I1 H.
      induction chunks as [| next rest IH]; intros this1 this2 p' E I1 H.
      - inversion E; subst. exact I1.
      - cbn [pushAll] in E. apply andThen_returned in E.
        destruct E as (this1' & r & r' & E1' & E & _).
        eapply (IH this1' this2 r' E); [| exact H].
        unfold pushString in E1'. apply andThen_returned in E1'.
        destruct E1' as (st & q & q' & E1' & R & _).
        inversion R; subst; clear R. cbn [base].
        eapply (feed_Inv pf sm Inv Step); [| exact E1']. cbn [snd].
        apply Gather. exact I1. }
    unfold done in H. apply andThen_returned in H.
    destruct H as (parser & r & r' & E2 & H & _).
    inversion H; subst; clear H.
    assert (I : Inv parser).
    { destruct (stateMachine sm this2) as [q |].
      - apply andThen_returned in E2.
        destruct E2 as (st & o1 & o1' & E2 & R & _).
        inversion R; subst. unfold transitionToNewLine in E2.
        eapply (call_Inv pf sm Inv Step) in E2; [exact E2 | exact I2].
      - inversion E2; subst. exact I2. }
    apply I.
Qed.

Lemma options_in_returned_playlist_witness :
  exists playlist this' out,
    Sample.fullParse Sample.minimalVod ParserOptions.none
    = Returned (playlist, this') out
    /\ length playlist.(ParsedPlaylist.segments) = 2%nat
    /\ Resolved Sample.platform Sample.options playlist.
Proof.
  eexists. eexists. eexists.
  split; [vm_compute; reflexivity |].
  split; [reflexivity |].
  refine (proj1
            (options_in_returned_playlist Sample.platform
               Scanner.createStateMachine Sample.options
               (Parser.constructor ParserOptions.none) _ _)
            Sample.minimalVod _ _ _ _).
  - apply handlersKeep_nil.
  - split; [constructor | split; [constructor |]].
    intros first H. discriminate H.
  - vm_compute. reflexivity.
Defined.

(** ** Numbering of the segments *)

Definition discontinuities (segments : list Segment.t) : Z :=
  Z.of_nat (length (List.filter Segment.isDiscontinuity segments)).

(** The two steps of the code on a counter: [previous + 1], and the same
    for a discontinuity only. *)
Definition increment (x : float) : float := (x + 1)%float.

Definition countDiscontinuity (x : float) (s : Segment.t) : float :=
  if s.(Segment.isDiscontinuity) then (x + 1)%float else x.

Lemma firstn_succ {A} (xs : list A) :
  forall i x,
    nth_error xs i = Some x -> firstn (S i) xs = (firstn i xs ++ [x])%list.
Proof.
  induction xs as [| y ys IH]; intros i x H.
  - destruct i; discriminate H.
  - destruct i as [| i].
    + cbn in H. injection H as <-. reflexivity.
    + cbn [nth_error] in H. change (firstn (S (S i)) (y :: ys))
        with (y :: firstn (S i) ys).
      rewrite (IH i x H). reflexivity.
Qed.

Lemma nth_error_before {A} (xs : list A) i x :
  nth_error xs (S i) = Some x -> exists y, nth_error xs i = Some y.
Proof.
  intros H. destruct (nth_error xs i) as [y |] eqn:E; [now exists y |].
  apply nth_error_None in E.
  assert (N : nth_error xs (S i) = None) by (apply nth_error_None; lia).
  congruence.
Qed.

(** As long as the result stays within [Number.MAX_SAFE_INTEGER], the
    repeated increments of an integer counter count. *)
Lemma iter_increment_exact k :
  forall m,
    (0 <= m)%Z -> (m + Z.of_nat k < 2 ^ 53)%Z ->
    Nat.iter k increment (Js.ofInteger m) = Js.ofInteger (m + Z.of_nat k).
Proof.
  induction k as [| k IH]; intros m Low High.
  - simpl Nat.iter. f_equal. lia.
  - simpl Nat.iter. rewrite IH by lia. unfold increment.
    rewrite increment_exact by lia. f_equal. lia.
Qed.

Lemma fold_countDiscontinuity_exact segments :
  forall d,
    (0 <= d)%Z -> (d + discontinuities segments < 2 ^ 53)%Z ->
    fold_left countDiscontinuity segments (Js.ofInteger d)
    = Js.ofInteger (d + discontinuities segments).
Proof.
  unfold discontinuities.
  induction segments as [| s rest IH]; intros d Low High;
    cbn [fold_left filter] in *.
  - cbn [length]. f_equal. lia.
  - unfold countDiscontinuity at 2.
    destruct (Segment.isDiscontinuity s); cbn [length] in *.
    + rewrite increment_exact by lia. rewrite IH by lia. f_equal. lia.
    + apply IH; assumption.
Qed.

Lemma Linked_numbered first rest :
  Linked (first :: rest) ->
  forall i s,
    nth_error rest i = Some s ->
    s.(Segment.mediaSequence)
    = Nat.iter (S i) increment first.(Segment.mediaSequence)
    /\ s.(Segment.discontinuitySequence)
       = fold_left countDiscontinuity (firstn (S i) rest)
           first.(Segment.discontinuitySequence)
    /\ s.(Segment.startTime)
       = fold_left Qplus (List.map Segment.duration (firstn i rest))
           first.(Segment.endTime).
Proof.
  intros L. induction i as [| i IH]; intros s H.
  - destruct (L 0%nat first s eq_refl H) as (Sequence & Start & _ & Disc & _).
    rewrite (firstn_succ rest 0 s H).
    cbn [firstn app map fold_left]. simpl Nat.iter.
    split; [exact Sequence |]. split; [exact Disc | exact Start].
  - destruct (nth_error_before rest i s H) as (previous & P).
    destruct (IH previous P) as (Sequence' & Disc' & Start').
    destruct (L (S i) previous s P H) as (Sequence & Start & _ & Disc & _).
    assert (End : previous.(Segment.endTime)
                  = (previous.(Segment.startTime)
                     + previous.(Segment.duration))%Q).
    { destruct i as [| i].
      - destruct (L 0%nat first previous eq_refl P) as (_ & _ & E & _).
        exact E.
      - destruct (nth_error_before rest i previous P) as (before & B).
        destruct (L (S i) before previous B P) as (_ & _ & E & _). exact E. }
    split; [rewrite Sequence, Sequence'; reflexivity |]. split.
    + rewrite (firstn_succ rest (S i) s H), fold_left_app.
      cbn [fold_left]. rewrite <- Disc'. exact Disc.
    + rewrite (firstn_succ rest i previous P), map_app, fold_left_app.
      cbn [map fold_left]. rewrite Start, End, Start'. reflexivity.
Qed.

(** The numbering of a list of segments from its first one: the counters
    as the repeated steps of the code, the start time as the code's
    additions in order, and the integers the counters hold when the first
    segment's counters are integers from 0 and the result stays within
    [Number.MAX_SAFE_INTEGER]. *)
Definition Numbered (segments : list Segment.t) : Prop :=
  forall first rest i s,
    segments = first :: rest ->
    nth_error rest i = Some s ->
    s.(Segment.mediaSequence)
    = Nat.iter (S i) increment first.(Segment.mediaSequence)
    /\ s.(Segment.discontinuitySequence)
       = fold_left countDiscontinuity (firstn (S i) rest)
           first.(Segment.discontinuitySequence)
    /\ s.(Segment.startTime)
       = fold_left Qplus (List.map Segment.duration (firstn i rest))
           first.(Segment.endTime)
    /\ (forall m,
           first.(Segment.mediaSequence) = Js.ofInteger m ->
           (0 <= m)%Z -> (m + Z.of_nat (S i) < 2 ^ 53)%Z ->
           s.(Segment.mediaSequence) = Js.ofInteger (m + Z.of_nat (S i)))
    /\ (forall d,
           first.(Segment.discontinuitySequence) = Js.ofInteger d ->
           (0 <= d)%Z ->
           (d + discontinuities (firstn (S i) rest) < 2 ^ 53)%Z ->
           s.(Segment.discontinuitySequence)
           = Js.ofInteger (d + discontinuities (firstn (S i) rest))).

Lemma Linked_Numbered segments : Linked segments -> Numbered segments.
Proof.
  intros L first rest i s Segments Nth. rewrite Segments in L.
  destruct (Linked_numbered first rest L i s Nth) as (Media & Disc & Start).
  split; [exact Media |]. split; [exact Disc |]. split; [exact Start |].
  split.
  - intros m First Low High. rewrite Media, First.
    apply iter_increment_exact; assumption.
  - intros d First Low High. rewrite Disc, First.
    apply fold_countDiscontinuity_exact; assumption.
Qed.

(** X19. In every playlist returned by a parse, full or progressive, the
    segments are numbered from the first one.  The segment [i] places after
    it has the media sequence number of the first after [i] additions of 1
    and its discontinuity sequence number after one addition of 1 for every
    discontinuity among the segments after the first up to this one, the
    additions being those of doubles; when the first segment's number is an
    integer from 0 and the sum stays within [Number.MAX_SAFE_INTEGER], that
    is the integer sum.  The segment starts at the end time of the first
    plus the durations of the segments in between, added in order.  ([this]
    is a new parser or one whose segments are linked already.) *)
Theorem segments_numbered pf sm options this :
  Linked this.(Parser.parsedPlaylist).(ParsedPlaylist.segments) ->
  (forall text playlist this' out,
      parseFullPlaylistString pf sm text options this
      = Returned (playlist, this') out ->
      Numbered playlist.(ParsedPlaylist.segments))
  /\ (forall chunks machine playlist this' out,
         parseProgressively pf sm chunks options
           {| base := this; stateMachine := machine |}
         = Returned (playlist, this') out ->
         Numbered playlist.(ParsedPlaylist.segments)).
Proof.
  intros L.
  pose (Inv := fun p : Parser.t =>
                 Linked p.(Parser.parsedPlaylist).(ParsedPlaylist.segments)).
  assert (Step : forall e p p' out,
             Inv p -> deliver pf e p = Returned p' out -> Inv p')
    by (intros e p p' out; apply deliver_Linked).
  assert (Gather : forall o p, Inv p -> Inv (gatherParseOptions o p))
    by (intros o p I; exact I).
  split.
  - intros text playlist this' out H.
    destruct (parseFullPlaylistString_Inv pf sm Inv Step Gather _ _ _ _ _ _ L H)
      as (accumulated & I & ->).
    apply Linked_Numbered. exact I.
  - intros chunks machine playlist this' out H.
    destruct (parseProgressively_Inv pf sm Inv Step Gather chunks options
                {| base := this; stateMachine := machine |} _ _ _ L H)
      as (accumulated & I & ->).
    apply Linked_Numbered. exact I.
Qed.

Lemma segments_numbered_witness :
  exists playlist this' out,
    Sample.fullParse Sample.minimalVod ParserOptions.none
    = Returned (playlist, this') out
    /\ length playlist.(ParsedPlaylist.segments) = 2%nat
    /\ Numbered playlist.(ParsedPlaylist.segments).
Proof.
  eexists. eexists. eexists.
  split; [vm_compute; reflexivity |].
  split; [reflexivity |].
  refine (proj1
            (segments_numbered Sample.platform Scanner.createStateMachine
               Sample.options (Parser.constructor ParserOptions.none)
               Linked_nil)
            Sample.minimalVod _ _ _ _).
  vm_compute. reflexivity.
Defined.

(** ** EXT-X-STREAM-INF and the URI line after it *)

(** The variant stream that a tag's attributes and a URI describe. *)
Definition variantOf (pf : Platform) (tagAttributes : StringMap)
    (uri resolvedUri : string) : VariantStream.t :=
  VariantStream.mk
    (BaseStreamInf.set_resolvedUri resolvedUri
       (BaseStreamInf.set_uri uri
          (BaseStreamInfProcessor.parseCommonAttributes pf tagAttributes)))
    (BaseStreamInfProcessor.numberIfTruthy pf
       (Js.get ExtXStreamInf.FRAME_RATE tagAttributes))
    (Js.get ExtXStreamInf.AUDIO tagAttributes)
    (Js.get ExtXStreamInf.SUBTITLES tagAttributes)
    (Js.get ExtXStreamInf.CLOSED_CAPTIONS tagAttributes).

(** X20. A processed EXT-X-STREAM-INF tag line and the URI line after it,
    delivered through [tagInfoCallback] and [uriInfoCallback], append exactly
    one variant stream: the one that the tag's attributes describe, as
    [transformTagAttributes] returns them and after variable substitution,
    with the URI of the line, after substitution, and its resolution (the
    URI itself when it does not resolve).  What the current variant held
    before leaves no trace, so an earlier EXT-X-STREAM-INF without URI line
    is forgotten.  The segments are as they were, the multivariant flag is
    set, and the current variant is the default again. *)
Theorem variant_from_last_tag pf tagValue tagAttributes uri this :
  processedStreamInf tagAttributes this ->
  exists this' out,
    deliverAll pf
      [TagInfo ExtXStreamInf.tag tagValue tagAttributes; UriInfo uri] this
    = Returned this' out
    /\ this'.(Parser.parsedPlaylist).(ParsedPlaylist.variantStreams)
       = (this.(Parser.parsedPlaylist).(ParsedPlaylist.variantStreams)
          ++ [variantOf pf (streamInfAttributes pf tagAttributes this)
                (substitutedUri pf uri this)
                (resolvedOrRaw pf (substitutedUri pf uri this)
                   this.(Parser.sharedState).(SharedState.baseUrl))])%list
    /\ this'.(Parser.parsedPlaylist).(ParsedPlaylist.segments)
       = this.(Parser.parsedPlaylist).(ParsedPlaylist.segments)
    /\ this'.(Parser.sharedState).(SharedState.currentVariant)
       = createDefaultVariantStream
    /\ isMultivariant this' = true.
Proof.
  intros P.
  destruct (tagInfoCallback_streamInf pf tagValue tagAttributes this P)
    as (out & E).
  cbn [deliverAll deliver]. rewrite E. unfold andThen.
  rewrite (uriInfoCallback_blocks pf uri (withStreamInf pf tagAttributes this)).
  cbv zeta.
  change (SharedState.isMultivariantPlaylist
            (Parser.sharedState (withStreamInf pf tagAttributes this)))
    with true.
  cbv iota.
  eexists. eexists. split; [reflexivity |].
  repeat split.
Qed.

Definition lowVariant : StringMap :=
  [("BANDWIDTH", "1200000"); ("AUDIO", "aac")].

Lemma variant_from_last_tag_witness :
  exists this' out variant,
    deliverAll Sample.platform
      [TagInfo "EXT-X-STREAM-INF" None lowVariant; UriInfo "low.m3u8"]
      (gatherParseOptions Sample.options
         (Parser.constructor ParserOptions.none))
    = Returned this' out
    /\ this'.(Parser.parsedPlaylist).(ParsedPlaylist.variantStreams)
       = [variant]
    /\ variant.(VariantStream.common).(BaseStreamInf.uri) = "low.m3u8"
    /\ variant.(VariantStream.common).(BaseStreamInf.resolvedUri)
       = "https://example.com/low.m3u8"
    /\ variant.(VariantStream.audio) = Some "aac"
    /\ isMultivariant this' = true.
Proof.
  pose (start := gatherParseOptions Sample.options
                   (Parser.constructor ParserOptions.none)).
  assert (P : processedStreamInf lowVariant start).
  { split; [intros [] | reflexivity]. }
  destruct (variant_from_last_tag Sample.platform None lowVariant "low.m3u8"
              start P)
    as (this' & out & E & Variants & _ & _ & Flag).
  exists this', out. eexists.
  split; [exact E |]. split; [exact Variants |].
  repeat split. exact Flag.
Defined.

(** ** The texts of the warnings *)

Lemma append_cancel_l (s a b : string) :
  (s ++ a)%string = (s ++ b)%string -> a = b.
Proof.
  induction s as [| c s IH]; cbn [append]; intros H; [exact H |].
  injection H as H. exact (IH H).
Qed.

Lemma length_append (a b : string) :
  String.length (a ++ b) = (String.length a + String.length b)%nat.
Proof.
  induction a as [| c a IH]; cbn [append String.length]; [reflexivity |].
  now rewrite IH.
Qed.

Lemma append_cancel_r (s a b : string) :
  (a ++ s)%string = (b ++ s)%string -> a = b.
Proof.
  revert b. induction a as [| c a IH]; intros b H.
  - destruct b as [| d b]; [reflexivity |]. exfalso.
    apply (f_equal String.length) in H. cbn [append String.length] in H.
    rewrite length_append in H. lia.
  - destruct b as [| d b].
    + exfalso. apply (f_equal String.length) in H.
      cbn [append String.length] in H. rewrite length_append in H. lia.
    + cbn [append] in H. injection H as -> H. now rewrite (IH b H).
Qed.

(** X21. The warnings that skip a tag can be told apart by their text: for
    one tag, the messages for a missing value, an unsupported tag, a value
    that cannot be parsed, an ignored tag and a missing required attribute
    are pairwise different, and the message for a missing required attribute
    determines the attribute. *)
Theorem skip_warnings_distinct tag :
  NoDup
    [Warn.missingTagValueWarn tag; Warn.unsupportedTagWarn tag;
     Warn.unableToParseValueWarn tag; Warn.ignoreTagWarn tag]
  /\ (forall attribute,
         ~ In (Warn.missingRequiredAttributeWarn tag attribute)
             [Warn.missingTagValueWarn tag; Warn.unsupportedTagWarn tag;
              Warn.unableToParseValueWarn tag; Warn.ignoreTagWarn tag])
  /\ (forall attribute attribute',
         Warn.missingRequiredAttributeWarn tag attribute
         = Warn.missingRequiredAttributeWarn tag attribute' ->
         attribute = attribute').
Proof.
  unfold Warn.missingTagValueWarn, Warn.unsupportedTagWarn,
    Warn.unableToParseValueWarn, Warn.ignoreTagWarn,
    Warn.missingRequiredAttributeWarn, Warn.skipProcessing.
  assert (Reason :
            forall a b : string,
              ("Skip processing " ++ tag ++ ". Reason: " ++ a ++ ".")%string
              = ("Skip processing " ++ tag ++ ". Reason: " ++ b ++ ".")%string ->
              a = b).
  { intros a b H. apply append_cancel_l in H. apply append_cancel_l in H.
    apply append_cancel_l in H. apply append_cancel_r in H. exact H. }
  split; [| split].
  - repeat constructor; cbn [In]; intros H;
      repeat match goal with
        | H : _ \/ _ |- _ => destruct H as [H | H]
        | H : False |- _ => exact H
        | H : _ = _ |- _ => apply Reason in H; discriminate H
        end.
  - intros attribute H. cbn [In] in H.
    repeat match goal with
      | H : _ \/ _ |- _ => destruct H as [H | H]
      | H : False |- _ => exact H
      | H : _ = _ |- _ => apply Reason in H; discriminate H
      end.
  - intros attribute attribute' H. apply Reason in H.
    apply append_cancel_l in H. apply append_cancel_r in H. exact H.
Qed.

(** ** Exceptions *)

(** X22. Of the attribute tags only EXT-X-SKIP and EXT-X-MEDIA can throw:
    every other tag of the table is processed to the end, with or without
    its required attributes, with or without variable substitution, on every
    playlist and in every shared state. *)
Theorem attribute_tags_return pf tagKey P tagAttributes playlist sharedState :
  Js.get tagKey (tagAttributesMap pf) = Some P ->
  tagKey <> ExtXSkip.tag ->
  tagKey <> ExtXMedia.tag ->
  returns
    (TagWithAttributesProcessor.process pf P tagAttributes playlist
       sharedState).
Proof.
  intros Registered NotSkip NotMedia. apply process_returns. intros a.
  now apply (tagAttributesMap_returns pf tagKey).
Qed.

Lemma attribute_tags_return_witness :
  returns
    (TagWithAttributesProcessor.process Sample.platform
       (ExtXKey.processor Sample.platform) keyWithoutUri
       createDefaultParsedPlaylist createDefaultSharedState).
Proof.
  refine (attribute_tags_return Sample.platform "EXT-X-KEY"
            (ExtXKey.processor Sample.platform) keyWithoutUri
            createDefaultParsedPlaylist createDefaultSharedState eq_refl _ _);
    discriminate.
Defined.

(** X23. EXT-X-SKIP with a RECENTLY-REMOVED-DATERANGES attribute returns, and
    the ids it stores are the attribute cut at the tabs: joined by tabs they
    give the attribute back, none of them contains a tab, and there is at
    least one, so an empty attribute stores one empty id, not an empty
    list. *)
Theorem ExtXSkip_ranges pf tagAttributes playlist sharedState value :
  Js.get ExtXSkip.RECENTLY_REMOVED_DATERANGES tagAttributes = Some value ->
  exists ranges,
    ExtXSkip.safeProcess pf tagAttributes playlist sharedState
    = Returned
        (ParsedPlaylist.set_skip
           (Some
              (Skip.mk
                 (NumberOf pf
                    (Js.get ExtXSkip.SKIPPED_SEGMENTS tagAttributes))
                 ranges))
           playlist,
         sharedState)
        []
    /\ join ExtXSkip.tab ranges = value
    /\ ranges <> []
    /\ Forall (fun range => occurrences ExtXSkip.tab range = 0%nat) ranges
    /\ (value = EmptyString -> ranges = [EmptyString]).
Proof.
  intros Present. unfold ExtXSkip.safeProcess. rewrite Present.
  cbn [Js.truthy ExtXSkip.RECENTLY_REMOVED_DATERANGES].
  exists (Js.split ExtXSkip.tab value). split; [reflexivity |].
  split; [apply split_join |]. split; [apply split_not_empty |].
  split; [apply split_parts |]. intros ->. reflexivity.
Qed.

Definition skipTwoRanges : StringMap :=
  [("SKIPPED-SEGMENTS", "3");
   ("RECENTLY-REMOVED-DATERANGES",
    "a" ++ String ExtXSkip.tab EmptyString ++ "b")].

Lemma ExtXSkip_ranges_witness :
  exists ranges,
    ExtXSkip.safeProcess Sample.platform skipTwoRanges
      createDefaultParsedPlaylist createDefaultSharedState
    = Returned
        (ParsedPlaylist.set_skip
           (Some
              (Skip.mk
                 (NumberOf Sample.platform
                    (Js.get ExtXSkip.SKIPPED_SEGMENTS skipTwoRanges))
                 ranges))
           createDefaultParsedPlaylist,
         createDefaultSharedState)
        []
    /\ join ExtXSkip.tab ranges = "a" ++ String ExtXSkip.tab EmptyString ++ "b"
    /\ ranges <> []
    /\ Forall (fun range => occurrences ExtXSkip.tab range = 0%nat) ranges
    /\ ("a" ++ String ExtXSkip.tab EmptyString ++ "b" = EmptyString ->
        ranges = [EmptyString]).
Proof.
  exact (ExtXSkip_ranges Sample.platform skipTwoRanges
           createDefaultParsedPlaylist createDefaultSharedState
           ("a" ++ String ExtXSkip.tab EmptyString ++ "b") eq_refl).
Defined.

(** ** The target duration *)

(** X24. [handleCurrentSegment] warns about the duration exactly when a
    target duration is known at the URI line and the duration of the current
    segment is greater than it; it warns at most once, and it appends the
    segment in either case.  A target duration that is declared after a
    segment's URI line never gives a warning for that segment. *)
Theorem duration_warning_rule pf uri resolvedUri this :
  exists s,
    handleCurrentSegment pf uri resolvedUri this
    = Returned (withSegment s this) (durationWarning pf uri this)
    /\ (durationWarning pf uri this = []
        <-> forall targetDuration,
            this.(Parser.parsedPlaylist).(ParsedPlaylist.targetDuration)
            = Some targetDuration ->
            (this.(Parser.sharedState).(SharedState.currentSegment).(Segment.duration)
             <= inject_Z targetDuration)%Q)
    /\ (length (durationWarning pf uri this) <= 1)%nat.
Proof.
  exists (finalize uri resolvedUri this).
  split; [apply handleCurrentSegment_blocks |].
  unfold durationWarning, exceeds.
  destruct (ParsedPlaylist.targetDuration (Parser.parsedPlaylist this))
    as [targetDuration |].
  - destruct (Qle_bool
                (Segment.duration
                   (SharedState.currentSegment (Parser.sharedState this)))
                (inject_Z targetDuration)) eqn:Le; cbn [negb length].
    + apply Qle_bool_iff in Le. split; [| lia]. split; [| reflexivity].
      intros _ t E. injection E as <-. exact Le.
    + split; [| lia]. split; [discriminate |].
      intros H. specialize (H targetDuration eq_refl).
      apply Qle_bool_iff in H. congruence.
  - cbn [length]. split; [| lia]. split; [| reflexivity].
    intros _ t E. discriminate E.
Qed.
